(** * AI-News-Reports: the signup worker (ai-news-signup)

    A shallow embedding of the Cloudflare worker that manages newsletter
    subscribers (routes/subscribe.ts, routes/verify.ts,
    routes/unsubscribe.ts, lib/hmac.ts, lib/turnstile.ts, schema.sql) and
    the report archive (archive.ts, types.ts), and of the argument loop
    and the phases of run.sh, followed by the properties of the
    specification that hold of them.

    Conventions of the embedding.
    - A JavaScript string is a Rocq [string], one [ascii] per UTF-16 code
      unit; this covers the strings whose code units lie in U+0000..U+00FF.
      The built-ins the handlers call ([toLowerCase], [trim], [slice],
      [charCodeAt], [parseInt], the [\s] class of regular expressions,
      [TextEncoder.encode]) are written out for that range.
    - A string that may be [undefined] or [null] is an [option]; the body
      of a subscribe request is whatever JSON value the client sent
      ([Js.Json]), not the type types.ts declares for it.
    - A number that [parseInt] returns is a double: the integer nearest to
      the digits among those a double holds, [Infinity] past the largest
      of them, or [NaN] ([Js.number], [Js.nearestDouble]).
    - Platform services are state passed explicitly: the D1 table is a list
      of rows, the KV namespace and the R2 bucket are finite maps, the clock
      and the reply of the Turnstile service are arguments of each handler.
      The calls to D1, KV, R2 and Turnstile are assumed not to throw.
    - A promise that rejects is an [option] that is [None]:
      [crypto.subtle.importKey] rejects a key of length zero, so signing
      with an empty [HMAC_SECRET] throws, and the handler's [catch] branch
      answers 500.  The other place a handler's own code throws is a
      property access or a method call on a value of the wrong type in
      the subscribe body.
    - The handlers take [crypto.subtle]'s HMAC-SHA256 and
      [String.prototype.localeCompare] as parameters; module [Crypto] and
      [codeUnitCompare] are the instances used to run them. *)

From Stdlib Require Import ZArith Ascii String Strings.Byte Sorted Permutation Lia.
From Stdlib Require DecimalString DecimalZ DecimalPos.
From stdpp Require Import base option list strings gmap.

Local Open Scope Z_scope.

(** ** JavaScript built-ins used by the handlers *)

Module Js.

(** [x.length] of a string. *)
Definition length (s : string) : Z := Z.of_nat (String.length s).

(** Truthiness of a string value that may be [undefined]: [!x] is
    [negb (truthy x)]. *)
Definition truthy (x : option string) : bool :=
  match x with
  | None => false
  | Some s => negb (String.eqb s "")
  end.

(** Truthiness of a number. *)
Definition truthyNum (n : Z) : bool := negb (n =? 0).

(** WhiteSpace and LineTerminator code units (the class [\s], and what
    [trim] and [parseInt] strip): TAB, LF, VT, FF, CR, SP, NBSP. *)
Definition isWhiteSpace (c : ascii) : bool :=
  let n := N_of_ascii c in
  ((9 <=? n) && (n <=? 13) || (n =? 32) || (n =? 160))%N.

Fixpoint trimStart (s : string) : string :=
  match s with
  | EmptyString => EmptyString
  | String c s' => if isWhiteSpace c then trimStart s' else s
  end.

Fixpoint trimEnd (s : string) : string :=
  match s with
  | EmptyString => EmptyString
  | String c s' =>
      match trimEnd s' with
      | EmptyString => if isWhiteSpace c then EmptyString else String c EmptyString
      | t => String c t
      end
  end.

(** [s.trim()] *)
Definition trim (s : string) : string := trimEnd (trimStart s).

(** Lower-casing of one code unit: A-Z, and the Latin-1 capitals
    U+00C0..U+00DE except the multiplication sign U+00D7. *)
Definition lowerChar (c : ascii) : ascii :=
  let n := N_of_ascii c in
  if ((65 <=? n) && (n <=? 90)
      || (192 <=? n) && (n <=? 222) && negb (n =? 215))%N
  then ascii_of_N (n + 32) else c.

Fixpoint mapString (f : ascii -> ascii) (s : string) : string :=
  match s with
  | EmptyString => EmptyString
  | String c s' => String (f c) (mapString f s')
  end.

(** [s.toLowerCase()] *)
Definition toLowerCase (s : string) : string := mapString lowerChar s.

(** [s.slice(0, n)] *)
Fixpoint slice0 (n : nat) (s : string) : string :=
  match n, s with
  | S n', String c s' => String c (slice0 n' s')
  | _, _ => EmptyString
  end.

(** [s.slice(n)] *)
Fixpoint sliceFrom (n : nat) (s : string) : string :=
  match n, s with
  | S n', String _ s' => sliceFrom n' s'
  | _, _ => s
  end.

(** [s.startsWith(p)] *)
Definition startsWith (p s : string) : bool := String.prefix p s.

(** [s.charCodeAt(i)] as an operand of a bitwise operator: the code unit,
    and 0 out of range (there [charCodeAt] gives NaN, which ToInt32 maps
    to 0). *)
Definition charCodeAt (s : string) (i : nat) : Z :=
  match String.get i s with
  | Some c => Z.of_N (N_of_ascii c)
  | None => 0
  end.

(** [new TextEncoder().encode(s)]: UTF-8, one or two bytes per code
    unit in the range modelled. *)
Definition encodeChar (c : ascii) : list byte :=
  let n := N_of_ascii c in
  if (n <? 128)%N then [byte_of_ascii c]
  else
    let hi := (192 + N.shiftr n 6)%N in
    let lo := (128 + N.land n 63)%N in
    [byte_of_ascii (ascii_of_N hi); byte_of_ascii (ascii_of_N lo)].

Fixpoint encode (s : string) : list byte :=
  match s with
  | EmptyString => []
  | String c s' => encodeChar c ++ encode s'
  end.

(** One hexadecimal digit, as [Number.prototype.toString(16)] prints
    it. *)
Definition hexDigit (n : N) : ascii :=
  if (n <? 10)%N then ascii_of_N (48 + n) else ascii_of_N (87 + n).

(** [b.toString(16).padStart(2, '0')] for a byte [b]. *)
Definition hex2 (b : byte) : string :=
  let n := Byte.to_N b in
  String (hexDigit (n / 16)) (String (hexDigit (n mod 16)) EmptyString).

(** [xs.join('')] *)
Fixpoint join (xs : list string) : string :=
  match xs with
  | [] => EmptyString
  | x :: xs' => x +:+ join xs'
  end.

(** A JavaScript number as far as the handlers produce one: a double
    whose value is the integer [z], NaN, an infinity, or the [null] a JSON
    document carries. *)
Inductive number : Type :=
| JsNull
| JsNaN
| JsInfinity (negative : bool)
| JsNum (z : Z).

(** The Number value of the integer [z]: the double nearest to it, the
    even one of two that are equally near, and an infinity past the
    largest double.  Up to 2^53 every integer is a double; above,
    doubles are [ulp] apart, 53 bits times a power of two. *)
Definition nearestDouble (z : Z) : number :=
  let a := Z.abs z in
  if a <? 2 ^ 53 then JsNum z
  else
    let ulp := 2 ^ (Z.log2 a - 52) in
    let q := a / ulp in
    let r := a mod ulp in
    let q' := if (ulp <? 2 * r) || ((2 * r =? ulp) && Z.odd q) then q + 1 else q in
    let m := q' * ulp in
    if 2 ^ 1024 <=? m then JsInfinity (z <? 0) else JsNum (Z.sgn z * m).

Definition digitValue (c : ascii) : option Z :=
  let n := N_of_ascii c in
  if ((48 <=? n) && (n <=? 57))%N then Some (Z.of_N n - 48) else None.

(** The longest prefix of decimal digits, read left to right; [None]
    when the prefix is empty. *)
Fixpoint parseDigits (acc : option Z) (s : string) : option Z :=
  match s with
  | EmptyString => acc
  | String c s' =>
      match digitValue c with
      | Some d => parseDigits (Some (10 * default 0 acc + d)) s'
      | None => acc
      end
  end.

(** [parseInt(s, 10)]: leading white space is skipped, one sign is
    read, then the longest prefix of digits; NaN when there is none.  The
    result is the Number value of the integer read (the language allows
    an approximation past the 20th digit; V8, which runs the worker,
    rounds the exact value). *)
Definition parseInt10 (s : string) : number :=
  let t := trimStart s in
  let '(sign, u) :=
    match t with
    | String "-" u => (-1, u)
    | String "+" u => (1, u)
    | _ => (1, t)
    end in
  match parseDigits None u with
  | Some z => nearestDouble (sign * z)
  | None => JsNaN
  end.

(** A JSON value, as [JSON.parse] and [c.req.json()] return it.  A number
    is kept as an integer: no handler reads the value of a number from a
    request body. *)
#[warnings="-register-all"] Inductive Json : Type :=
| JNull
| JBool (b : bool)
| JNumber (n : Z)
| JString (s : string)
| JArray (items : list Json)
| JObject (members : list (string * Json)).

(** The member of an object under the key [k]; of two members with one
    key, [JSON.parse] keeps the later. *)
Fixpoint member (k : string) (ms : list (string * Json)) : option Json :=
  match ms with
  | [] => None
  | (k', v) :: ms' =>
      match member k ms' with
      | Some w => Some w
      | None => if String.eqb k' k then Some v else None
      end
  end.

(** [v.k] for a value [v] other than [null] and a key [k] that no
    prototype defines; [None] is [undefined]. *)
Definition prop (k : string) (v : Json) : option Json :=
  match v with
  | JObject ms => member k ms
  | _ => None
  end.

(** Truthiness of a value that may be [undefined]. *)
Definition truthyValue (v : option Json) : bool :=
  match v with
  | None | Some JNull => false
  | Some (JBool b) => b
  | Some (JNumber n) => negb (n =? 0)
  | Some (JString s) => negb (String.eqb s "")
  | Some (JArray _) | Some (JObject _) => true
  end.

(** [typeof v === 'string'] *)
Definition isString (v : option Json) : bool :=
  match v with
  | Some (JString _) => true
  | _ => false
  end.

(** [v === undefined || v === null], the test of [v?.m]. *)
Definition nullish (v : option Json) : bool :=
  match v with
  | None | Some JNull => true
  | _ => false
  end.

(** The string a value is, if it is one. *)
Definition asString (v : option Json) : option string :=
  match v with
  | Some (JString s) => Some s
  | _ => None
  end.

(** [xs.findIndex(p)]: the first index whose element satisfies [p],
    or -1. *)
Definition findIndex {A} (p : A -> bool) (xs : list A) : Z :=
  match list_find (fun x => p x = true) xs with
  | Some (i, _) => Z.of_nat i
  | None => -1
  end.

(** [xs.find(p)] *)
Definition find {A} (p : A -> bool) (xs : list A) : option A :=
  snd <$> list_find (fun x => p x = true) xs.

(** Regular expressions, to the extent [EMAIL_REGEX] needs them: a
    character class, concatenation and [+]; matching is by derivatives
    and is anchored at both ends, as the pattern is. *)
Inductive regex : Type :=
| ReFail
| ReEps
| ReClass (p : ascii -> bool)
| ReSeq (r1 r2 : regex)
| ReAlt (r1 r2 : regex)
| ReStar (r : regex).

Definition RePlus (r : regex) : regex := ReSeq r (ReStar r).

Fixpoint nullable (r : regex) : bool :=
  match r with
  | ReFail => false
  | ReEps => true
  | ReClass _ => false
  | ReSeq r1 r2 => nullable r1 && nullable r2
  | ReAlt r1 r2 => nullable r1 || nullable r2
  | ReStar _ => true
  end.

Fixpoint deriv (c : ascii) (r : regex) : regex :=
  match r with
  | ReFail => ReFail
  | ReEps => ReFail
  | ReClass p => if p c then ReEps else ReFail
  | ReSeq r1 r2 =>
      if nullable r1
      then ReAlt (ReSeq (deriv c r1) r2) (deriv c r2)
      else ReSeq (deriv c r1) r2
  | ReAlt r1 r2 => ReAlt (deriv c r1) (deriv c r2)
  | ReStar r1 => ReSeq (deriv c r1) (ReStar r1)
  end.

(** [/^r$/.test(s)] *)
Fixpoint test (r : regex) (s : string) : bool :=
  match s with
  | EmptyString => nullable r
  | String c s' => test (deriv c r) s'
  end.

(** [xs.sort(cmp)].  The language fixes the result for a consistent
    comparator: the sorted permutation that keeps elements comparing
    equal in their previous order (the sort is stable).  It is computed
    here by insertion: [x] goes in front of the first element it does
    not have to follow. *)
Fixpoint insertSorted {A} (cmp : A -> A -> Z) (x : A) (xs : list A) : list A :=
  match xs with
  | [] => [x]
  | y :: xs' =>
      if cmp x y <=? 0 then x :: xs else y :: insertSorted cmp x xs'
  end.

Definition sort {A} (cmp : A -> A -> Z) (xs : list A) : list A :=
  foldr (insertSorted cmp) [] xs.

End Js.

(** ** Responses *)

(** [ApiResponse<T>] of types.ts, and the reply [c.json(body, status)]. *)
Record ApiResponse (T : Type) : Type := mkApi {
  success : bool;
  message : option string;
  data : option T;
  error : option string
}.
Arguments mkApi {T}.
Arguments success {T}.
Arguments message {T}.
Arguments data {T}.
Arguments error {T}.

Record JsonResponse (T : Type) : Type := mkJson {
  json_status : Z;
  json_body : ApiResponse T
}.
Arguments mkJson {T}.
Arguments json_status {T}.
Arguments json_body {T}.

(** [c.json({ success: false, error }, status)] *)
Definition jsonError {T} (msg : string) (status : Z) : JsonResponse T :=
  mkJson status (mkApi false None None (Some msg)).

(** [c.json({ success: true, message })] *)
Definition jsonMessage {T} (msg : string) : JsonResponse T :=
  mkJson 200 (mkApi true (Some msg) None None).

(** The pages of verify.ts and unsubscribe.ts are one template filled with
    a title, a heading and a paragraph; the style sheet is left out. *)
Record Html : Type := mkHtml {
  html_title : string;
  html_heading : string;
  html_text : string
}.

(** [c.html(page, status)] *)
Record HtmlResponse : Type := mkHtmlResponse {
  html_status : Z;
  html_page : Html
}.

(** ** lib/turnstile.ts *)

Module Turnstile.

(** What the call to the siteverify endpoint comes back with. *)
Inductive FetchOutcome : Type :=
| FetchThrows
| FetchNotOk
| FetchJson (success : bool) (error_codes : option (list string)).

Record Result : Type := mkResult {
  ok : bool;
  err : option string
}.

(** [codes.join(', ')] *)
Fixpoint joinComma (xs : list string) : string :=
  match xs with
  | [] => ""
  | [x] => x
  | x :: xs' => x +:+ ", " +:+ joinComma xs'
  end.

Definition validateTurnstile (reply : FetchOutcome) : Result :=
  match reply with
  | FetchThrows => mkResult false (Some "Failed to validate Turnstile token")
  | FetchNotOk => mkResult false (Some "Turnstile verification service unavailable")
  | FetchJson false codes =>
      let joined := joinComma <$> codes in
      let errorCodes := if Js.truthy joined then default "" joined else "Unknown error" in
      mkResult false (Some ("Turnstile validation failed: " +:+ errorCodes))
  | FetchJson true _ => mkResult true None
  end.

End Turnstile.

(** ** lib/hmac.ts *)

Module Hmac.
Section WithHmac.

(** [crypto.subtle.sign('HMAC', key, message)] with SHA-256: key bytes
    and message bytes to the 32 signature bytes. *)
Variable hmacSha256 : list byte -> list byte -> list byte.

(** [crypto.subtle.importKey('raw', keyData, { name: 'HMAC', hash:
    'SHA-256' }, false, ['sign'])].  The key is its bytes; a key of length
    zero is refused (the promise rejects with a DataError), which is
    [None]. *)
Definition importKey (keyData : list byte) : option (list byte) :=
  match keyData with
  | [] => None
  | _ :: _ => Some keyData
  end.

(** The result is [None] when the promise rejects. *)
Definition generateHmacToken (secret email : string) : option string :=
  let keyData := Js.encode secret in
  let messageData := Js.encode (Js.toLowerCase email) in
  match importKey keyData with
  | None => None
  | Some cryptoKey =>
      let signature := hmacSha256 cryptoKey messageData in
      Some (Js.join (Js.hex2 <$> signature))
  end.

(** The comparison loop: [n] iterations left, at index [i], with the
    accumulator [result]. *)
Fixpoint compareLoop (expectedToken token : string) (n i : nat) (result : Z) : Z :=
  match n with
  | O => result
  | S n' =>
      compareLoop expectedToken token n' (S i)
        (Z.lor result
           (Z.lxor (Js.charCodeAt expectedToken i) (Js.charCodeAt token i)))
  end.

Definition validateHmacToken (secret email token : string) : option bool :=
  match generateHmacToken secret email with
  | None => None
  | Some expectedToken =>
      if negb (Js.length expectedToken =? Js.length token) then Some false
      else
        Some (compareLoop expectedToken token (String.length expectedToken) 0 0 =? 0)
  end.

End WithHmac.
End Hmac.

(** ** schema.sql and the statements the routes prepare *)

Module Schema.

(** The two clocks the statements read: [CURRENT_TIMESTAMP] (a text
    value) and [unixepoch()] (an integer), both at the instant [now]. *)
Inductive SqlTime : Type :=
| CURRENT_TIMESTAMP (now : Z)
| unixepoch (now : Z).

Record Subscriber : Type := mkSubscriber {
  sub_id : Z;
  sub_email : string;
  sub_name : option string;
  sub_verification_token : option string;
  sub_verified : Z;
  sub_active : Z;
  sub_created_at : SqlTime;
  sub_verified_at : option SqlTime
}.

(** The table, and the counter AUTOINCREMENT keeps in sqlite_sequence. *)
Record D1Database : Type := mkDb {
  rows : list Subscriber;
  sqlite_sequence : Z
}.

(** [... WHERE email = ?] [.first()] *)
Definition firstByEmail (e : string) (db : D1Database) : option Subscriber :=
  List.find (fun r => String.eqb (sub_email r) e) (rows db).

(** [... WHERE verification_token = ?] [.first()]; a NULL token matches
    nothing. *)
Definition tokenIs (t : string) (r : Subscriber) : bool :=
  match sub_verification_token r with
  | Some t' => String.eqb t' t
  | None => false
  end.

Definition firstByToken (t : string) (db : D1Database) : option Subscriber :=
  List.find (tokenIs t) (rows db).

(** [UPDATE subscribers SET ... WHERE cond] *)
Definition updateWhere (cond : Subscriber -> bool)
    (set : Subscriber -> Subscriber) (db : D1Database) : D1Database :=
  mkDb ((fun r => if cond r then set r else r) <$> rows db) (sqlite_sequence db).

Definition idIs (i : Z) (r : Subscriber) : bool := sub_id r =? i.
Definition emailIs (e : string) (r : Subscriber) : bool := String.eqb (sub_email r) e.

(** [UPDATE subscribers SET active = 1 WHERE id = ?] *)
Definition reactivate (i : Z) : D1Database -> D1Database :=
  updateWhere (idIs i)
    (fun r => mkSubscriber (sub_id r) (sub_email r) (sub_name r)
                (sub_verification_token r) (sub_verified r) 1
                (sub_created_at r) (sub_verified_at r)).

(** [COALESCE(x, y)] *)
Definition COALESCE {A} (x y : option A) : option A :=
  match x with
  | Some _ => x
  | None => y
  end.

(** [UPDATE subscribers SET verified = 1, verified_at = CURRENT_TIMESTAMP,
    active = 1, name = COALESCE(?, name) WHERE id = ?] *)
Definition autoVerify (now : Z) (sanitizedName : option string) (i : Z)
    : D1Database -> D1Database :=
  updateWhere (idIs i)
    (fun r => mkSubscriber (sub_id r) (sub_email r)
                (COALESCE sanitizedName (sub_name r))
                (sub_verification_token r) 1 1
                (sub_created_at r) (Some (CURRENT_TIMESTAMP now))).

(** [UPDATE subscribers SET verified = 1, verification_token = NULL,
    verified_at = unixepoch() WHERE id = ?] *)
Definition markVerified (now : Z) (i : Z) : D1Database -> D1Database :=
  updateWhere (idIs i)
    (fun r => mkSubscriber (sub_id r) (sub_email r) (sub_name r)
                None 1 (sub_active r)
                (sub_created_at r) (Some (unixepoch now))).

(** [UPDATE subscribers SET active = 0 WHERE email = ?] *)
Definition deactivate (e : string) : D1Database -> D1Database :=
  updateWhere (emailIs e)
    (fun r => mkSubscriber (sub_id r) (sub_email r) (sub_name r)
                (sub_verification_token r) (sub_verified r) 0
                (sub_created_at r) (sub_verified_at r)).

(** [INSERT INTO subscribers (email, name, verified, verified_at, active)
    VALUES (?, ?, 1, CURRENT_TIMESTAMP, 1)].  The id is one more than the
    largest ever used, the token is NULL, [created_at] takes its default;
    the statement fails ([None]) when the email is already in the table
    (UNIQUE). *)
Definition insertVerified (now : Z) (e : string) (n : option string)
    (db : D1Database) : option D1Database :=
  match firstByEmail e db with
  | Some _ => None
  | None =>
      let i := foldr Z.max (sqlite_sequence db) (sub_id <$> rows db) + 1 in
      Some (mkDb (rows db ++
                    [mkSubscriber i e n None 1 1 (unixepoch now)
                       (Some (CURRENT_TIMESTAMP now))])
                 i)
  end.

End Schema.

(** ** routes/subscribe.ts *)

Module Subscribe.
Import Schema.

(** A body of the type [SubscribeRequest] of types.ts: the JSON object
    with the fields given, each a string; a field that is [None] is left
    out. *)
Definition field (k : string) (v : option string) : list (string * Js.Json) :=
  match v with
  | Some x => [(k, Js.JString x)]
  | None => []
  end.

Definition mkRequest (email name turnstileToken : option string) : Js.Json :=
  Js.JObject (field "email" email ++ field "name" name
              ++ field "turnstileToken" turnstileToken).

Definition notWsAt (c : ascii) : bool :=
  negb (Js.isWhiteSpace c) && negb (Ascii.eqb c "@").

(** [/^[^\s@]+@[^\s@]+\.[^\s@]+$/] *)
Definition EMAIL_REGEX : Js.regex :=
  Js.ReSeq (Js.RePlus (Js.ReClass notWsAt))
    (Js.ReSeq (Js.ReClass (Ascii.eqb "@"))
       (Js.ReSeq (Js.RePlus (Js.ReClass notWsAt))
          (Js.ReSeq (Js.ReClass (Ascii.eqb "."))
             (Js.RePlus (Js.ReClass notWsAt))))).

(** [name?.trim().slice(0, 100) || null] for a [name] that is a string,
    or [undefined] or [null] ([None]). *)
Definition sanitizeName (name : option string) : option string :=
  match name with
  | None => None
  | Some n =>
      let t := Js.slice0 100 (Js.trim n) in
      if Js.truthy (Some t) then Some t else None
  end.

Definition subscribed : string :=
  "You're subscribed! You'll receive the next newsletter.".

(** Lines 20 to 70 of the handler: what it does with the three fields it
    has read from the body.  [reply] is what the Turnstile service answers
    to this request.  A [name] that is neither nullish nor a string has no
    [trim] method: the call throws, and the [catch] branch answers 500. *)
Definition handle (now : Z) (reply : Turnstile.FetchOutcome)
    (email name turnstileToken : option Js.Json) (db : D1Database)
    : JsonResponse unit * D1Database :=
  if negb (Js.truthyValue email) || negb (Js.isString email) then
    (jsonError "Email is required" 400, db)
  else if negb (Js.truthyValue turnstileToken) || negb (Js.isString turnstileToken) then
    (jsonError "Turnstile token is required" 400, db)
  else
  let normalizedEmail := Js.trim (Js.toLowerCase (default "" (Js.asString email))) in
  if negb (Js.test EMAIL_REGEX normalizedEmail) then
    (jsonError "Invalid email format" 400, db)
  else
  if negb (Js.nullish name) && negb (Js.isString name) then
    (jsonError "An unexpected error occurred." 500, db)
  else
  let sanitizedName := sanitizeName (Js.asString name) in
  let turnstileResult := Turnstile.validateTurnstile reply in
  if negb (Turnstile.ok turnstileResult) then
    (jsonError (if Js.truthy (Turnstile.err turnstileResult)
                then default "" (Turnstile.err turnstileResult)
                else "Captcha failed") 400, db)
  else
  match firstByEmail normalizedEmail db with
  | Some existing =>
      if Js.truthyNum (sub_verified existing) && Js.truthyNum (sub_active existing) then
        (jsonMessage "You are already subscribed!", db)
      else if Js.truthyNum (sub_verified existing)
              && negb (Js.truthyNum (sub_active existing)) then
        (jsonMessage "Welcome back! Subscription reactivated.",
         reactivate (sub_id existing) db)
      else
        (jsonMessage subscribed,
         autoVerify now sanitizedName (sub_id existing) db)
  | None =>
      match insertVerified now normalizedEmail sanitizedName db with
      | Some db' => (jsonMessage subscribed, db')
      | None => (jsonError "An unexpected error occurred." 500, db)
      end
  end.

(** [subscribeRoute.post('/')].  [body] is [None] when [c.req.json()]
    throws, and else the JSON value of the request body, whatever its
    type.  Reading the three fields from [null] throws, which the [catch]
    branch answers with 500; any other value has them, or has them
    [undefined]. *)
Definition post (now : Z) (reply : Turnstile.FetchOutcome)
    (body : option Js.Json) (db : D1Database)
    : JsonResponse unit * D1Database :=
  match body with
  | None => (jsonError "Invalid JSON body" 400, db)
  | Some Js.JNull => (jsonError "An unexpected error occurred." 500, db)
  | Some body =>
      handle now reply (Js.prop "email" body) (Js.prop "name" body)
        (Js.prop "turnstileToken" body) db
  end.

End Subscribe.

(** ** routes/verify.ts *)

Module Verify.
Import Schema.

Definition successHtml : Html :=
  mkHtml "Subscription Confirmed" "You're Subscribed!"
    "Welcome to AI News Weekly. You'll receive our next issue soon.".

Definition errorHtml (msg : string) : Html :=
  mkHtml "Verification Failed" "Verification Failed" msg.

(** [verifyRoute.get('/')]; [token] is the query parameter. *)
Definition get (now : Z) (token : option string) (db : D1Database)
    : HtmlResponse * D1Database :=
  if negb (Js.truthy token) || negb (Js.length (default "" token) =? 32) then
    (mkHtmlResponse 400 (errorHtml "Invalid or missing verification token."), db)
  else
  match firstByToken (default "" token) db with
  | None =>
      (mkHtmlResponse 404 (errorHtml "This link is invalid or has expired."), db)
  | Some subscriber =>
      if Js.truthyNum (sub_verified subscriber) then
        (mkHtmlResponse 200 successHtml, db)
      else
        (mkHtmlResponse 200 successHtml, markVerified now (sub_id subscriber) db)
  end.

End Verify.

(** ** routes/unsubscribe.ts *)

Module Unsubscribe.
Import Schema.
Section WithSecret.

Variable hmacSha256 : list byte -> list byte -> list byte.

Definition successHtml : Html :=
  mkHtml "Unsubscribed" "Unsubscribed"
    "You've been removed from AI News Weekly. Sorry to see you go!".

Definition errorHtml (msg : string) : Html :=
  mkHtml "Unsubscribe Error" "Error" msg.

(** [unsubscribeRoute.get('/')]; [email] and [token] are the query
    parameters, [HMAC_SECRET] comes from the environment.  The [catch]
    branch is reached when [validateHmacToken] rejects. *)
Definition get (HMAC_SECRET : string) (email token : option string)
    (db : D1Database) : HtmlResponse * D1Database :=
  if negb (Js.truthy email) || negb (Js.truthy token) then
    (mkHtmlResponse 400 (errorHtml "Invalid unsubscribe link."), db)
  else
  let normalizedEmail := Js.trim (Js.toLowerCase (default "" email)) in
  match Hmac.validateHmacToken hmacSha256 HMAC_SECRET normalizedEmail
          (default "" token) with
  | None =>
      (mkHtmlResponse 500 (errorHtml "An error occurred. Please try again."), db)
  | Some isValid =>
      if negb isValid then
        (mkHtmlResponse 403 (errorHtml "Invalid unsubscribe link."), db)
      else
        (mkHtmlResponse 200 successHtml, deactivate normalizedEmail db)
  end.

End WithSecret.
End Unsubscribe.

(** ** types.ts (archive types) and archive.ts *)

Module Archive.

(** [ReportMeta].  The record is read at two number types: [Js.number]
    for the object the handler holds, and [option Z] for the JSON
    document that goes to KV or into a reply, where a number is an
    integer or [null]. *)
Record ReportMetaOf (N : Type) : Type := mkMeta {
  id : string;
  date_range_start : string;
  date_range_end : string;
  generated_at : string;
  title : string;
  summary : string;
  r2_key : string;
  days : N;
  total_items : N
}.
Arguments mkMeta {N}.
Arguments id {N}.
Arguments date_range_start {N}.
Arguments date_range_end {N}.
Arguments generated_at {N}.
Arguments title {N}.
Arguments summary {N}.
Arguments r2_key {N}.
Arguments days {N}.
Arguments total_items {N}.

Record ArchiveIndexOf (N : Type) : Type := mkIndex {
  reports : list (ReportMetaOf N);
  updated_at : string
}.
Arguments mkIndex {N}.
Arguments reports {N}.
Arguments updated_at {N}.

Abbreviation ReportMeta := (ReportMetaOf Js.number).
Abbreviation ArchiveIndex := (ArchiveIndexOf Js.number).
Abbreviation ReportMetaJson := (ReportMetaOf (option Z)).
Abbreviation ArchiveIndexJson := (ArchiveIndexOf (option Z)).

(** [JSON.stringify] of a number: NaN and the infinities are written as
    [null]. *)
Definition stringifyNumber (n : Js.number) : option Z :=
  match n with
  | Js.JsNum z => Some z
  | Js.JsNaN | Js.JsInfinity _ | Js.JsNull => None
  end.

(** [JSON.parse] of a number or [null]. *)
Definition parseNumber (j : option Z) : Js.number :=
  match j with
  | Some z => Js.JsNum z
  | None => Js.JsNull
  end.

Definition mapMeta {M N} (f : M -> N) (r : ReportMetaOf M) : ReportMetaOf N :=
  mkMeta (id r) (date_range_start r) (date_range_end r) (generated_at r)
    (title r) (summary r) (r2_key r) (f (days r)) (f (total_items r)).

Definition mapIndex {M N} (f : M -> N) (ix : ArchiveIndexOf M) : ArchiveIndexOf N :=
  mkIndex (mapMeta f <$> reports ix) (updated_at ix).

(** [JSON.stringify(index)] and the reading of it back. *)
Definition stringify : ArchiveIndex -> ArchiveIndexJson := mapIndex stringifyNumber.
Definition parse : ArchiveIndexJson -> ArchiveIndex := mapIndex parseNumber.

(** The bindings of [Env] the archive routes use. *)
Record Env : Type := mkEnv {
  ADMIN_API_SECRET : string;
  ARCHIVE_KV : gmap string ArchiveIndexJson;
  ARCHIVE_R2 : gmap string string
}.

Definition ARCHIVE_INDEX_KEY : string := "archive-index".

Definition isAuthorized (authHeader : option string) (env : Env) : bool :=
  match authHeader with
  | None => false
  | Some h =>
      if negb (Js.startsWith "Bearer " h) then false
      else
        let token := Js.sliceFrom 7 h in
        String.eqb token (ADMIN_API_SECRET env)
  end.

(** [now] is [new Date().toISOString()]. *)
Definition getArchiveIndex (now : string) (kv : gmap string ArchiveIndexJson)
    : ArchiveIndex :=
  match kv !! ARCHIVE_INDEX_KEY with
  | None => mkIndex [] now
  | Some data => parse data
  end.

Definition saveArchiveIndex (now : string) (kv : gmap string ArchiveIndexJson)
    (index : ArchiveIndex) : gmap string ArchiveIndexJson :=
  let index := mkIndex (reports index) now in
  <[ARCHIVE_INDEX_KEY := stringify index]> kv.


(** The two replies of [archiveRoute.get('/:id')]: a JSON error, or the
    stored HTML as [text/html]. *)
Inductive ReportResponse : Type :=
| ReportJson (r : JsonResponse unit)
| ReportHtml (status : Z) (html : string).

(** [archiveRoute.get('/:id')] *)
Definition getReport (now : string) (id_ : string) (env : Env) : ReportResponse :=
  let index := getArchiveIndex now (ARCHIVE_KV env) in
  match Js.find (fun r => String.eqb (id r) id_) (reports index) with
  | None => ReportJson (jsonError "Report not found" 404)
  | Some report =>
      match ARCHIVE_R2 env !! r2_key report with
      | None => ReportJson (jsonError "Report content not found in storage" 404)
      | Some html => ReportHtml 200 html
      end
  end.

(** The request of [archiveRoute.post('/')]: its headers and its body
    text. *)
Record PostRequest : Type := mkPost {
  Authorization : option string;
  X_Report_Id : option string;
  X_Date_Start : option string;
  X_Date_End : option string;
  X_Generated_At : option string;
  X_Title : option string;
  X_Summary : option string;
  X_Days : option string;
  X_Total_Items : option string;
  text : string
}.

Definition missingHeaders : string :=
  "Missing required headers: X-Report-Id, X-Date-Start, X-Date-End, X-Generated-At, X-Title, X-Summary, X-Days, X-Total-Items".

Section WithCollation.

(** [a.localeCompare(b)]: negative, zero or positive. *)
Variable localeCompare : string -> string -> Z.

(** [(a, b) => b.date_range_end.localeCompare(a.date_range_end)] *)
Definition newestFirst {N} (a b : ReportMetaOf N) : Z :=
  localeCompare (date_range_end b) (date_range_end a).

(** [archiveRoute.post('/')] *)
Definition post (now : string) (req : PostRequest) (env : Env)
    : JsonResponse ReportMetaJson * Env :=
  if negb (isAuthorized (Authorization req) env) then
    (jsonError "Unauthorized" 401, env)
  else
  if negb (Js.truthy (X_Report_Id req)) || negb (Js.truthy (X_Date_Start req))
     || negb (Js.truthy (X_Date_End req)) || negb (Js.truthy (X_Generated_At req))
     || negb (Js.truthy (X_Title req)) || negb (Js.truthy (X_Summary req))
     || negb (Js.truthy (X_Days req)) || negb (Js.truthy (X_Total_Items req)) then
    (jsonError missingHeaders 400, env)
  else
  let reportId := default "" (X_Report_Id req) in
  let html := text req in
  if negb (Js.truthy (Some html)) || (Js.length (Js.trim html) =? 0) then
    (jsonError "Request body must contain HTML content" 400, env)
  else
  let r2Key := "reports/" +:+ reportId +:+ ".html" in
  let reportMeta : ReportMeta :=
    mkMeta reportId
      (default "" (X_Date_Start req))
      (default "" (X_Date_End req))
      (default "" (X_Generated_At req))
      (default "" (X_Title req))
      (default "" (X_Summary req))
      r2Key
      (Js.parseInt10 (default "" (X_Days req)))
      (Js.parseInt10 (default "" (X_Total_Items req))) in
  let r2 := <[r2Key := html]> (ARCHIVE_R2 env) in
  let index := getArchiveIndex now (ARCHIVE_KV env) in
  let existingIndex :=
    Js.findIndex (fun r => String.eqb (id r) reportId) (reports index) in
  let reports1 :=
    if 0 <=? existingIndex
    then <[Z.to_nat existingIndex := reportMeta]> (reports index)
    else reports index ++ [reportMeta] in
  let reports2 := Js.sort newestFirst reports1 in
  let kv := saveArchiveIndex now (ARCHIVE_KV env) (mkIndex reports2 (updated_at index)) in
  (mkJson (if 0 <=? existingIndex then 200 else 201)
     (mkApi true
        (Some (if 0 <=? existingIndex then "Report updated" else "Report uploaded"))
        (Some (mapMeta stringifyNumber reportMeta)) None),
   mkEnv (ADMIN_API_SECRET env) kv r2).

End WithCollation.

(** The body of [archiveRoute.patch('/:id')]. *)
Record PatchBody : Type := mkPatch {
  patch_title : option string;
  patch_summary : option string
}.

Definition setTitle (t : string) (r : ReportMeta) : ReportMeta :=
  mkMeta (id r) (date_range_start r) (date_range_end r) (generated_at r)
    t (summary r) (r2_key r) (days r) (total_items r).

Definition setSummary (s : string) (r : ReportMeta) : ReportMeta :=
  mkMeta (id r) (date_range_start r) (date_range_end r) (generated_at r)
    (title r) s (r2_key r) (days r) (total_items r).

(** [archiveRoute.patch('/:id')]; [body] is [None] when [c.req.json()]
    throws. *)
Definition patch (now : string) (authHeader : option string) (id_ : string)
    (body : option PatchBody) (env : Env) : JsonResponse ReportMetaJson * Env :=
  if negb (isAuthorized authHeader env) then
    (jsonError "Unauthorized" 401, env)
  else
  match body with
  | None => (jsonError "Failed to update report metadata" 500, env)
  | Some body =>
  if negb (Js.truthy (patch_title body)) && negb (Js.truthy (patch_summary body)) then
    (jsonError "Request body must contain at least one of: title, summary" 400, env)
  else
  let index := getArchiveIndex now (ARCHIVE_KV env) in
  let reportIndex := Js.findIndex (fun r => String.eqb (id r) id_) (reports index) in
  if reportIndex <? 0 then
    (jsonError "Report not found" 404, env)
  else
  let i := Z.to_nat reportIndex in
  let reports1 :=
    if Js.truthy (patch_title body)
    then alter (setTitle (default "" (patch_title body))) i (reports index)
    else reports index in
  let reports2 :=
    if Js.truthy (patch_summary body)
    then alter (setSummary (default "" (patch_summary body))) i reports1
    else reports1 in
  let kv := saveArchiveIndex now (ARCHIVE_KV env) (mkIndex reports2 (updated_at index)) in
  (mkJson 200
     (mkApi true (Some "Report metadata updated")
        (mapMeta stringifyNumber <$> reports2 !! i) None),
   mkEnv (ADMIN_API_SECRET env) kv (ARCHIVE_R2 env))
  end.

(** [archiveRoute.delete('/:id')] *)
Definition delete (now : string) (authHeader : option string) (id_ : string)
    (env : Env) : JsonResponse unit * Env :=
  if negb (isAuthorized authHeader env) then
    (jsonError "Unauthorized" 401, env)
  else
  let index := getArchiveIndex now (ARCHIVE_KV env) in
  let reportIndex := Js.findIndex (fun r => String.eqb (id r) id_) (reports index) in
  if reportIndex <? 0 then
    (jsonError "Report not found" 404, env)
  else
  let i := Z.to_nat reportIndex in
  let r2 :=
    match reports index !! i with
    | Some report => base.delete (r2_key report) (ARCHIVE_R2 env)
    | None => ARCHIVE_R2 env
    end in
  let kv := saveArchiveIndex now (ARCHIVE_KV env)
              (mkIndex (base.delete i (reports index)) (updated_at index)) in
  (jsonMessage "Report deleted", mkEnv (ADMIN_API_SECRET env) kv r2).

End Archive.

(** ** The platform's [crypto.subtle]

    HMAC-SHA256 as the platform computes it (SHA-256 of FIPS 180-4, HMAC of
    RFC 2104), on words kept below 2^32.  The handlers take the primitive
    as a parameter; this is the instance they run with. *)

Module Crypto.

Definition mask32 (x : N) : N := N.land x 0xffffffff.
Definition add32 (x y : N) : N := mask32 (x + y).
Definition rotr (n x : N) : N := N.lor (N.shiftr x n) (mask32 (N.shiftl x (32 - n))).
Definition not32 (x : N) : N := N.lxor x 0xffffffff.

Definition Ch (x y z : N) : N := N.lxor (N.land x y) (N.land (not32 x) z).
Definition Maj (x y z : N) : N :=
  N.lxor (N.lxor (N.land x y) (N.land x z)) (N.land y z).
Definition bigSigma0 (x : N) : N := N.lxor (N.lxor (rotr 2 x) (rotr 13 x)) (rotr 22 x).
Definition bigSigma1 (x : N) : N := N.lxor (N.lxor (rotr 6 x) (rotr 11 x)) (rotr 25 x).
Definition smallSigma0 (x : N) : N := N.lxor (N.lxor (rotr 7 x) (rotr 18 x)) (N.shiftr x 3).
Definition smallSigma1 (x : N) : N := N.lxor (N.lxor (rotr 17 x) (rotr 19 x)) (N.shiftr x 10).

(** The constants are what FIPS 180-4 says they are: the first 32 bits of
    the fractional parts of the cube roots of the first 64 primes, and of
    the square roots of the first 8. *)
Definition isPrime (p : nat) : bool :=
  forallb (fun d => negb (p mod d =? 0)%nat) (seq 2 (p - 2)).

Definition primes (n : nat) : list N :=
  N.of_nat <$> take n (List.filter isPrime (seq 2 400)).

(** The largest [r] below [2^bits] with [r^3 <= n]. *)
Fixpoint cubeRoot (bits : nat) (n r : N) : N :=
  match bits with
  | O => r
  | S b =>
      let r' := (r + N.shiftl 1 (N.of_nat b))%N in
      cubeRoot b n (if (r' * r' * r' <=? n)%N then r' else r)
  end.

Definition fracCubeRoot (p : N) : N := mask32 (cubeRoot 40 (N.shiftl p 96) 0).
Definition fracSquareRoot (p : N) : N := mask32 (N.sqrt (N.shiftl p 64)).

Definition K : list N := Eval vm_compute in fracCubeRoot <$> primes 64.

(** The eight working words. *)
Definition state : Type := (N * N * N * N * N * N * N * N)%type.

Definition H0 : state :=
  Eval vm_compute in
    match fracSquareRoot <$> primes 8 with
    | [a; b; c; d; e; f; g; h] => (a, b, c, d, e, f, g, h)
    | _ => (0, 0, 0, 0, 0, 0, 0, 0)%N
    end.

(** Padding: the bit 1, zeros up to 56 modulo 64 bytes, then the length in
    bits on 8 bytes, big-endian. *)
Definition bigEndian (width : nat) (x : N) : list N :=
  (fun i => N.land (N.shiftr x (8 * N.of_nat (width - 1 - i))) 0xff) <$> seq 0 width.

Definition pad (msg : list N) : list N :=
  let len := length msg in
  let zeros := ((119 - len mod 64) mod 64)%nat in
  msg ++ [0x80%N] ++ replicate zeros 0%N ++ bigEndian 8 (8 * N.of_nat len).

(** Four bytes to a word, big-endian. *)
Definition word (b3 b2 b1 b0 : N) : N :=
  N.lor (N.shiftl b3 24) (N.lor (N.shiftl b2 16) (N.lor (N.shiftl b1 8) b0)).

Fixpoint words (bytes : list N) : list N :=
  match bytes with
  | b3 :: b2 :: b1 :: b0 :: rest => word b3 b2 b1 b0 :: words rest
  | _ => []
  end.

(** The message schedule, latest word first: [n] more words after the
    sixteen of the block. *)
Fixpoint schedule (n : nat) (recent : list N) : list N :=
  match n with
  | O => recent
  | S n' =>
      let w i := nth i recent 0%N in
      let next :=
        add32 (add32 (smallSigma1 (w 1%nat)) (w 6%nat))
              (add32 (smallSigma0 (w 14%nat)) (w 15%nat)) in
      schedule n' (next :: recent)
  end.

Definition round (s : state) (kw : N * N) : state :=
  let '(a, b, c, d, e, f, g, h) := s in
  let t1 := add32 (add32 (add32 h (bigSigma1 e)) (add32 (Ch e f g) kw.1)) kw.2 in
  let t2 := add32 (bigSigma0 a) (Maj a b c) in
  (add32 t1 t2, a, b, c, add32 d t1, e, f, g).

Definition compress (s : state) (block : list N) : state :=
  let w := rev (schedule 48 (rev block)) in
  let '(a, b, c, d, e, f, g, h) := s in
  let '(a', b', c', d', e', f', g', h') := foldl round s (zip K w) in
  (add32 a a', add32 b b', add32 c c', add32 d d',
   add32 e e', add32 f f', add32 g g', add32 h h').

(** The blocks of sixteen words; [n] bounds their number. *)
Fixpoint blocks (n : nat) (ws : list N) : list (list N) :=
  match n, ws with
  | S n', _ :: _ => take 16 ws :: blocks n' (drop 16 ws)
  | _, _ => []
  end.

Definition digest (s : state) : list N :=
  let '(a, b, c, d, e, f, g, h) := s in
  bigEndian 4 a ++ bigEndian 4 b ++ bigEndian 4 c ++ bigEndian 4 d
  ++ bigEndian 4 e ++ bigEndian 4 f ++ bigEndian 4 g ++ bigEndian 4 h.

Definition sha256 (msg : list N) : list N :=
  let ws := words (pad msg) in
  digest (foldl compress H0 (blocks (length ws) ws)).

Definition hmac (key msg : list N) : list N :=
  let key := if (64 <? length key)%nat then sha256 key else key in
  let key := key ++ replicate (64 - length key) 0%N in
  let ipad := N.lxor 0x36 <$> key in
  let opad := N.lxor 0x5c <$> key in
  sha256 (opad ++ sha256 (ipad ++ msg)).

Definition toByte (n : N) : byte := byte_of_ascii (ascii_of_N n).

(** [crypto.subtle.sign('HMAC', key, message)] with SHA-256. *)
Definition hmacSha256 (key msg : list byte) : list byte :=
  toByte <$> hmac (Byte.to_N <$> key) (Byte.to_N <$> msg).

End Crypto.

(** ** Vocabulary of the statements *)

(** [email.toLowerCase().trim()], the normalisation both subscribe.ts and
    unsubscribe.ts apply. *)
Definition normalize (email : string) : string := Js.trim (Js.toLowerCase email).

(** The hexadecimal rendering of the HMAC-SHA256 of [message] under
    [secret]. *)
Definition hmacHex (hmacSha256 : list byte -> list byte -> list byte)
    (secret message : string) : string :=
  Js.join (Js.hex2 <$> hmacSha256 (Js.encode secret) (Js.encode message)).

(** A row with [active] set to [a]. *)
Definition withActive (a : Z) (r : Schema.Subscriber) : Schema.Subscriber :=
  Schema.mkSubscriber (Schema.sub_id r) (Schema.sub_email r) (Schema.sub_name r)
    (Schema.sub_verification_token r) (Schema.sub_verified r) a
    (Schema.sub_created_at r) (Schema.sub_verified_at r).

(** A request to subscribe is well formed when its email has the shape
    [EMAIL_REGEX] asks for and it carries a Turnstile token; the captcha
    passes when [validateTurnstile] says so. *)
Definition validShape (email : string) : Prop :=
  Js.test Subscribe.EMAIL_REGEX (normalize email) = true.

Definition captchaPasses (reply : Turnstile.FetchOutcome) : Prop :=
  Turnstile.ok (Turnstile.validateTurnstile reply) = true.

(** Under the comparator [cmp], [a] may stand before [b] in a sorted
    array. *)
Definition mayPrecede {A} (cmp : A -> A -> Z) (a b : A) : Prop := cmp a b <= 0.

(** The index document KV holds, and its reports ([[]] before the first
    save). *)
Definition storedIndex (env : Archive.Env) : option Archive.ArchiveIndexJson :=
  Archive.ARCHIVE_KV env !! Archive.ARCHIVE_INDEX_KEY.

Definition storedReports (env : Archive.Env) : list Archive.ReportMetaJson :=
  match storedIndex env with
  | Some ix => Archive.reports ix
  | None => []
  end.

(** The key a report body is stored under. *)
Definition r2KeyOf (reportId : string) : string := "reports/" +:+ reportId +:+ ".html".

(** The [ReportMeta] the upload handler builds from the headers. *)
Definition submittedMeta (req : Archive.PostRequest) : Archive.ReportMeta :=
  Archive.mkMeta
    (default "" (Archive.X_Report_Id req))
    (default "" (Archive.X_Date_Start req))
    (default "" (Archive.X_Date_End req))
    (default "" (Archive.X_Generated_At req))
    (default "" (Archive.X_Title req))
    (default "" (Archive.X_Summary req))
    (r2KeyOf (default "" (Archive.X_Report_Id req)))
    (Js.parseInt10 (default "" (Archive.X_Days req)))
    (Js.parseInt10 (default "" (Archive.X_Total_Items req))).

(** The same, as the JSON document carries it. *)
Definition submittedJson (req : Archive.PostRequest) : Archive.ReportMetaJson :=
  Archive.mapMeta Archive.stringifyNumber (submittedMeta req).

(** An upload passes the handler's checks: the caller is authorized, the
    eight headers are present and non-empty, the body is not blank. *)
Definition postAccepted (req : Archive.PostRequest) (env : Archive.Env) : bool :=
  Archive.isAuthorized (Archive.Authorization req) env
  && Js.truthy (Archive.X_Report_Id req) && Js.truthy (Archive.X_Date_Start req)
  && Js.truthy (Archive.X_Date_End req) && Js.truthy (Archive.X_Generated_At req)
  && Js.truthy (Archive.X_Title req) && Js.truthy (Archive.X_Summary req)
  && Js.truthy (Archive.X_Days req) && Js.truthy (Archive.X_Total_Items req)
  && Js.truthy (Some (Archive.text req))
  && negb (Js.length (Js.trim (Archive.text req)) =? 0).

(** The reports after the upload handler has replaced or appended its
    entry, before it sorts them. *)
Definition placed (m : Archive.ReportMetaJson) (old : list Archive.ReportMetaJson)
    : list Archive.ReportMetaJson :=
  let i := Js.findIndex (fun r => String.eqb (Archive.id r) (Archive.id m)) old in
  if 0 <=? i then <[Z.to_nat i := m]> old else old ++ [m].

(** The ids of an index are pairwise distinct. *)
Definition distinctIds (rs : list Archive.ReportMetaJson) : Prop :=
  NoDup (Archive.id <$> rs).



(** An entry after a metadata patch: title and summary are replaced by
    the fields of the body that are non-empty strings. *)
Definition patched (body : Archive.PatchBody) (r : Archive.ReportMetaJson)
    : Archive.ReportMetaJson :=
  Archive.mkMeta (Archive.id r) (Archive.date_range_start r)
    (Archive.date_range_end r) (Archive.generated_at r)
    (if Js.truthy (Archive.patch_title body)
     then default "" (Archive.patch_title body) else Archive.title r)
    (if Js.truthy (Archive.patch_summary body)
     then default "" (Archive.patch_summary body) else Archive.summary r)
    (Archive.r2_key r) (Archive.days r) (Archive.total_items r).

(** Code unit order as a three-way comparison.  On strings of ASCII
    digits and hyphens, such as ISO dates, this is the order
    [localeCompare] gives; it serves to run the archive handlers on
    concrete requests. *)
Definition codeUnitCompare (a b : string) : Z :=
  match String.compare a b with
  | Eq => 0
  | Lt => -1
  | Gt => 1
  end.

(** The archives the handlers can bring about, starting from an index
    never saved. *)
Inductive Reachable (localeCompare : string -> string -> Z) : Archive.Env -> Prop :=
| reach_fresh (secret : string) (r2 : gmap string string) :
    Reachable localeCompare (Archive.mkEnv secret ∅ r2)
| reach_post (now : string) (req : Archive.PostRequest) (env : Archive.Env) :
    Reachable localeCompare env ->
    Reachable localeCompare (Archive.post localeCompare now req env).2
| reach_patch (now : string) (authHeader : option string) (id_ : string)
    (body : option Archive.PatchBody) (env : Archive.Env) :
    Reachable localeCompare env ->
    Reachable localeCompare (Archive.patch now authHeader id_ body env).2
| reach_delete (now : string) (authHeader : option string) (id_ : string)
    (env : Archive.Env) :
    Reachable localeCompare env ->
    Reachable localeCompare (Archive.delete now authHeader id_ env).2.

(** The emails of the table are pairwise distinct (UNIQUE in
    schema.sql). *)
Definition uniqueEmails (db : Schema.D1Database) : Prop :=
  NoDup (Schema.sub_email <$> Schema.rows db).

(** ** Sample data *)

Definition exSecret : string := "s3cret".

Definition exToken : string := "0123456789abcdef0123456789abcdef".

(** A pending subscriber: unverified, holding a verification token. *)
Definition exPending : Schema.Subscriber :=
  Schema.mkSubscriber 1 "a@x.com" (Some "Alice") (Some exToken) 0 1
    (Schema.unixepoch 1000) None.

Definition exDb : Schema.D1Database := Schema.mkDb [exPending] 1.

Definition exSubscribe (email : string) (name : option string)
    : option Js.Json :=
  Some (Subscribe.mkRequest (Some email) name (Some "turnstile-response")).

Definition exPass : Turnstile.FetchOutcome := Turnstile.FetchJson true None.

(** An archive with nothing saved yet. *)
Definition exEnv : Archive.Env := Archive.mkEnv "admin-secret" ∅ ∅.

Definition exAuth : option string := Some "Bearer admin-secret".

Definition exBody : string := "<html><body>AI News</body></html>".

(** An upload of the report [reportId] whose range ends on [dateEnd]. *)
Definition exPut (reportId dateEnd days : string) : Archive.PostRequest :=
  Archive.mkPost exAuth (Some reportId) (Some "2025-11-25") (Some dateEnd)
    (Some "2025-12-05T08:12:20Z") (Some "AI News Digest") (Some "Weekly digest")
    (Some days) (Some "42") exBody.

(** The archive after the upload of report [r1]. *)
Definition exEnv1 : Archive.Env :=
  (Archive.post codeUnitCompare "2025-12-05T08:13:00Z"
     (exPut "r1" "2025-12-05" "7") exEnv).2.

(** The same archive with the content store emptied. *)
Definition exEnvNoBody : Archive.Env :=
  Archive.mkEnv (Archive.ADMIN_API_SECRET exEnv1) (Archive.ARCHIVE_KV exEnv1) ∅.

(** ** More of the platform: [encodeURIComponent] *)

Module Uri.

(** The characters [encodeURIComponent] leaves alone: letters, digits and
    [- _ . ! ~ * ' ( )]. *)
Definition isUnreserved (c : ascii) : bool :=
  let n := N_of_ascii c in
  ((65 <=? n) && (n <=? 90) || (97 <=? n) && (n <=? 122) || (48 <=? n) && (n <=? 57)
   || (n =? 45) || (n =? 95) || (n =? 46) || (n =? 33) || (n =? 126)
   || (n =? 42) || (n =? 39) || (n =? 40) || (n =? 41))%N.

Definition upperHexDigit (n : N) : ascii :=
  if (n <? 10)%N then ascii_of_N (48 + n) else ascii_of_N (55 + n).

(** [%XX] for one byte of the UTF-8 encoding. *)
Definition percent (b : byte) : string :=
  let n := Byte.to_N b in
  String "%" (String (upperHexDigit (n / 16)) (String (upperHexDigit (n mod 16)) EmptyString)).

Definition encodeUnit (c : ascii) : string :=
  if isUnreserved c then String c EmptyString
  else Js.join (percent <$> Js.encodeChar c).

(** [encodeURIComponent(s)] *)
Fixpoint encodeURIComponent (s : string) : string :=
  match s with
  | EmptyString => EmptyString
  | String c s' => encodeUnit c +:+ encodeURIComponent s'
  end.

End Uri.

(** ** lib/hmac.ts: the verification token *)

Module Token.

(** [generateVerificationToken()]; [bytes] is the [Uint8Array(16)] after
    [crypto.getRandomValues] has filled it. *)
Definition generateVerificationToken (bytes : list byte) : string :=
  Js.join (Js.hex2 <$> bytes).

End Token.

(** ** routes/admin.ts *)

Module Admin.
Import Schema.

(** The bindings of [Env] the admin routes use. *)
Record Env : Type := mkEnv {
  DB : D1Database;
  ADMIN_API_SECRET : string;
  HMAC_SECRET : string;
  WORKER_URL : string
}.

Record SubscriberWithUnsubscribe : Type := mkEntry {
  name : option string;
  email : string;
  active : bool;
  unsubscribeUrl : string
}.

(** The [data] of the stats reply. *)
Record Stats : Type := mkStats {
  stat_total : Z;
  stat_verified : Z;
  stat_active : Z
}.

(** [!secret || secret !== c.env.ADMIN_API_SECRET] *)
Definition unauthorized (secret : option string) (env : Env) : bool :=
  negb (Js.truthy secret) || negb (String.eqb (default "" secret) (ADMIN_API_SECRET env)).

(** The order of [created_at] values: integers ([unixepoch()]) before text
    ([CURRENT_TIMESTAMP]), each kind by its instant (a timestamp text of a
    four-digit year sorts as its instant does). *)
Definition compareCreated (a b : SqlTime) : Z :=
  match a, b with
  | unixepoch x, unixepoch y => x - y
  | unixepoch _, CURRENT_TIMESTAMP _ => -1
  | CURRENT_TIMESTAMP _, unixepoch _ => 1
  | CURRENT_TIMESTAMP x, CURRENT_TIMESTAMP y => x - y
  end.

Definition isListed (r : Subscriber) : bool :=
  (sub_verified r =? 1) && (sub_active r =? 1).

(** [SELECT name, email FROM subscribers WHERE verified = 1 AND active = 1
    ORDER BY created_at ASC]; rows created at the same instant, whose order
    SQL leaves open, are given in table order. *)
Definition selectListed (db : D1Database) : list Subscriber :=
  Js.sort (fun a b => compareCreated (sub_created_at a) (sub_created_at b))
    (List.filter isListed (rows db)).

(** [SELECT COUNT( * ) as count FROM subscribers WHERE ...] *)
Definition countWhere (cond : Subscriber -> bool) (db : D1Database) : Z :=
  Z.of_nat (length (List.filter cond (rows db))).

Section WithHmac.

Variable hmacSha256 : list byte -> list byte -> list byte.

(** The body of the [map] over the rows selected; [None] when
    [generateHmacToken] rejects. *)
Definition toEntry (env : Env) (sub : Subscriber) : option SubscriberWithUnsubscribe :=
  match Hmac.generateHmacToken hmacSha256 (HMAC_SECRET env) (sub_email sub) with
  | None => None
  | Some token =>
      let unsubscribeUrl :=
        WORKER_URL env +:+ "/unsubscribe?email="
        +:+ Uri.encodeURIComponent (sub_email sub) +:+ "&token=" +:+ token in
      Some (mkEntry (sub_name sub) (sub_email sub) true unsubscribeUrl)
  end.

(** [adminRoute.get('/subscribers')]; [secret] is the query parameter.
    [Promise.all] rejects when one of the entries does, and the [catch]
    branch answers 500. *)
Definition getSubscribers (secret : option string) (env : Env)
    : JsonResponse (list SubscriberWithUnsubscribe) :=
  if unauthorized secret env then jsonError "Unauthorized" 401
  else
    let results := selectListed (DB env) in
    match mapM (toEntry env) results with
    | None => jsonError "Failed to fetch subscribers" 500
    | Some subscribers => mkJson 200 (mkApi true None (Some subscribers) None)
    end.

End WithHmac.

(** [adminRoute.get('/stats')] *)
Definition getStats (secret : option string) (env : Env) : JsonResponse Stats :=
  if unauthorized secret env then jsonError "Unauthorized" 401
  else
    let total := countWhere (fun _ => true) (DB env) in
    let verified := countWhere (fun r => sub_verified r =? 1) (DB env) in
    let active := countWhere isListed (DB env) in
    mkJson 200 (mkApi true None (Some (mkStats total verified active)) None).

End Admin.

(** ** Vocabulary of the further statements *)

(** Every code unit of [s] satisfies [p]. *)
Fixpoint allChars (p : ascii -> bool) (s : string) : bool :=
  match s with
  | EmptyString => true
  | String c s' => p c && allChars p s'
  end.

(** A digit or one of [a]..[f]. *)
Definition isLowerHex (c : ascii) : bool :=
  let n := N_of_ascii c in
  ((48 <=? n) && (n <=? 57) || (97 <=? n) && (n <=? 102))%N.

(** Reading back the two characters [Js.hex2] writes; used to show that
    the rendering loses nothing. *)
Definition hexValue (c : ascii) : N :=
  let n := N_of_ascii c in
  if (n <? 58)%N then (n - 48)%N else (n - 87)%N.

Fixpoint unhex (s : string) : list byte :=
  match s with
  | String hi (String lo rest) =>
      Crypto.toByte (16 * hexValue hi + hexValue lo) :: unhex rest
  | _ => []
  end.

(** One request to the subscription routes. *)
Inductive SubscriberCall : Type :=
| CallSubscribe (now : Z) (reply : Turnstile.FetchOutcome)
    (body : option Js.Json)
| CallVerify (now : Z) (token : option string)
| CallUnsubscribe (email token : option string).

(** The table after a request, and after a sequence of them. *)
Definition runCall (hmacSha256 : list byte -> list byte -> list byte)
    (HMAC_SECRET : string) (db : Schema.D1Database) (call : SubscriberCall)
    : Schema.D1Database :=
  match call with
  | CallSubscribe now reply body => (Subscribe.post now reply body db).2
  | CallVerify now token => (Verify.get now token db).2
  | CallUnsubscribe email token =>
      (Unsubscribe.get hmacSha256 HMAC_SECRET email token db).2
  end.

Definition runCalls (hmacSha256 : list byte -> list byte -> list byte)
    (HMAC_SECRET : string) (db : Schema.D1Database) (calls : list SubscriberCall)
    : Schema.D1Database :=
  foldl (runCall hmacSha256 HMAC_SECRET) db calls.

(** What the routes keep true of a stored name: absent, or non-empty and
    at most 100 code units long. *)
Definition nameOk (name : option string) : Prop :=
  match name with
  | None => True
  | Some n => n <> "" /\ (String.length n <= 100)%nat
  end.

(** What the routes keep true of a row: both flags are 0 or 1, the email
    is in normal form and has the shape [EMAIL_REGEX] asks for, the name is
    as above. *)
Definition rowOk (r : Schema.Subscriber) : Prop :=
  (Schema.sub_verified r = 0 \/ Schema.sub_verified r = 1) /\
  (Schema.sub_active r = 0 \/ Schema.sub_active r = 1) /\
  normalize (Schema.sub_email r) = Schema.sub_email r /\
  Js.test Subscribe.EMAIL_REGEX (Schema.sub_email r) = true /\
  nameOk (Schema.sub_name r).

(** And of the table: ids and emails are pairwise distinct, no id exceeds
    the AUTOINCREMENT counter, every row is as above. *)
Definition dbOk (db : Schema.D1Database) : Prop :=
  NoDup (Schema.sub_id <$> Schema.rows db) /\
  uniqueEmails db /\
  Forall (fun r => Schema.sub_id r <= Schema.sqlite_sequence db) (Schema.rows db) /\
  Forall rowOk (Schema.rows db).

(** The empty table. *)
Definition emptyDb : Schema.D1Database := Schema.mkDb [] 0.

(** The archive handlers keep this true of the stores: ids are distinct,
    the index is sorted, every entry's key is derived from its id and has
    a body in the content store. *)
Definition archiveOk (localeCompare : string -> string -> Z) (env : Archive.Env) : Prop :=
  distinctIds (storedReports env) /\
  StronglySorted (mayPrecede (Archive.newestFirst localeCompare)) (storedReports env) /\
  Forall (fun r => Archive.r2_key r = r2KeyOf (Archive.id r)
                   /\ is_Some (Archive.ARCHIVE_R2 env !! Archive.r2_key r))
    (storedReports env).

(** [r'] is [r], or [r] marked verified at [now]: in both cases id, email,
    name, [active] and [created_at] are those of [r]. *)
Definition sameButVerification (now : Z) (r r' : Schema.Subscriber) : Prop :=
  Schema.sub_id r' = Schema.sub_id r /\ Schema.sub_email r' = Schema.sub_email r /\
  Schema.sub_name r' = Schema.sub_name r /\ Schema.sub_active r' = Schema.sub_active r /\
  Schema.sub_created_at r' = Schema.sub_created_at r /\
  (r' = r \/ Schema.sub_verified r' = 1 /\ Schema.sub_verification_token r' = None
             /\ Schema.sub_verified_at r' = Some (Schema.unixepoch now)).

(** * run.sh: the arguments of the manual runner

    [./run.sh [days] [--send]].  The script starts from [DAYS=2] and
    [SEND_NEWSLETTER=false] and walks over its arguments in order:
    [--send] sets the flag; an argument matching the glob [*[0-9]*] is
    taken as the number of days when it also matches [^[0-9]+$]; any other
    argument is skipped.  [[0-9]] is read as the ten ASCII digits. *)

Module RunSh.

Record Options : Type := mkOptions {
  DAYS : string;
  SEND_NEWSLETTER : bool
}.

Definition isDigit (c : ascii) : bool :=
  match Js.digitValue c with Some _ => true | None => false end.

(** The glob [*[0-9]*]: some character is a digit. *)
Fixpoint hasDigit (s : string) : bool :=
  match s with
  | EmptyString => false
  | String c s' => isDigit c || hasDigit s'
  end.

Fixpoint digitsOnly (s : string) : bool :=
  match s with
  | EmptyString => true
  | String c s' => isDigit c && digitsOnly s'
  end.

(** The regular expression [^[0-9]+$]. *)
Definition isNumber (s : string) : bool :=
  match s with
  | EmptyString => false
  | String _ _ => digitsOnly s
  end.

(** One round of the [for arg in "$@"] loop. *)
Definition step (o : Options) (arg : string) : Options :=
  if String.eqb arg "--send" then mkOptions (DAYS o) true
  else if hasDigit arg
       then (if isNumber arg then mkOptions arg (SEND_NEWSLETTER o) else o)
       else o.

Definition parseArgs (args : list string) : Options :=
  foldl step (mkOptions "2" false) args.

(** The external commands of the script, in the order it starts them:
    [cd] to the script's directory (line 8), the report generator with
    the number of days in its prompt (line 35), and the newsletter script
    (lines 54-60), which gets [--api-url] and [--api-secret] when
    [AI_NEWS_API_SECRET] is set and not empty, and neither otherwise. *)
Inductive Command : Type :=
| Cd
| Claude (days : string)
| SendNewsletter (apiSecret : option string).

#[export] Instance Command_eq_dec : EqDecision Command.
Proof. solve_decision. Defined.

(** [[ -n "$AI_NEWS_API_SECRET" ]]: an unset variable expands to the
    empty string. *)
Definition apiSecretArg (AI_NEWS_API_SECRET : option string) : option string :=
  match AI_NEWS_API_SECRET with
  | Some (String c s) => Some (String c s)
  | _ => None
  end.

(** One run of the script: the external commands it starts.  [status]
    is the exit status each command would return.  Under [set -e]
    (line 7) a command that returns a status other than zero ends the
    script there; the tests of [if] and [case] do not.  The [echo] lines
    and the check for [reports/latest.html] start no command and are
    left out. *)
Definition run (status : Command -> Z) (AI_NEWS_API_SECRET : option string)
    (args : list string) : list Command :=
  if negb (status Cd =? 0) then [Cd]
  else
    let o := parseArgs args in
    if negb (status (Claude (DAYS o)) =? 0) then [Cd; Claude (DAYS o)]
    else if SEND_NEWSLETTER o
         then [Cd; Claude (DAYS o); SendNewsletter (apiSecretArg AI_NEWS_API_SECRET)]
         else [Cd; Claude (DAYS o)].

(** Whether a run reaches phase 2 and starts the newsletter script. *)
Definition sendsNewsletter (status : Command -> Z) (AI_NEWS_API_SECRET : option string)
    (args : list string) : bool :=
  bool_decide (SendNewsletter (apiSecretArg AI_NEWS_API_SECRET)
                 ∈ run status AI_NEWS_API_SECRET args).

End RunSh.

(** ** More sample data *)

(** Sixteen bytes as [crypto.getRandomValues] may leave them. *)
Definition exBytes : list byte :=
  [x00; x1f; xa3; x07; xff; x10; x9c; x42; x5b; xe0; x01; x77; xd4; x3a; x88; xc6].

(** A subscriber who is verified and active. *)
Definition exVerified : Schema.Subscriber :=
  Schema.mkSubscriber 2 "b@y.org" None None 1 1
    (Schema.unixepoch 1500) (Some (Schema.unixepoch 1600)).

Definition exAdminEnv : Admin.Env :=
  Admin.mkEnv (Schema.mkDb [exPending; exVerified] 2) "admin-secret" exSecret
    "https://signup.example".

(** Three requests, one to each subscription route. *)
Definition exCalls : list SubscriberCall :=
  [CallSubscribe 2000 exPass (exSubscribe "New@Reader.org" None);
   CallVerify 2500 (Some exToken);
   CallUnsubscribe (Some "a@x.com") (Some "not-a-token")].

(** ** Vocabulary for the numeric headers *)






(** * Properties *)

(** ** Facts about the built-ins *)

Lemma truthy_Some (s : string) : Js.truthy (Some s) = true <-> s <> "".
Proof.
  unfold Js.truthy. rewrite negb_true_iff. split.
  - intros H ->. discriminate.
  - intros H. apply String.eqb_neq. exact H.
Qed.

Lemma truthy_inv (x : option string) :
  Js.truthy x = true -> exists s, x = Some s /\ s <> "".
Proof.
  destruct x as [s|]; [|discriminate].
  intros H. exists s. split; [reflexivity|]. by apply truthy_Some.
Qed.

Lemma charCodeAt_head (c : ascii) (s : string) :
  Js.charCodeAt (String c s) 0 = Z.of_N (N_of_ascii c).
Proof. reflexivity. Qed.

Lemma charCodeAt_tail (c : ascii) (s : string) (i : nat) :
  Js.charCodeAt (String c s) (S i) = Js.charCodeAt s i.
Proof. reflexivity. Qed.

Lemma N_of_ascii_inj (a b : ascii) : N_of_ascii a = N_of_ascii b -> a = b.
Proof.
  intros H. rewrite <- (ascii_N_embedding a), <- (ascii_N_embedding b).
  by rewrite H.
Qed.

(** Two strings of one length with the same code unit at every index are
    the same string. *)
Lemma string_ext (s t : string) :
  String.length s = String.length t ->
  (forall k, (k < String.length s)%nat -> Js.charCodeAt s k = Js.charCodeAt t k) ->
  s = t.
Proof.
  revert t. induction s as [|c s IH]; intros [|d t] Hlen Hk; simpl in Hlen;
    try discriminate; [reflexivity|].
  f_equal.
  - specialize (Hk 0%nat ltac:(simpl; lia)).
    rewrite !charCodeAt_head in Hk. apply N_of_ascii_inj. lia.
  - apply IH; [lia|]. intros k Hlt.
    specialize (Hk (S k) ltac:(simpl; lia)). by rewrite !charCodeAt_tail in Hk.
Qed.

Lemma charCodeAt_nonneg (s : string) (i : nat) : 0 <= Js.charCodeAt s i.
Proof. unfold Js.charCodeAt. destruct (String.get i s); lia. Qed.

(** ** lib/hmac.ts: the comparison loop *)

Section HmacFacts.

Variable hmacSha256 : list byte -> list byte -> list byte.

(** The accumulator ends at 0 exactly when it started at 0 and every
    index visited carried equal code units. *)
Lemma compareLoop_zero (e t : string) (n i : nat) (acc : Z) :
  Hmac.compareLoop e t n i acc = 0 <->
  acc = 0 /\ forall k, (i <= k < i + n)%nat -> Js.charCodeAt e k = Js.charCodeAt t k.
Proof.
  revert i acc. induction n as [|n IH]; intros i acc; simpl.
  - split; [intros ->; split; [reflexivity|intros; lia]|by intros [-> _]].
  - rewrite IH, Z.lor_eq_0_iff, Z.lxor_eq_0_iff. split.
    + intros [[-> Hi] Hk]. split; [reflexivity|]. intros k Hr.
      destruct (decide (k = i)) as [->|Hne]; [exact Hi|]. apply Hk. lia.
    + intros [-> Hk]. repeat split.
      * apply Hk. lia.
      * intros k Hr. apply Hk. lia.
Qed.

(** The length check and the loop together decide equality with the
    expected token. *)
Lemma compare_decides (e token : string) :
  (if negb (Js.length e =? Js.length token) then false
   else Hmac.compareLoop e token (String.length e) 0 0 =? 0)
  = bool_decide (token = e).
Proof.
  unfold Js.length.
  destruct (Z.eqb_spec (Z.of_nat (String.length e)) (Z.of_nat (String.length token)))
    as [Hlen|Hlen]; simpl.
  - apply eq_true_iff_eq. rewrite Z.eqb_eq, compareLoop_zero, bool_decide_eq_true. split.
    + intros [_ Hk]. symmetry. apply string_ext; [lia|].
      intros k Hlt. apply Hk. lia.
    + intros ->. split; [reflexivity|]. intros; reflexivity.
  - symmetry. apply bool_decide_eq_false. intros ->. contradiction.
Qed.

Lemma encode_nil (s : string) : Js.encode s = [] <-> s = "".
Proof.
  destruct s as [|c s]; [done|]. split; [|discriminate].
  cbn [Js.encode]. unfold Js.encodeChar. by destruct (_ <? _)%N.
Qed.

(** Signing fails exactly under the empty secret; otherwise the token is
    the hexadecimal HMAC of the lower-cased email. *)
Lemma generateHmacToken_empty (email : string) :
  Hmac.generateHmacToken hmacSha256 "" email = None.
Proof. reflexivity. Qed.

Lemma generateHmacToken_Some (secret email : string) :
  secret <> "" ->
  Hmac.generateHmacToken hmacSha256 secret email
  = Some (hmacHex hmacSha256 secret (Js.toLowerCase email)).
Proof.
  intros Hs. unfold Hmac.generateHmacToken, hmacHex, Hmac.importKey.
  destruct (Js.encode secret) eqn:He; [|reflexivity].
  by apply encode_nil in He.
Qed.

(** [validateHmacToken] accepts exactly the token [generateHmacToken]
    makes. *)
Lemma validateHmacToken_spec (secret email token : string) :
  secret <> "" ->
  Hmac.validateHmacToken hmacSha256 secret email token
  = Some (bool_decide (token = hmacHex hmacSha256 secret (Js.toLowerCase email))).
Proof.
  intros Hs. unfold Hmac.validateHmacToken. rewrite generateHmacToken_Some by assumption.
  rewrite <- compare_decides.
  by destruct (negb _).
Qed.

Lemma validateHmacToken_empty (email token : string) :
  Hmac.validateHmacToken hmacSha256 "" email token = None.
Proof. reflexivity. Qed.

End HmacFacts.

(** ** Normalising an email *)

Lemma lowerChar_idem (c : ascii) : Js.lowerChar (Js.lowerChar c) = Js.lowerChar c.
Proof. destruct c as [[] [] [] [] [] [] [] []]; reflexivity. Qed.

Lemma isWhiteSpace_lowerChar (c : ascii) :
  Js.isWhiteSpace (Js.lowerChar c) = Js.isWhiteSpace c.
Proof. destruct c as [[] [] [] [] [] [] [] []]; reflexivity. Qed.

Lemma toLowerCase_idem (s : string) :
  Js.toLowerCase (Js.toLowerCase s) = Js.toLowerCase s.
Proof.
  unfold Js.toLowerCase.
  induction s as [|c s IH]; cbn [Js.mapString]; [reflexivity|].
  rewrite lowerChar_idem. f_equal. exact IH.
Qed.

Lemma trimStart_toLowerCase (s : string) :
  Js.trimStart (Js.toLowerCase s) = Js.toLowerCase (Js.trimStart s).
Proof.
  unfold Js.toLowerCase.
  induction s as [|c s IH]; cbn [Js.mapString Js.trimStart]; [reflexivity|].
  rewrite isWhiteSpace_lowerChar. destruct (Js.isWhiteSpace c); [exact IH|reflexivity].
Qed.

Lemma trimEnd_toLowerCase (s : string) :
  Js.trimEnd (Js.toLowerCase s) = Js.toLowerCase (Js.trimEnd s).
Proof.
  unfold Js.toLowerCase.
  induction s as [|c s IH]; cbn [Js.mapString Js.trimEnd]; [reflexivity|].
  rewrite IH, isWhiteSpace_lowerChar.
  destruct (Js.trimEnd s); cbn [Js.mapString]; [|reflexivity].
  destruct (Js.isWhiteSpace c); reflexivity.
Qed.

(** Lower-casing a normalised email again, as [generateHmacToken] does,
    changes nothing. *)
Lemma toLowerCase_normalize (email : string) :
  Js.toLowerCase (normalize email) = normalize email.
Proof.
  unfold normalize, Js.trim.
  by rewrite <- trimEnd_toLowerCase, <- trimStart_toLowerCase, toLowerCase_idem.
Qed.

(** The hexadecimal rendering of a signature has two characters per
    byte. *)
Lemma length_join_hex2 (bs : list byte) :
  String.length (Js.join (Js.hex2 <$> bs)) = (2 * length bs)%nat.
Proof.
  induction bs as [|b bs IH]; [reflexivity|].
  rewrite fmap_cons. cbn [Js.join].
  change (Js.hex2 b +:+ Js.join (Js.hex2 <$> bs))
    with (String (Js.hexDigit (Byte.to_N b / 16))
            (String (Js.hexDigit (Byte.to_N b mod 16)) (Js.join (Js.hex2 <$> bs)))).
  cbn [String.length length]. rewrite IH. lia.
Qed.

(** ** The subscribers table *)

Section SchemaFacts.
Import Schema.


Lemma find_None_iff {A} (p : A -> bool) (l : list A) :
  List.find p l = None <-> forall x, x ∈ l -> p x = false.
Proof.
  induction l as [|y l IH]; simpl.
  - split; [intros _ x Hx; by apply elem_of_nil in Hx|reflexivity].
  - destruct (p y) eqn:Hy.
    + split; [discriminate|]. intros H. specialize (H y ltac:(left)). congruence.
    + rewrite IH. split.
      * intros H x [->|Hx]%elem_of_cons; auto.
      * intros H x Hx. apply H. by right.
Qed.

Lemma find_Some_elem {A} (p : A -> bool) (l : list A) (x : A) :
  List.find p l = Some x -> x ∈ l /\ p x = true.
Proof.
  induction l as [|y l IH]; simpl; [discriminate|].
  destruct (p y) eqn:Hy.
  - intros [= ->]. split; [by left|exact Hy].
  - intros H. destruct (IH H) as [? ?]. split; [by right|assumption].
Qed.

(** When one element at most satisfies [p], [find] returns it. *)
Lemma find_unique {A} (p : A -> bool) (l : list A) (x : A) :
  x ∈ l -> p x = true -> (forall y, y ∈ l -> p y = true -> y = x) ->
  List.find p l = Some x.
Proof.
  intros Hx Hp Huniq. destruct (List.find p l) as [y|] eqn:Hf.
  - apply find_Some_elem in Hf as [Hy Hpy]. f_equal. by apply Huniq.
  - rewrite find_None_iff in Hf. specialize (Hf x Hx). congruence.
Qed.

Lemma find_app_None {A} (p : A -> bool) (l : list A) (x : A) :
  List.find p l = None -> List.find p (l ++ [x]) = if p x then Some x else None.
Proof.
  induction l as [|y l IH]; simpl; [reflexivity|].
  destruct (p y); [discriminate|exact IH].
Qed.

(** An update that keeps whatever [p] looks at moves [find] along with
    it. *)
Lemma find_fmap_stable {A} (p : A -> bool) (g : A -> A) (l : list A) :
  (forall x, p (g x) = p x) ->
  List.find p (g <$> l) = g <$> List.find p l.
Proof.
  intros Hg. induction l as [|y l IH]; [reflexivity|].
  rewrite fmap_cons. simpl. rewrite Hg. destruct (p y); [reflexivity|exact IH].
Qed.

Lemma fmap_eq_of_NoDup {A B} (f : A -> B) (l : list A) (x y : A) :
  NoDup (f <$> l) -> x ∈ l -> y ∈ l -> f x = f y -> x = y.
Proof.
  intros Hnd [i Hi]%list_elem_of_lookup [j Hj]%list_elem_of_lookup Hf.
  assert (i = j) as ->; [|congruence].
  eapply (NoDup_lookup (f <$> l) i j (f x)); [exact Hnd| |].
  - by rewrite list_lookup_fmap, Hi.
  - by rewrite list_lookup_fmap, Hj, Hf.
Qed.


Lemma firstByEmail_updateWhere (e : string) (cond : Subscriber -> bool)
    (set : Subscriber -> Subscriber) (db : D1Database) :
  (forall r, sub_email (set r) = sub_email r) ->
  firstByEmail e (updateWhere cond set db)
  = (fun r => if cond r then set r else r) <$> firstByEmail e db.
Proof.
  intros Hset. unfold firstByEmail, updateWhere. simpl.
  apply (find_fmap_stable (fun r => String.eqb (sub_email r) e)).
  intros r. destruct (cond r); [by rewrite Hset|reflexivity].
Qed.

End SchemaFacts.

(** ** routes/unsubscribe.ts *)

Section UnsubscribeFacts.
Import Schema.

Variable hmacSha256 : list byte -> list byte -> list byte.

(** HMAC-SHA256 signatures are 32 bytes long. *)
Hypothesis hmacSha256_length :
  forall key msg : list byte, length (hmacSha256 key msg) = 32%nat.

Lemma generateHmacToken_normalize (secret email : string) :
  secret <> "" ->
  Hmac.generateHmacToken hmacSha256 secret (normalize email)
  = Some (hmacHex hmacSha256 secret (normalize email)).
Proof.
  intros Hs. by rewrite generateHmacToken_Some, toLowerCase_normalize.
Qed.

Lemma hmacHex_nonempty (secret message : string) :
  hmacHex hmacSha256 secret message <> "".
Proof.
  intros H. apply (f_equal String.length) in H.
  unfold hmacHex in H. rewrite length_join_hex2, hmacSha256_length in H.
  discriminate.
Qed.

(** What the handler does once both query parameters are present: under
    a secret that is not empty, and under the empty one. *)
Lemma unsubscribe_get_present (secret email token : string) (db : D1Database) :
  secret <> "" -> email <> "" -> token <> "" ->
  Unsubscribe.get hmacSha256 secret (Some email) (Some token) db
  = if bool_decide (token = hmacHex hmacSha256 secret (normalize email))
    then (mkHtmlResponse 200 Unsubscribe.successHtml, deactivate (normalize email) db)
    else (mkHtmlResponse 403 (Unsubscribe.errorHtml "Invalid unsubscribe link."), db).
Proof.
  intros Hs He Ht. unfold Unsubscribe.get.
  rewrite (proj2 (truthy_Some email) He), (proj2 (truthy_Some token) Ht).
  cbn [negb orb default from_option id]. fold (normalize email).
  rewrite validateHmacToken_spec, toLowerCase_normalize by assumption.
  by destruct (bool_decide _).
Qed.






End UnsubscribeFacts.

(** ** routes/verify.ts *)

Section VerifyFacts.
Import Schema.

Lemma verify_get_bad_token (now : Z) (token : option string) (db : D1Database) :
  Js.truthy token = false \/ Js.length (default "" token) <> 32 ->
  Verify.get now token db
  = (mkHtmlResponse 400 (Verify.errorHtml "Invalid or missing verification token."), db).
Proof.
  unfold Verify.get. intros [->|Hlen]; [reflexivity|].
  apply Z.eqb_neq in Hlen. rewrite Hlen. by rewrite orb_true_r.
Qed.

Lemma verify_get_good_token (now : Z) (t : string) (db : D1Database) :
  Js.length t = 32 ->
  Verify.get now (Some t) db
  = match firstByToken t db with
    | None =>
        (mkHtmlResponse 404 (Verify.errorHtml "This link is invalid or has expired."), db)
    | Some subscriber =>
        if Js.truthyNum (sub_verified subscriber) then
          (mkHtmlResponse 200 Verify.successHtml, db)
        else
          (mkHtmlResponse 200 Verify.successHtml, markVerified now (sub_id subscriber) db)
    end.
Proof.
  intros Hlen. unfold Verify.get. simpl default. rewrite Hlen.
  assert (Js.truthy (Some t) = true) as ->; [|reflexivity].
  apply truthy_Some. intros ->. discriminate.
Qed.

(** A successful reply to a token means the token has 32 code units. *)
Lemma verify_success_length (now : Z) (t : string) (db : D1Database) :
  html_status (Verify.get now (Some t) db).1 = 200 -> Js.length t = 32.
Proof.
  intros H. destruct (decide (Js.length t = 32)) as [|Hne]; [assumption|].
  rewrite verify_get_bad_token in H by (by right). discriminate.
Qed.

(** After [markVerified] no row touched by it holds a token. *)
Lemma tokenIs_markVerified (now : Z) (t : string) (r : Subscriber) (db : D1Database) :
  (forall r', r' ∈ rows db -> tokenIs t r' = true -> sub_id r' = sub_id r) ->
  firstByToken t (markVerified now (sub_id r) db) = None.
Proof.
  intros Honly. unfold firstByToken. apply find_None_iff.
  intros x Hx. unfold markVerified, updateWhere in Hx. simpl in Hx.
  apply list_elem_of_fmap in Hx as [y [-> Hy]].
  destruct (idIs (sub_id r) y) eqn:Hid; [reflexivity|].
  destruct (tokenIs t y) eqn:Ht; [|reflexivity].
  apply Honly in Ht; [|assumption].
  unfold idIs in Hid. apply Z.eqb_neq in Hid. contradiction.
Qed.

(** C1, as amended: for every unverified row that is the only holder of
    the token [t], once Verify(t) has succeeded the row is verified, its
    token is cleared and [verified_at] is set, and a second Verify(t) fails
    with 404 (not found) and changes nothing: the token is single-use. *)
Theorem verify_token_single_use
    (now now' : Z) (t : string) (r : Subscriber) (db : D1Database) :
  r ∈ rows db ->
  sub_verification_token r = Some t ->
  sub_verified r = 0 ->
  (forall r', r' ∈ rows db -> sub_verification_token r' = Some t -> r' = r) ->
  html_status (Verify.get now (Some t) db).1 = 200 ->
  let db1 := (Verify.get now (Some t) db).2 in
  mkSubscriber (sub_id r) (sub_email r) (sub_name r) None 1 (sub_active r)
    (sub_created_at r) (Some (unixepoch now)) ∈ rows db1 /\
  Verify.get now' (Some t) db1
  = (mkHtmlResponse 404 (Verify.errorHtml "This link is invalid or has expired."), db1).
Proof.
  intros Hin Htok Hunv Honly Hok db1.
  pose proof (verify_success_length _ _ _ Hok) as Hlen.
  assert (Hp : tokenIs t r = true).
  { unfold tokenIs. rewrite Htok. apply String.eqb_refl. }
  assert (Honly' : forall r', r' ∈ rows db -> tokenIs t r' = true -> r' = r).
  { intros r' Hr' Ht. apply Honly; [assumption|].
    unfold tokenIs in Ht. destruct (sub_verification_token r') as [t'|]; [|discriminate].
    apply String.eqb_eq in Ht. by subst. }
  assert (Hfind : firstByToken t db = Some r) by (by apply find_unique).
  assert (Hdb1 : db1 = markVerified now (sub_id r) db).
  { subst db1. rewrite verify_get_good_token, Hfind, Hunv by assumption. reflexivity. }
  split.
  - rewrite Hdb1. unfold markVerified, updateWhere. simpl.
    apply list_elem_of_fmap. exists r. split; [|assumption].
    unfold idIs. by rewrite Z.eqb_refl.
  - rewrite verify_get_good_token by assumption.
    rewrite Hdb1 at 1. rewrite tokenIs_markVerified; [reflexivity|].
    intros r' Hr' Ht. by rewrite (Honly' r' Hr' Ht).
Qed.

End VerifyFacts.

(** ** routes/subscribe.ts *)

Section SubscribeFacts.
Import Schema.

Lemma validShape_nonempty (email : string) : validShape email -> email <> "".
Proof. intros H ->. discriminate. Qed.

(** A body of the type [SubscribeRequest] hands its fields to the
    handler. *)
Lemma post_typed (now : Z) (reply : Turnstile.FetchOutcome)
    (email name token : option string) (db : D1Database) :
  Subscribe.post now reply (Some (Subscribe.mkRequest email name token)) db
  = Subscribe.handle now reply (Js.JString <$> email) (Js.JString <$> name)
      (Js.JString <$> token) db.
Proof.
  unfold Subscribe.post, Subscribe.mkRequest, Js.prop.
  by destruct email, name, token.
Qed.

(** A field that is a non-empty string passes the presence check. *)
Lemma field_present (v : option Js.Json) :
  negb (Js.truthyValue v) || negb (Js.isString v) = false <->
  exists x, v = Some (Js.JString x) /\ x <> "".
Proof.
  split.
  - destruct v as [[| | |x| |]|]; simpl; try discriminate;
      try (rewrite orb_true_r; discriminate).
    rewrite orb_false_r, negb_involutive. intros H%String.eqb_neq.
    by exists x.
  - intros (x & -> & Hx). simpl. apply String.eqb_neq in Hx. by rewrite Hx.
Qed.

(** Past validation and the captcha, the handler is a case analysis on
    the row the email selects. *)
Lemma handle_valid (now : Z) (reply : Turnstile.FetchOutcome)
    (email token : string) (name : option string) (db : D1Database) :
  validShape email -> token <> "" -> captchaPasses reply ->
  Subscribe.handle now reply (Some (Js.JString email)) (Js.JString <$> name)
    (Some (Js.JString token)) db
  = match firstByEmail (normalize email) db with
    | Some existing =>
        if Js.truthyNum (sub_verified existing) && Js.truthyNum (sub_active existing) then
          (jsonMessage "You are already subscribed!", db)
        else if Js.truthyNum (sub_verified existing)
                && negb (Js.truthyNum (sub_active existing)) then
          (jsonMessage "Welcome back! Subscription reactivated.",
           reactivate (sub_id existing) db)
        else
          (jsonMessage Subscribe.subscribed,
           autoVerify now (Subscribe.sanitizeName name) (sub_id existing) db)
    | None =>
        match insertVerified now (normalize email) (Subscribe.sanitizeName name) db with
        | Some db' => (jsonMessage Subscribe.subscribed, db')
        | None => (jsonError "An unexpected error occurred." 500, db)
        end
    end.
Proof.
  intros Hshape Htok Hcap. unfold Subscribe.handle.
  rewrite (proj2 (field_present (Some (Js.JString email))))
    by (exists email; split; [reflexivity|by apply validShape_nonempty]).
  rewrite (proj2 (field_present (Some (Js.JString token)))) by (by exists token).
  cbn [Js.asString default from_option id]. fold (normalize email).
  unfold validShape in Hshape. rewrite Hshape.
  unfold captchaPasses in Hcap. rewrite Hcap. cbn [negb].
  by destruct name.
Qed.

Lemma subscribe_post_valid (now : Z) (reply : Turnstile.FetchOutcome)
    (email token : string) (name : option string) (db : D1Database) :
  validShape email -> token <> "" -> captchaPasses reply ->
  Subscribe.post now reply (Some (Subscribe.mkRequest (Some email) name (Some token))) db
  = match firstByEmail (normalize email) db with
    | Some existing =>
        if Js.truthyNum (sub_verified existing) && Js.truthyNum (sub_active existing) then
          (jsonMessage "You are already subscribed!", db)
        else if Js.truthyNum (sub_verified existing)
                && negb (Js.truthyNum (sub_active existing)) then
          (jsonMessage "Welcome back! Subscription reactivated.",
           reactivate (sub_id existing) db)
        else
          (jsonMessage Subscribe.subscribed,
           autoVerify now (Subscribe.sanitizeName name) (sub_id existing) db)
    | None =>
        match insertVerified now (normalize email) (Subscribe.sanitizeName name) db with
        | Some db' => (jsonMessage Subscribe.subscribed, db')
        | None => (jsonError "An unexpected error occurred." 500, db)
        end
    end.
Proof.
  intros Hshape Htok Hcap. rewrite post_typed.
  apply handle_valid; assumption.
Qed.

(** Whatever branch is taken, the call succeeds and leaves the email
    with a row that is verified and active. *)
Lemma subscribe_post_outcome (now : Z) (reply : Turnstile.FetchOutcome)
    (email token : string) (name : option string) (db : D1Database) :
  validShape email -> token <> "" -> captchaPasses reply ->
  let out :=
    Subscribe.post now reply
      (Some (Subscribe.mkRequest (Some email) name (Some token))) db in
  json_status out.1 = 200 /\ success (json_body out.1) = true /\
  error (json_body out.1) = None /\
  exists r, firstByEmail (normalize email) out.2 = Some r /\
            Js.truthyNum (sub_verified r) = true /\
            Js.truthyNum (sub_active r) = true.
Proof.
  intros Hshape Htok Hcap out. subst out.
  rewrite subscribe_post_valid by assumption.
  destruct (firstByEmail (normalize email) db) as [existing|] eqn:Hfind.
  - destruct (Js.truthyNum (sub_verified existing)) eqn:Hv,
             (Js.truthyNum (sub_active existing)) eqn:Ha; cbn [andb negb fst snd].
    + repeat split. exists existing. by rewrite Hfind.
    + repeat split. unfold reactivate.
      rewrite firstByEmail_updateWhere, Hfind by reflexivity.
      cbn [fmap option_fmap option_map]. unfold idIs. rewrite Z.eqb_refl.
      eexists. split; [reflexivity|]. by split.
    + repeat split. unfold autoVerify.
      rewrite firstByEmail_updateWhere, Hfind by reflexivity.
      cbn [fmap option_fmap option_map]. unfold idIs. rewrite Z.eqb_refl.
      eexists. split; [reflexivity|]. by split.
    + repeat split. unfold autoVerify.
      rewrite firstByEmail_updateWhere, Hfind by reflexivity.
      cbn [fmap option_fmap option_map]. unfold idIs. rewrite Z.eqb_refl.
      eexists. split; [reflexivity|]. by split.
  - unfold insertVerified. rewrite Hfind. cbn [fst snd]. repeat split.
    unfold firstByEmail in *. cbn [rows].
    rewrite find_app_None by assumption. cbn [sub_email].
    rewrite String.eqb_refl. eexists. split; [reflexivity|]. by split.
Qed.

Lemma emails_updateWhere (cond : Subscriber -> bool) (set : Subscriber -> Subscriber)
    (db : D1Database) :
  (forall r, sub_email (set r) = sub_email r) ->
  sub_email <$> rows (updateWhere cond set db) = sub_email <$> rows db.
Proof.
  intros Hset. unfold updateWhere. cbn [rows]. rewrite <- list_fmap_compose.
  apply list_fmap_ext. intros _ r _. simpl. destruct (cond r); [apply Hset|reflexivity].
Qed.

(** The handler keeps the emails of the table distinct. *)
Lemma subscribe_post_unique (now : Z) (reply : Turnstile.FetchOutcome)
    (email token : string) (name : option string) (db : D1Database) :
  validShape email -> token <> "" -> captchaPasses reply ->
  uniqueEmails db ->
  uniqueEmails
    (Subscribe.post now reply
       (Some (Subscribe.mkRequest (Some email) name (Some token))) db).2.
Proof.
  intros Hshape Htok Hcap Huniq. rewrite subscribe_post_valid by assumption.
  unfold uniqueEmails in *.
  destruct (firstByEmail (normalize email) db) as [existing|] eqn:Hfind.
  - destruct (Js.truthyNum (sub_verified existing)), (Js.truthyNum (sub_active existing));
      cbn [andb negb snd]; try assumption;
      unfold reactivate, autoVerify; by rewrite emails_updateWhere.
  - unfold insertVerified. rewrite Hfind. cbn [snd rows].
    rewrite fmap_app. apply NoDup_app. split; [assumption|]. split.
    + intros e He [->|Hin%elem_of_nil]%elem_of_cons; [|done].
      apply list_elem_of_fmap in He as (r & Hr & Hin).
      unfold firstByEmail in Hfind. rewrite find_None_iff in Hfind.
      specialize (Hfind r Hin). apply String.eqb_neq in Hfind. cbn in Hr. congruence.
    + apply NoDup_singleton.
Qed.

Lemma firstByEmail_unique (e : string) (r : Subscriber) (db : D1Database) :
  uniqueEmails db -> r ∈ rows db -> sub_email r = e ->
  firstByEmail e db = Some r.
Proof.
  intros Huniq Hin He. unfold firstByEmail. apply find_unique.
  - exact Hin.
  - by apply String.eqb_eq.
  - intros y Hy Hp. apply String.eqb_eq in Hp.
    apply (fmap_eq_of_NoDup sub_email (rows db)); [exact Huniq|assumption..|congruence].
Qed.

(** C3: for every email of valid shape, two Subscribe calls with that
    email and a passing captcha both succeed, and afterwards the row the
    email selects is verified and active; when the emails of the table are
    distinct, as schema.sql requires, that row is the only one with the
    email. *)
Theorem subscribe_twice_idempotent
    (now1 now2 : Z) (reply1 reply2 : Turnstile.FetchOutcome)
    (email token1 token2 : string) (name1 name2 : option string)
    (db : D1Database) :
  validShape email ->
  token1 <> "" -> captchaPasses reply1 ->
  token2 <> "" -> captchaPasses reply2 ->
  let out1 :=
    Subscribe.post now1 reply1
      (Some (Subscribe.mkRequest (Some email) name1 (Some token1))) db in
  let out2 :=
    Subscribe.post now2 reply2
      (Some (Subscribe.mkRequest (Some email) name2 (Some token2))) out1.2 in
  success (json_body out1.1) = true /\ error (json_body out1.1) = None /\
  success (json_body out2.1) = true /\ error (json_body out2.1) = None /\
  (exists r, firstByEmail (normalize email) out2.2 = Some r /\
             Js.truthyNum (sub_verified r) = true /\
             Js.truthyNum (sub_active r) = true) /\
  (uniqueEmails db ->
   forall r, r ∈ rows out2.2 -> sub_email r = normalize email ->
             Js.truthyNum (sub_verified r) = true /\
             Js.truthyNum (sub_active r) = true).
Proof.
  intros Hshape Ht1 Hc1 Ht2 Hc2 out1 out2.
  destruct (subscribe_post_outcome now1 reply1 email token1 name1 db Hshape Ht1 Hc1)
    as (_ & Hs1 & He1 & _).
  destruct (subscribe_post_outcome now2 reply2 email token2 name2 out1.2 Hshape Ht2 Hc2)
    as (_ & Hs2 & He2 & Hrow).
  repeat (split; [assumption|]).
  intros Huniq r Hin Hemail.
  destruct Hrow as (r0 & Hfind & Hv & Ha).
  assert (Huniq2 : uniqueEmails out2.2).
  { subst out2. apply subscribe_post_unique; [assumption..|].
    subst out1. by apply subscribe_post_unique. }
  pose proof (firstByEmail_unique _ r _ Huniq2 Hin Hemail) as Hfirst.
  assert (Heq : Some r0 = Some r)
    by (etransitivity; [symmetry; exact Hfind|exact Hfirst]).
  injection Heq as ->. by split.
Qed.

(** C5, as amended: a Subscribe call that hits an existing unverified row
    answers "subscribed" and rewrites the rows with that row's id: verified
    and active become 1, [verified_at] the current time, and the name
    becomes the provided name whenever one is provided (non-empty after
    trimming), the stored name being kept only when none is; every other
    column and every other row stays as it was. *)
Theorem subscribe_auto_verifies_unverified
    (now : Z) (reply : Turnstile.FetchOutcome)
    (email token : string) (name : option string)
    (existing : Subscriber) (db : D1Database) :
  validShape email -> token <> "" -> captchaPasses reply ->
  firstByEmail (normalize email) db = Some existing ->
  sub_verified existing = 0 ->
  let out :=
    Subscribe.post now reply
      (Some (Subscribe.mkRequest (Some email) name (Some token))) db in
  out.1 = jsonMessage Subscribe.subscribed /\
  rows out.2
  = (fun r =>
       if sub_id r =? sub_id existing then
         mkSubscriber (sub_id r) (sub_email r)
           (match Subscribe.sanitizeName name with
            | Some provided => Some provided
            | None => sub_name r
            end)
           (sub_verification_token r) 1 1 (sub_created_at r)
           (Some (CURRENT_TIMESTAMP now))
       else r) <$> rows db.
Proof.
  intros Hshape Htok Hcap Hfind Hunv out. subst out.
  rewrite subscribe_post_valid, Hfind by assumption.
  unfold Js.truthyNum at 1 2. rewrite Hunv. cbn [Z.eqb negb andb fst snd].
  split; [reflexivity|].
  unfold autoVerify, updateWhere. cbn [rows].
  apply list_fmap_ext. intros _ r _. unfold idIs, COALESCE.
  destruct (sub_id r =? sub_id existing); [|reflexivity].
  by destruct (Subscribe.sanitizeName name).
Qed.

End SubscribeFacts.

(** ** [Array.prototype.sort] *)

Section SortFacts.
Context {A : Type} (cmp : A -> A -> Z).

Lemma insertSorted_perm (x : A) (l : list A) : Js.insertSorted cmp x l ≡ₚ x :: l.
Proof.
  induction l as [|y l IH]; simpl; [reflexivity|].
  destruct (cmp x y <=? 0); [reflexivity|].
  rewrite IH. apply Permutation_swap.
Qed.

Lemma sort_perm (l : list A) : Js.sort cmp l ≡ₚ l.
Proof.
  induction l as [|x l IH]; simpl; [reflexivity|].
  rewrite insertSorted_perm. by f_equiv.
Qed.

Hypothesis cmp_total : forall a b, cmp a b <= 0 \/ cmp b a <= 0.
Hypothesis cmp_trans : forall a b c, cmp a b <= 0 -> cmp b c <= 0 -> cmp a c <= 0.

Lemma insertSorted_sorted (x : A) (l : list A) :
  StronglySorted (mayPrecede cmp) l -> StronglySorted (mayPrecede cmp) (Js.insertSorted cmp x l).
Proof.
  induction 1 as [|y l Hs IH Hy]; simpl.
  - repeat constructor.
  - destruct (Z.leb_spec (cmp x y) 0) as [Hle|Hgt].
    + constructor; [by constructor|].
      constructor; [exact Hle|].
      eapply Forall_impl; [exact Hy|]. intros z Hz. unfold mayPrecede in *.
      by eapply cmp_trans.
    + constructor; [exact IH|].
      rewrite insertSorted_perm. constructor; [|exact Hy].
      unfold mayPrecede. destruct (cmp_total x y) as [?|?]; [lia|assumption].
Qed.

Lemma sort_sorted (l : list A) : StronglySorted (mayPrecede cmp) (Js.sort cmp l).
Proof.
  induction l as [|x l IH]; simpl; [constructor|by apply insertSorted_sorted].
Qed.

End SortFacts.

Section SortStable.
Context {A : Type} (cmp : A -> A -> Z) (tie : A -> bool).

(** The elements of one tie class never have to follow one another. *)
Hypothesis tie_equal : forall a b, tie a = true -> tie b = true -> cmp a b <= 0.



End SortStable.

(** Sorting commutes with a map the comparator does not see. *)
Lemma sort_fmap {A B} (cmpA : A -> A -> Z) (cmpB : B -> B -> Z) (f : A -> B)
    (l : list A) :
  (forall a b, cmpB (f a) (f b) = cmpA a b) ->
  f <$> Js.sort cmpA l = Js.sort cmpB (f <$> l).
Proof.
  intros Hf.
  assert (Hins : forall x l, f <$> Js.insertSorted cmpA x l
                             = Js.insertSorted cmpB (f x) (f <$> l)).
  { intros x l'. induction l' as [|y l' IH]; [reflexivity|].
    cbn [Js.insertSorted]. rewrite !fmap_cons. cbn [Js.insertSorted].
    rewrite Hf. destruct (cmpA x y <=? 0); [reflexivity|].
    rewrite fmap_cons. by rewrite IH. }
  induction l as [|x l IH]; [reflexivity|].
  rewrite fmap_cons. cbn [Js.sort foldr]. fold (Js.sort cmpA l) (Js.sort cmpB (f <$> l)).
  by rewrite Hins, IH.
Qed.

(** ** [findIndex] and [find] *)

Lemma findIndex_found {A} (p : A -> bool) (l : list A) :
  0 <= Js.findIndex p l ->
  exists x, l !! Z.to_nat (Js.findIndex p l) = Some x /\ p x = true.
Proof.
  unfold Js.findIndex. destruct (list_find _ l) as [[i x]|] eqn:Hf; [|lia].
  intros _. apply list_find_Some in Hf as (Hi & Hp & _).
  exists x. by rewrite Nat2Z.id.
Qed.

Lemma findIndex_absent {A} (p : A -> bool) (l : list A) :
  Js.findIndex p l < 0 -> forall x, x ∈ l -> p x = false.
Proof.
  unfold Js.findIndex. destruct (list_find _ l) as [[i x]|] eqn:Hf; [lia|].
  intros _ x Hx. apply list_find_None in Hf.
  rewrite Forall_forall in Hf. specialize (Hf x Hx). by destruct (p x).
Qed.

Lemma findIndex_range {A} (p : A -> bool) (l : list A) :
  Js.findIndex p l = -1 \/ 0 <= Js.findIndex p l.
Proof. unfold Js.findIndex. destruct (list_find _ l) as [[i x]|]; lia. Qed.

Lemma findIndex_first {A} (p : A -> bool) (l : list A) (j : nat) (y : A) :
  0 <= Js.findIndex p l -> l !! j = Some y -> (j < Z.to_nat (Js.findIndex p l))%nat ->
  p y = false.
Proof.
  unfold Js.findIndex. destruct (list_find _ l) as [[i x]|] eqn:Hf; [|lia].
  intros _ Hj Hlt. rewrite Nat2Z.id in Hlt.
  apply list_find_Some in Hf as (_ & _ & Hmin).
  specialize (Hmin j y Hj Hlt). by destruct (p y).
Qed.

Lemma findIndex_cons {A} (p : A -> bool) (x : A) (l : list A) :
  Js.findIndex p (x :: l)
  = if p x then 0
    else if Js.findIndex p l <? 0 then -1 else Js.findIndex p l + 1.
Proof.
  unfold Js.findIndex. cbn [list_find].
  destruct (decide (p x = true)) as [Hp|Hp].
  - by rewrite Hp.
  - apply not_true_is_false in Hp. rewrite Hp.
    destruct (list_find _ l) as [[i y]|]; simpl; [|reflexivity].
    destruct (Z.ltb_spec (Z.of_nat i) 0); lia.
Qed.

Lemma find_cons {A} (p : A -> bool) (x : A) (l : list A) :
  Js.find p (x :: l) = if p x then Some x else Js.find p l.
Proof.
  unfold Js.find. cbn [list_find].
  destruct (decide (p x = true)) as [Hp|Hp].
  - by rewrite Hp.
  - apply not_true_is_false in Hp. rewrite Hp.
    by destruct (list_find _ l) as [[i y]|].
Qed.

Lemma findIndex_fmap {A B} (p : B -> bool) (q : A -> bool) (f : A -> B) (l : list A) :
  (forall x, p (f x) = q x) ->
  Js.findIndex p (f <$> l) = Js.findIndex q l.
Proof.
  intros Hpq. induction l as [|x l IH]; [reflexivity|].
  by rewrite fmap_cons, !findIndex_cons, Hpq, IH.
Qed.

Lemma find_fmap {A B} (p : B -> bool) (q : A -> bool) (f : A -> B) (l : list A) :
  (forall x, p (f x) = q x) ->
  Js.find p (f <$> l) = f <$> Js.find q l.
Proof.
  intros Hpq. induction l as [|x l IH]; [reflexivity|].
  rewrite fmap_cons, !find_cons, Hpq, IH. by destruct (q x).
Qed.

Lemma find_None {A} (p : A -> bool) (l : list A) :
  Js.find p l = None <-> forall x, x ∈ l -> p x = false.
Proof.
  unfold Js.find. destruct (list_find _ l) as [[i x]|] eqn:Hf; simpl.
  - split; [discriminate|]. intros H.
    apply list_find_Some in Hf as (Hi & Hp & _).
    rewrite (H x) in Hp; [discriminate|]. by eapply list_elem_of_lookup_2.
  - split; [|reflexivity]. intros _ x Hx. apply list_find_None in Hf.
    rewrite Forall_forall in Hf. specialize (Hf x Hx). by destruct (p x).
Qed.

Lemma find_Some {A} (p : A -> bool) (l : list A) (x : A) :
  Js.find p l = Some x -> x ∈ l /\ p x = true.
Proof.
  unfold Js.find. destruct (list_find _ l) as [[i y]|] eqn:Hf; [|discriminate].
  simpl. intros [= ->]. apply list_find_Some in Hf as (Hi & Hp & _).
  split; [by eapply list_elem_of_lookup_2|exact Hp].
Qed.

(** With one element at most satisfying [p], [find] returns it. *)
Lemma find_only {A} (p : A -> bool) (l : list A) (x : A) :
  x ∈ l -> p x = true -> (forall y, y ∈ l -> p y = true -> y = x) ->
  Js.find p l = Some x.
Proof.
  intros Hx Hp Huniq. destruct (Js.find p l) as [y|] eqn:Hf.
  - apply find_Some in Hf as [Hy Hpy]. f_equal. by apply Huniq.
  - rewrite find_None in Hf. specialize (Hf x Hx). congruence.
Qed.

(** ** archive.ts: the index in memory and in KV *)

Section ArchiveFacts.
Import Archive.

Lemma stringify_parse_number (j : option Z) : stringifyNumber (parseNumber j) = j.
Proof. by destruct j. Qed.

Lemma stringify_parse_meta (r : ReportMetaJson) :
  mapMeta stringifyNumber (mapMeta parseNumber r) = r.
Proof. destruct r. unfold mapMeta. simpl. by rewrite !stringify_parse_number. Qed.

Lemma stringify_parse_reports (rs : list ReportMetaJson) :
  mapMeta stringifyNumber <$> (mapMeta parseNumber <$> rs) = rs.
Proof.
  rewrite <- list_fmap_compose. rewrite <- (list_fmap_id rs) at 2.
  apply list_fmap_ext. intros _ r _. apply stringify_parse_meta.
Qed.

Lemma id_mapMeta {M N} (f : M -> N) (r : ReportMetaOf M) : id (mapMeta f r) = id r.
Proof. reflexivity. Qed.

Lemma getArchiveIndex_reports (now : string) (env : Env) :
  reports (getArchiveIndex now (ARCHIVE_KV env)) = mapMeta parseNumber <$> storedReports env.
Proof.
  unfold getArchiveIndex, storedReports, storedIndex.
  by destruct (ARCHIVE_KV env !! ARCHIVE_INDEX_KEY).
Qed.

Lemma storedReports_save (now : string) (secret : string)
    (kv : gmap string ArchiveIndexJson) (r2 : gmap string string) (ix : ArchiveIndex) :
  storedReports (mkEnv secret (saveArchiveIndex now kv ix) r2)
  = mapMeta stringifyNumber <$> reports ix.
Proof.
  unfold storedReports, storedIndex, saveArchiveIndex. cbn [ARCHIVE_KV].
  by rewrite lookup_insert_eq.
Qed.

Lemma storedIndex_save (now : string) (secret : string)
    (kv : gmap string ArchiveIndexJson) (r2 : gmap string string) (ix : ArchiveIndex) :
  storedIndex (mkEnv secret (saveArchiveIndex now kv ix) r2)
  = Some (mkIndex (mapMeta stringifyNumber <$> reports ix) now).
Proof.
  unfold storedIndex, saveArchiveIndex. cbn [ARCHIVE_KV].
  by rewrite lookup_insert_eq.
Qed.


Lemma postAccepted_inv (req : PostRequest) (env : Env) :
  postAccepted req env = true ->
  isAuthorized (Authorization req) env = true /\
  Js.truthy (X_Report_Id req) = true /\ Js.truthy (X_Date_Start req) = true /\
  Js.truthy (X_Date_End req) = true /\ Js.truthy (X_Generated_At req) = true /\
  Js.truthy (X_Title req) = true /\ Js.truthy (X_Summary req) = true /\
  Js.truthy (X_Days req) = true /\ Js.truthy (X_Total_Items req) = true /\
  Js.truthy (Some (text req)) = true /\
  (Js.length (Js.trim (text req)) =? 0) = false.
Proof.
  unfold postAccepted. rewrite !andb_true_iff, negb_true_iff. tauto.
Qed.

Section PostFacts.
Variable localeCompare : string -> string -> Z.

(** A request that fails a check is answered with an error and leaves
    both stores as they were. *)
Lemma post_rejected (now : string) (req : PostRequest) (env : Env) :
  postAccepted req env = false ->
  let out := post localeCompare now req env in
  success (json_body out.1) = false /\
  (json_status out.1 = 401 \/ json_status out.1 = 400) /\ out.2 = env.
Proof.
  unfold postAccepted, post. intros H.
  destruct (isAuthorized (Authorization req) env); [|by auto].
  destruct (Js.truthy (X_Report_Id req)); [|by auto].
  destruct (Js.truthy (X_Date_Start req)); [|by auto].
  destruct (Js.truthy (X_Date_End req)); [|by auto].
  destruct (Js.truthy (X_Generated_At req)); [|by auto].
  destruct (Js.truthy (X_Title req)); [|by auto].
  destruct (Js.truthy (X_Summary req)); [|by auto].
  destruct (Js.truthy (X_Days req)); [|by auto].
  destruct (Js.truthy (X_Total_Items req)); [|by auto].
  destruct (Js.truthy (Some (text req))); [|by auto].
  destruct (Js.length (Js.trim (text req)) =? 0); [by auto|discriminate].
Qed.

(** What an accepted upload answers and leaves behind, read off the
    stored documents. *)
Lemma post_accepted (now : string) (req : PostRequest) (env : Env) :
  postAccepted req env = true ->
  let m := submittedJson req in
  let existingIndex :=
    Js.findIndex (fun r => String.eqb (id r) (id m)) (storedReports env) in
  post localeCompare now req env
  = (mkJson (if 0 <=? existingIndex then 200 else 201)
       (mkApi true
          (Some (if 0 <=? existingIndex then "Report updated" else "Report uploaded"))
          (Some m) None),
     mkEnv (ADMIN_API_SECRET env)
       (<[ARCHIVE_INDEX_KEY :=
            mkIndex (Js.sort (newestFirst localeCompare) (placed m (storedReports env))) now]>
          (ARCHIVE_KV env))
       (<[r2_key m := text req]> (ARCHIVE_R2 env))).
Proof.
  intros Hacc m existingIndex.
  destruct (postAccepted_inv _ _ Hacc)
    as (Hauth & H1 & H2 & H3 & H4 & H5 & H6 & H7 & H8 & H9 & H10).
  unfold post. rewrite Hauth, H1, H2, H3, H4, H5, H6, H7, H8, H9, H10.
  cbn [negb orb].
  rewrite getArchiveIndex_reports.
  rewrite (findIndex_fmap _ (fun r => String.eqb (id r) (id m)) (mapMeta parseNumber))
    by reflexivity.
  fold existingIndex. f_equal. f_equal.
  unfold saveArchiveIndex, stringify, mapIndex. cbn [reports updated_at].
  f_equal. f_equal.
  rewrite (sort_fmap (newestFirst localeCompare) (newestFirst localeCompare)) by reflexivity.
  f_equal. unfold placed. fold existingIndex.
  destruct (0 <=? existingIndex).
  - rewrite list_fmap_insert. by rewrite stringify_parse_reports.
  - rewrite fmap_app. by rewrite stringify_parse_reports.
Qed.

End PostFacts.
End ArchiveFacts.

(** ** archive.ts: replacing or appending an entry *)

Section PlacedFacts.
Import Archive.

Lemma placed_elem (m : ReportMetaJson) (old : list ReportMetaJson) :
  m ∈ placed m old.
Proof.
  unfold placed.
  destruct (Z.leb_spec 0 (Js.findIndex (fun r => String.eqb (id r) (id m)) old)) as [Hge|Hlt].
  - destruct (findIndex_found _ _ Hge) as (x & Hx & _).
    apply list_elem_of_lookup. exists (Z.to_nat (Js.findIndex (fun r => String.eqb (id r) (id m)) old)).
    apply list_lookup_insert_eq. by eapply lookup_lt_Some.
  - apply elem_of_app. right. by left.
Qed.

Lemma placed_ids_replace (m : ReportMetaJson) (old : list ReportMetaJson) :
  0 <= Js.findIndex (fun r => String.eqb (id r) (id m)) old ->
  id <$> placed m old = id <$> old.
Proof.
  intros Hge. unfold placed. rewrite (proj2 (Z.leb_le _ _) Hge).
  destruct (findIndex_found _ _ Hge) as (x & Hx & Hid).
  apply String.eqb_eq in Hid.
  rewrite list_fmap_insert. apply list_insert_id.
  by rewrite list_lookup_fmap, Hx, <- Hid.
Qed.

Lemma placed_distinct (m : ReportMetaJson) (old : list ReportMetaJson) :
  distinctIds old -> distinctIds (placed m old).
Proof.
  unfold distinctIds. intros Hnd.
  destruct (Z.leb_spec 0 (Js.findIndex (fun r => String.eqb (id r) (id m)) old)) as [Hge|Hlt].
  - by rewrite placed_ids_replace.
  - unfold placed. rewrite (proj2 (Z.leb_gt _ _) Hlt).
    rewrite fmap_app. apply NoDup_app. split; [exact Hnd|]. split.
    + intros i Hi [->|Hin%elem_of_nil]%elem_of_cons; [|done].
      apply list_elem_of_fmap in Hi as (r & Hr & Hin).
      pose proof (findIndex_absent _ _ Hlt r Hin) as Hne. simpl in Hne.
      apply String.eqb_neq in Hne. congruence.
    + apply NoDup_singleton.
Qed.

Variable localeCompare : string -> string -> Z.

Lemma storedReports_post (now : string) (req : PostRequest) (env : Env) :
  postAccepted req env = true ->
  storedReports (post localeCompare now req env).2
  = Js.sort (newestFirst localeCompare) (placed (submittedJson req) (storedReports env)).
Proof.
  intros Hacc. rewrite post_accepted by assumption.
  unfold storedReports at 1, storedIndex. cbn [snd ARCHIVE_KV].
  by rewrite lookup_insert_eq.
Qed.

Lemma post_distinct (now : string) (req : PostRequest) (env : Env) :
  postAccepted req env = true ->
  distinctIds (storedReports env) ->
  distinctIds (storedReports (post localeCompare now req env).2).
Proof.
  intros Hacc Hnd. rewrite storedReports_post by assumption.
  unfold distinctIds. rewrite sort_perm. by apply placed_distinct.
Qed.

Lemma post_entry_stored (now : string) (req : PostRequest) (env : Env) :
  postAccepted req env = true ->
  submittedJson req ∈ storedReports (post localeCompare now req env).2.
Proof.
  intros Hacc. rewrite storedReports_post by assumption.
  rewrite sort_perm. apply placed_elem.
Qed.

(** With distinct ids, the uploaded entry is the only one with its id. *)
Lemma post_entry_only (now : string) (req : PostRequest) (env : Env) (r : ReportMetaJson) :
  postAccepted req env = true ->
  distinctIds (storedReports env) ->
  r ∈ storedReports (post localeCompare now req env).2 ->
  id r = id (submittedJson req) ->
  r = submittedJson req.
Proof.
  intros Hacc Hnd Hr Hid.
  eapply (fmap_eq_of_NoDup id); [by apply post_distinct|exact Hr| |exact Hid].
  by apply post_entry_stored.
Qed.

Lemma post_r2 (now : string) (req : PostRequest) (env : Env) :
  postAccepted req env = true ->
  ARCHIVE_R2 (post localeCompare now req env).2
  = <[r2KeyOf (default "" (X_Report_Id req)) := text req]> (ARCHIVE_R2 env).
Proof. intros Hacc. by rewrite post_accepted by assumption. Qed.

End PlacedFacts.

(** ** [parseInt] *)




(** ** The Number value of an integer *)








(** ** Decimal numerals *)














(** ** archive.ts: reading a report *)

Section GetReportFacts.
Import Archive.

(** [GetReport], read off the stored documents. *)
Lemma getReport_stored (now : string) (id_ : string) (env : Env) :
  getReport now id_ env
  = match Js.find (fun r => String.eqb (id r) id_) (storedReports env) with
    | None => ReportJson (jsonError "Report not found" 404)
    | Some report =>
        match ARCHIVE_R2 env !! r2_key report with
        | None => ReportJson (jsonError "Report content not found in storage" 404)
        | Some html => ReportHtml 200 html
        end
    end.
Proof.
  unfold getReport. rewrite getArchiveIndex_reports.
  rewrite (find_fmap _ (fun r => String.eqb (id r) id_) (mapMeta parseNumber))
    by reflexivity.
  by destruct (Js.find _ (storedReports env)).
Qed.

(** C9, as amended: GetReport fails with 404 (not found) both when the id
    is absent from the index and when the entry's key has no body in the
    content store; the two replies carry the same status and
    [success = false] but different messages, "Report not found" and
    "Report content not found in storage". *)
Theorem get_report_not_found_twice (now : string) (id_ : string) (env : Env) :
  ((forall r, r ∈ storedReports env -> id r <> id_) ->
   getReport now id_ env = ReportJson (jsonError "Report not found" 404)) /\
  (forall r,
     Js.find (fun r => String.eqb (id r) id_) (storedReports env) = Some r ->
     ARCHIVE_R2 env !! r2_key r = None ->
     getReport now id_ env
     = ReportJson (jsonError "Report content not found in storage" 404)) /\
  json_status (jsonError (T := unit) "Report not found" 404)
  = json_status (jsonError (T := unit) "Report content not found in storage" 404) /\
  json_body (jsonError (T := unit) "Report not found" 404)
  <> json_body (jsonError (T := unit) "Report content not found in storage" 404).
Proof.
  split; [|split; [|split]].
  - intros Habsent. rewrite getReport_stored.
    assert (Js.find (fun r => String.eqb (id r) id_) (storedReports env) = None) as ->;
      [|reflexivity].
    apply find_None. intros r Hr. apply String.eqb_neq. by apply Habsent.
  - intros r Hfind Hbody. by rewrite getReport_stored, Hfind, Hbody.
  - reflexivity.
  - discriminate.
Qed.

Variable localeCompare : string -> string -> Z.

(** C6, as amended: an accepted PutReport writes the body to the content
    store under the key [reports/{id}.html] and under no other key, and
    the ReportMeta it stores in the index and returns has that key as its
    content key. *)
Theorem put_report_writes_html_key (now : string) (req : PostRequest) (env : Env) :
  postAccepted req env = true ->
  let reportId := default "" (X_Report_Id req) in
  let key := "reports/" +:+ reportId +:+ ".html" in
  let out := post localeCompare now req env in
  ARCHIVE_R2 out.2 !! key = Some (text req) /\
  (forall k, k <> key -> ARCHIVE_R2 out.2 !! k = ARCHIVE_R2 env !! k) /\
  (exists r, r ∈ storedReports out.2 /\ id r = reportId /\ r2_key r = key /\
             data (json_body out.1) = Some r) /\
  (distinctIds (storedReports env) ->
   forall r, r ∈ storedReports out.2 -> id r = reportId -> r2_key r = key).
Proof.
  intros Hacc reportId key out. subst out. repeat split.
  - rewrite post_r2 by assumption. apply lookup_insert_eq.
  - intros k Hk. rewrite post_r2 by assumption. by apply lookup_insert_ne.
  - exists (submittedJson req). repeat split.
    + by apply post_entry_stored.
    + by rewrite post_accepted by assumption.
  - intros Hnd r Hr Hid.
    by rewrite (post_entry_only localeCompare now req env r Hacc Hnd Hr Hid).
Qed.



End GetReportFacts.

(** ** archive.ts: what an upload checks *)

Section PostChecks.
Import Archive.
Variable localeCompare : string -> string -> Z.




End PostChecks.

(** ** archive.ts: the order of the index *)

Section IndexOrder.
Import Archive.
Variable localeCompare : string -> string -> Z.

Lemma postAccepted_secret (req : PostRequest) (env1 env2 : Env) :
  ADMIN_API_SECRET env1 = ADMIN_API_SECRET env2 ->
  postAccepted req env1 = postAccepted req env2.
Proof.
  intros H. unfold postAccepted, isAuthorized. by rewrite H.
Qed.

Lemma post_secret (now : string) (req : PostRequest) (env : Env) :
  ADMIN_API_SECRET (post localeCompare now req env).2 = ADMIN_API_SECRET env.
Proof.
  destruct (postAccepted req env) eqn:Hacc.
  - by rewrite post_accepted by assumption.
  - by rewrite (proj2 (proj2 (post_rejected localeCompare now req env Hacc))).
Qed.


Hypothesis localeCompare_refl : forall s, localeCompare s s = 0.
Hypothesis localeCompare_total :
  forall s t, localeCompare s t <= 0 \/ localeCompare t s <= 0.
Hypothesis localeCompare_trans :
  forall s t u, localeCompare s t <= 0 -> localeCompare t u <= 0 -> localeCompare s u <= 0.


End IndexOrder.

(** ** archive.ts: patching the metadata *)

Section PatchFacts.
Import Archive.

Lemma findIndex_is {A} (p : A -> bool) (l : list A) (i : nat) (x : A) :
  l !! i = Some x -> p x = true ->
  (forall j y, (j < i)%nat -> l !! j = Some y -> p y = false) ->
  Js.findIndex p l = Z.of_nat i.
Proof.
  intros Hi Hp Hmin. unfold Js.findIndex.
  assert (list_find (fun x => p x = true) l = Some (i, x)) as ->; [|reflexivity].
  apply list_find_Some. repeat split; [assumption..|].
  intros j y Hj Hlt. rewrite (Hmin j y Hlt Hj). discriminate.
Qed.

Lemma patched_stringify (body : PatchBody) (r : ReportMeta) :
  mapMeta stringifyNumber
    ((if Js.truthy (patch_summary body)
      then setSummary (default "" (patch_summary body)) else fun r => r)
       ((if Js.truthy (patch_title body)
         then setTitle (default "" (patch_title body)) else fun r => r) r))
  = patched body (mapMeta stringifyNumber r).
Proof.
  unfold patched.
  by destruct (Js.truthy (patch_title body)), (Js.truthy (patch_summary body)).
Qed.

Lemma patch_unauthorized (now : string) (authHeader : option string) (id_ : string)
    (body : option PatchBody) (env : Env) :
  isAuthorized authHeader env = false ->
  patch now authHeader id_ body env = (jsonError "Unauthorized" 401, env).
Proof. intros H. unfold patch. by rewrite H. Qed.

Lemma patch_nothing_given (now : string) (authHeader : option string) (id_ : string)
    (body : PatchBody) (env : Env) :
  isAuthorized authHeader env = true ->
  Js.truthy (patch_title body) = false ->
  Js.truthy (patch_summary body) = false ->
  patch now authHeader id_ (Some body) env
  = (jsonError "Request body must contain at least one of: title, summary" 400, env).
Proof. intros Hauth Ht Hs. unfold patch. by rewrite Hauth, Ht, Hs. Qed.

Lemma patch_absent (now : string) (authHeader : option string) (id_ : string)
    (body : PatchBody) (env : Env) :
  isAuthorized authHeader env = true ->
  Js.truthy (patch_title body) = true \/ Js.truthy (patch_summary body) = true ->
  (forall r, r ∈ storedReports env -> id r <> id_) ->
  patch now authHeader id_ (Some body) env = (jsonError "Report not found" 404, env).
Proof.
  intros Hauth Hgiven Habsent. unfold patch. rewrite Hauth. cbn [negb].
  assert (negb (Js.truthy (patch_title body)) && negb (Js.truthy (patch_summary body))
          = false) as ->.
  { destruct Hgiven as [-> | ->]; [reflexivity|apply andb_false_r]. }
  rewrite getArchiveIndex_reports.
  rewrite (findIndex_fmap _ (fun r => String.eqb (id r) id_) (mapMeta parseNumber))
    by reflexivity.
  assert (Js.findIndex (fun r => String.eqb (id r) id_) (storedReports env) = -1) as ->;
    [|reflexivity].
  destruct (findIndex_range (fun r : ReportMetaJson => String.eqb (id r) id_)
              (storedReports env)) as [?|Hge]; [assumption|].
  destruct (findIndex_found _ _ Hge) as (x & Hx & Hid).
  apply String.eqb_eq in Hid. exfalso. eapply Habsent; [|exact Hid].
  by eapply list_elem_of_lookup_2.
Qed.

Lemma patch_present (now : string) (authHeader : option string) (id_ : string)
    (body : PatchBody) (env : Env) (i : nat) (r : ReportMetaJson) :
  isAuthorized authHeader env = true ->
  Js.truthy (patch_title body) = true \/ Js.truthy (patch_summary body) = true ->
  storedReports env !! i = Some r -> id r = id_ ->
  (forall j y, (j < i)%nat -> storedReports env !! j = Some y -> id y <> id_) ->
  patch now authHeader id_ (Some body) env
  = (mkJson 200 (mkApi true (Some "Report metadata updated") (Some (patched body r)) None),
     mkEnv (ADMIN_API_SECRET env)
       (<[ARCHIVE_INDEX_KEY := mkIndex (<[i := patched body r]> (storedReports env)) now]>
          (ARCHIVE_KV env))
       (ARCHIVE_R2 env)).
Proof.
  intros Hauth Hgiven Hi Hid Hfirst. unfold patch. rewrite Hauth. cbn [negb].
  assert (negb (Js.truthy (patch_title body)) && negb (Js.truthy (patch_summary body))
          = false) as ->.
  { destruct Hgiven as [-> | ->]; [reflexivity|apply andb_false_r]. }
  rewrite getArchiveIndex_reports.
  rewrite (findIndex_fmap _ (fun r => String.eqb (id r) id_) (mapMeta parseNumber))
    by reflexivity.
  rewrite (findIndex_is _ _ i r Hi); cycle 1.
  { by apply String.eqb_eq. }
  { intros j y Hlt Hj. apply String.eqb_neq. by eapply Hfirst. }
  assert ((Z.of_nat i <? 0) = false) as -> by (apply Z.ltb_ge; lia).
  rewrite Nat2Z.id.
  set (g := fun r0 : ReportMeta =>
              (if Js.truthy (patch_summary body)
               then setSummary (default "" (patch_summary body)) else fun r => r)
                ((if Js.truthy (patch_title body)
                  then setTitle (default "" (patch_title body)) else fun r => r) r0)).
  assert (Halter :
    (if Js.truthy (patch_summary body)
     then alter (setSummary (default "" (patch_summary body))) i
            (if Js.truthy (patch_title body)
             then alter (setTitle (default "" (patch_title body))) i
                    (mapMeta parseNumber <$> storedReports env)
             else mapMeta parseNumber <$> storedReports env)
     else
       if Js.truthy (patch_title body)
       then alter (setTitle (default "" (patch_title body))) i
              (mapMeta parseNumber <$> storedReports env)
       else mapMeta parseNumber <$> storedReports env)
    = alter g i (mapMeta parseNumber <$> storedReports env)).
  { subst g. destruct (Js.truthy (patch_title body)), (Js.truthy (patch_summary body)).
    - by rewrite list_alter_alter_eq.
    - reflexivity.
    - reflexivity.
    - symmetry. by apply list_alter_id. }
  rewrite Halter.
  assert (Hstored :
    mapMeta stringifyNumber <$> alter g i (mapMeta parseNumber <$> storedReports env)
    = <[i := patched body r]> (storedReports env)).
  { rewrite (list_fmap_alter _ g (patched body))
      by (apply Forall_forall; intros x _; apply patched_stringify).
    rewrite stringify_parse_reports.
    apply list_eq. intros j. destruct (decide (i = j)) as [<-|Hne].
    - rewrite list_lookup_alter_eq, Hi, list_lookup_insert_eq; [reflexivity|].
      by eapply lookup_lt_Some.
    - by rewrite list_lookup_alter_ne, list_lookup_insert_ne. }
  f_equal.
  - f_equal. f_equal. rewrite <- list_lookup_fmap, Hstored.
    apply list_lookup_insert_eq. by eapply lookup_lt_Some.
  - f_equal. unfold saveArchiveIndex, stringify, mapIndex. cbn [reports updated_at].
    by rewrite Hstored.
Qed.

(** C8, as amended: a field of the body counts as supplied when it is a
    non-empty string.  For an authorized caller, PatchReportMeta fails with
    400 (validation) and leaves both stores unchanged when neither title
    nor summary is supplied; otherwise it fails with 404 (not found),
    again changing nothing, when the id is absent from the index; and
    otherwise it rewrites the first entry with that id, setting the
    supplied fields only and leaving every other field, every other entry
    and the content store as they were. *)
Theorem patch_report_meta_updates_supplied_fields
    (now : string) (authHeader : option string) (id_ : string)
    (body : PatchBody) (env : Env) :
  isAuthorized authHeader env = true ->
  let out := patch now authHeader id_ (Some body) env in
  (Js.truthy (patch_title body) = false ->
   Js.truthy (patch_summary body) = false ->
   json_status out.1 = 400 /\ success (json_body out.1) = false /\ out.2 = env) /\
  (Js.truthy (patch_title body) = true \/ Js.truthy (patch_summary body) = true ->
   (forall r, r ∈ storedReports env -> id r <> id_) ->
   json_status out.1 = 404 /\ success (json_body out.1) = false /\ out.2 = env) /\
  (Js.truthy (patch_title body) = true \/ Js.truthy (patch_summary body) = true ->
   forall (i : nat) (r : ReportMetaJson),
     storedReports env !! i = Some r -> id r = id_ ->
     (forall j y, (j < i)%nat -> storedReports env !! j = Some y -> id y <> id_) ->
     json_status out.1 = 200 /\
     data (json_body out.1) = Some (patched body r) /\
     storedReports out.2 = <[i := patched body r]> (storedReports env) /\
     ARCHIVE_R2 out.2 = ARCHIVE_R2 env).
Proof.
  intros Hauth out. subst out. split; [|split].
  - intros Ht Hs. by rewrite patch_nothing_given.
  - intros Hgiven Habsent. by rewrite patch_absent.
  - intros Hgiven i r Hi Hid Hfirst.
    rewrite (patch_present now authHeader id_ body env i r) by assumption.
    repeat split. unfold storedReports, storedIndex. cbn [snd ARCHIVE_KV].
    by rewrite lookup_insert_eq.
Qed.

End PatchFacts.

(** ** archive.ts: distinct ids are an invariant *)

Section ArchiveInvariant.
Import Archive.

Lemma patch_ids (now : string) (authHeader : option string) (id_ : string)
    (body : option PatchBody) (env : Env) :
  id <$> storedReports (patch now authHeader id_ body env).2 = id <$> storedReports env.
Proof.
  destruct (isAuthorized authHeader env) eqn:Hauth;
    [|by rewrite patch_unauthorized].
  destruct body as [body|]; [|unfold patch; by rewrite Hauth].
  destruct (Js.truthy (patch_title body)) eqn:Ht, (Js.truthy (patch_summary body)) eqn:Hs;
    try (by rewrite patch_nothing_given).
  all: assert (Hgiven : Js.truthy (patch_title body) = true
                        \/ Js.truthy (patch_summary body) = true) by auto.
  all: destruct (findIndex_range (fun r : ReportMetaJson => String.eqb (id r) id_)
                   (storedReports env)) as [Hneg|Hge].
  all: try (rewrite patch_absent; [reflexivity|assumption|assumption|];
            intros r Hr; apply String.eqb_neq;
            by apply (findIndex_absent (fun r : ReportMetaJson => String.eqb (id r) id_)
                        (storedReports env)); [lia|]).
  all: destruct (findIndex_found _ _ Hge) as (x & Hx & Hid);
       apply String.eqb_eq in Hid;
       rewrite (patch_present now authHeader id_ body env _ x Hauth Hgiven Hx Hid)
         by (intros j y Hlt Hj; apply String.eqb_neq;
             by apply (findIndex_first (fun r : ReportMetaJson => String.eqb (id r) id_)
                         (storedReports env) j y Hge Hj));
       unfold storedReports at 1, storedIndex; cbn [snd ARCHIVE_KV];
       rewrite lookup_insert_eq; cbn [reports];
       rewrite list_fmap_insert; apply list_insert_id;
       by rewrite list_lookup_fmap, Hx.
Qed.

Lemma delete_sublist (now : string) (authHeader : option string) (id_ : string)
    (env : Env) :
  storedReports (Archive.delete now authHeader id_ env).2 `sublist_of` storedReports env.
Proof.
  unfold Archive.delete.
  destruct (isAuthorized authHeader env); [|reflexivity]. cbn [negb].
  rewrite getArchiveIndex_reports.
  destruct (_ <? 0); [reflexivity|]. cbn [snd].
  rewrite storedReports_save. cbn [reports].
  rewrite list_fmap_delete, stringify_parse_reports.
  apply sublist_delete.
Qed.

Lemma reachable_distinct (localeCompare : string -> string -> Z) (env : Env) :
  Reachable localeCompare env -> distinctIds (storedReports env).
Proof.
  induction 1 as [secret r2|now req env _ IH|now auth id_ body env _ IH|now auth id_ env _ IH].
  - constructor.
  - destruct (postAccepted req env) eqn:Hacc.
    + by apply post_distinct.
    + by rewrite (proj2 (proj2 (post_rejected localeCompare now req env Hacc))).
  - unfold distinctIds. by rewrite patch_ids.
  - unfold distinctIds. eapply sublist_NoDup; [exact IH|].
    apply fmap_sublist, delete_sublist.
Qed.

End ArchiveInvariant.

(** ** The instances the handlers run with *)

Lemma sha256_length (msg : list N) : length (Crypto.sha256 msg) = 32%nat.
Proof.
  unfold Crypto.sha256.
  by destruct (foldl Crypto.compress Crypto.H0 _) as [[[[[[[a b] c] d] e] f] g] h].
Qed.

Lemma hmacSha256_length (key msg : list byte) :
  length (Crypto.hmacSha256 key msg) = 32%nat.
Proof.
  unfold Crypto.hmacSha256, Crypto.hmac. rewrite length_fmap. apply sha256_length.
Qed.

Lemma codeUnitCompare_le (s t : string) :
  codeUnitCompare s t <= 0 <-> String.le s t.
Proof.
  unfold codeUnitCompare, String.le, String.leb.
  destruct (String.compare s t); simpl; split; intros; (lia || done).
Qed.


Lemma codeUnitCompare_total (s t : string) :
  codeUnitCompare s t <= 0 \/ codeUnitCompare t s <= 0.
Proof.
  rewrite !codeUnitCompare_le. destruct (total String.le s t); auto.
Qed.

Lemma codeUnitCompare_trans (s t u : string) :
  codeUnitCompare s t <= 0 -> codeUnitCompare t u <= 0 -> codeUnitCompare s u <= 0.
Proof. rewrite !codeUnitCompare_le. apply transitivity. Qed.

(** ** The claims on sample data *)

Section Samples.
Import Schema Archive.

(** C1 as stated fails: [exPending] is unverified and holds [exToken];
    the first Verify succeeds, verifies the row and clears its token; the
    second Verify with the same token is answered 404. *)
Lemma verify_second_call_not_found :
  exPending ∈ rows exDb /\
  sub_verified exPending = 0 /\
  sub_verification_token exPending = Some exToken /\
  Verify.get 2000 (Some exToken) exDb
  = (mkHtmlResponse 200 Verify.successHtml,
     mkDb [mkSubscriber 1 "a@x.com" (Some "Alice") None 1 1 (unixepoch 1000)
             (Some (unixepoch 2000))] 1) /\
  html_status (Verify.get 3000 (Some exToken) (Verify.get 2000 (Some exToken) exDb).2).1
  = 404.
Proof. repeat split. by left. Qed.

Lemma verify_token_single_use_witness :
  mkSubscriber 1 "a@x.com" (Some "Alice") None 1 1 (unixepoch 1000)
    (Some (unixepoch 2000)) ∈ rows (Verify.get 2000 (Some exToken) exDb).2 /\
  Verify.get 3000 (Some exToken) (Verify.get 2000 (Some exToken) exDb).2
  = (mkHtmlResponse 404 (Verify.errorHtml "This link is invalid or has expired."),
     (Verify.get 2000 (Some exToken) exDb).2).
Proof.
  apply (verify_token_single_use 2000 3000 exToken exPending exDb).
  - by left.
  - reflexivity.
  - reflexivity.
  - intros r' Hr' _. by apply list_elem_of_singleton in Hr'.
  - reflexivity.
Defined.



Lemma subscribe_twice_idempotent_witness :
  let out1 := Subscribe.post 2000 exPass (exSubscribe "New@Reader.org" None) exDb in
  let out2 :=
    Subscribe.post 3000 exPass (exSubscribe "New@Reader.org" (Some "Nina")) out1.2 in
  success (json_body out1.1) = true /\ error (json_body out1.1) = None /\
  success (json_body out2.1) = true /\ error (json_body out2.1) = None /\
  (exists r, firstByEmail (normalize "New@Reader.org") out2.2 = Some r /\
             Js.truthyNum (sub_verified r) = true /\
             Js.truthyNum (sub_active r) = true) /\
  (uniqueEmails exDb ->
   forall r, r ∈ rows out2.2 -> sub_email r = normalize "New@Reader.org" ->
             Js.truthyNum (sub_verified r) = true /\
             Js.truthyNum (sub_active r) = true).
Proof.
  apply (subscribe_twice_idempotent 2000 3000 exPass exPass "New@Reader.org"
           "turnstile-response" "turnstile-response" None (Some "Nina") exDb).
  - reflexivity.
  - discriminate.
  - reflexivity.
  - discriminate.
  - reflexivity.
Defined.

(** C5 as stated fails: the stored name "Alice" of an unverified row is
    overwritten by the provided name "Bob". *)
Lemma subscribe_overwrites_stored_name :
  firstByEmail (normalize "A@X.com ") exDb = Some exPending /\
  sub_verified exPending = 0 /\
  sub_name exPending = Some "Alice" /\
  rows (Subscribe.post 2000 exPass (exSubscribe "A@X.com " (Some " Bob ")) exDb).2
  = [mkSubscriber 1 "a@x.com" (Some "Bob") (Some exToken) 1 1 (unixepoch 1000)
       (Some (CURRENT_TIMESTAMP 2000))].
Proof. repeat split. Qed.

Lemma subscribe_auto_verifies_unverified_witness :
  let out := Subscribe.post 2000 exPass (exSubscribe "A@X.com " None) exDb in
  out.1 = jsonMessage Subscribe.subscribed /\
  rows out.2
  = (fun r =>
       if sub_id r =? sub_id exPending then
         mkSubscriber (sub_id r) (sub_email r)
           (match Subscribe.sanitizeName None with
            | Some provided => Some provided
            | None => sub_name r
            end)
           (sub_verification_token r) 1 1 (sub_created_at r)
           (Some (CURRENT_TIMESTAMP 2000))
       else r) <$> rows exDb.
Proof.
  apply (subscribe_auto_verifies_unverified 2000 exPass "A@X.com "
           "turnstile-response" None exPending exDb).
  - reflexivity.
  - discriminate.
  - reflexivity.
  - reflexivity.
  - reflexivity.
Defined.



(** C6 as stated fails: after the upload of report [r1] nothing is stored
    under [reports/r1]; the body and the entry's content key are at
    [reports/r1.html]. *)
Lemma put_report_key_has_html_suffix :
  postAccepted (exPut "r1" "2025-12-05" "7") exEnv = true /\
  ARCHIVE_R2 exEnv1 !! "reports/r1" = None /\
  ARCHIVE_R2 exEnv1 !! "reports/r1.html" = Some exBody /\
  r2_key <$> storedReports exEnv1 = ["reports/r1.html"].
Proof. repeat split; vm_compute; reflexivity. Qed.

Lemma put_report_writes_html_key_witness :
  let req := exPut "r1" "2025-12-05" "7" in
  let out := post codeUnitCompare "2025-12-05T08:13:00Z" req exEnv in
  ARCHIVE_R2 out.2 !! ("reports/" +:+ "r1" +:+ ".html") = Some (text req) /\
  (forall k, k <> "reports/" +:+ "r1" +:+ ".html" ->
             ARCHIVE_R2 out.2 !! k = ARCHIVE_R2 exEnv !! k) /\
  (exists r, r ∈ storedReports out.2 /\ id r = "r1" /\
             r2_key r = "reports/" +:+ "r1" +:+ ".html" /\
             data (json_body out.1) = Some r) /\
  (distinctIds (storedReports exEnv) ->
   forall r, r ∈ storedReports out.2 -> id r = "r1" ->
             r2_key r = "reports/" +:+ "r1" +:+ ".html").
Proof.
  apply (put_report_writes_html_key codeUnitCompare "2025-12-05T08:13:00Z"
           (exPut "r1" "2025-12-05" "7") exEnv).
  reflexivity.
Defined.



(** C8 as stated fails: a body that supplies an empty title for a
    report that is in the index is rejected with 400, and nothing is
    updated. *)
Lemma patch_empty_title_rejected :
  isAuthorized exAuth exEnv1 = true /\
  id <$> storedReports exEnv1 = ["r1"] /\
  patch "t" exAuth "r1" (Some (mkPatch (Some "") None)) exEnv1
  = (jsonError "Request body must contain at least one of: title, summary" 400,
     exEnv1).
Proof. repeat split; vm_compute; reflexivity. Qed.

Lemma patch_report_meta_updates_supplied_fields_witness :
  let body := mkPatch (Some "A new title") None in
  let out := patch "t" exAuth "r1" (Some body) exEnv1 in
  (Js.truthy (patch_title body) = false ->
   Js.truthy (patch_summary body) = false ->
   json_status out.1 = 400 /\ success (json_body out.1) = false /\ out.2 = exEnv1) /\
  (Js.truthy (patch_title body) = true \/ Js.truthy (patch_summary body) = true ->
   (forall r, r ∈ storedReports exEnv1 -> id r <> "r1") ->
   json_status out.1 = 404 /\ success (json_body out.1) = false /\ out.2 = exEnv1) /\
  (Js.truthy (patch_title body) = true \/ Js.truthy (patch_summary body) = true ->
   forall (i : nat) (r : ReportMetaJson),
     storedReports exEnv1 !! i = Some r -> id r = "r1" ->
     (forall j y, (j < i)%nat -> storedReports exEnv1 !! j = Some y -> id y <> "r1") ->
     json_status out.1 = 200 /\
     data (json_body out.1) = Some (patched body r) /\
     storedReports out.2 = <[i := patched body r]> (storedReports exEnv1) /\
     ARCHIVE_R2 out.2 = ARCHIVE_R2 exEnv1).
Proof.
  apply (patch_report_meta_updates_supplied_fields "t" exAuth "r1"
           (mkPatch (Some "A new title") None) exEnv1).
  vm_compute. reflexivity.
Defined.

(** C9 as stated fails: the two causes are both answered 404, but with
    different bodies, so the caller can tell them apart. *)
Lemma get_report_replies_differ :
  getReport "t" "r1" exEnv = ReportJson (jsonError "Report not found" 404) /\
  getReport "t" "r1" exEnvNoBody
  = ReportJson (jsonError "Report content not found in storage" 404) /\
  getReport "t" "r1" exEnv <> getReport "t" "r1" exEnvNoBody.
Proof.
  assert (H1 : getReport "t" "r1" exEnv = ReportJson (jsonError "Report not found" 404))
    by (vm_compute; reflexivity).
  assert (H2 : getReport "t" "r1" exEnvNoBody
               = ReportJson (jsonError "Report content not found in storage" 404))
    by (vm_compute; reflexivity).
  rewrite H1, H2. repeat split. discriminate.
Qed.

Lemma get_report_not_found_twice_witness :
  getReport "t" "r1" exEnv = ReportJson (jsonError "Report not found" 404) /\
  getReport "t" "r1" exEnvNoBody
  = ReportJson (jsonError "Report content not found in storage" 404).
Proof.
  split.
  - apply (get_report_not_found_twice "t" "r1" exEnv).
    intros r Hr. by apply elem_of_nil in Hr.
  - apply (proj1 (proj2 (get_report_not_found_twice "t" "r1" exEnvNoBody))
             (submittedJson (exPut "r1" "2025-12-05" "7"))).
    + vm_compute. reflexivity.
    + vm_compute. reflexivity.
Defined.



End Samples.

(** * Further properties of the code *)

(** ** Hexadecimal rendering and the tokens *)

Section TokenFacts.

Lemma allChars_app (p : ascii -> bool) (s t : string) :
  allChars p (s +:+ t) = allChars p s && allChars p t.
Proof.
  induction s as [|c s IH]; [reflexivity|].
  change (String c s +:+ t) with (String c (s +:+ t)).
  cbn [allChars]. by rewrite IH, andb_assoc.
Qed.

Lemma allChars_impl (p q : ascii -> bool) (s : string) :
  (forall c, p c = true -> q c = true) -> allChars p s = true -> allChars q s = true.
Proof.
  intros Hpq. induction s as [|c s IH]; [reflexivity|].
  cbn [allChars]. rewrite !andb_true_iff. intros [Hc Hs]. auto.
Qed.

Lemma hex2_lower (b : byte) : allChars isLowerHex (Js.hex2 b) = true.
Proof. by destruct b. Qed.

Lemma unhex_hex2 (b : byte) (rest : string) :
  unhex (Js.hex2 b +:+ rest) = b :: unhex rest.
Proof. by destruct b. Qed.

Lemma join_hex2_lower (bs : list byte) :
  allChars isLowerHex (Js.join (Js.hex2 <$> bs)) = true.
Proof.
  induction bs as [|b bs IH]; [reflexivity|].
  rewrite fmap_cons. cbn [Js.join]. by rewrite allChars_app, hex2_lower, IH.
Qed.

Lemma unhex_join (bs : list byte) : unhex (Js.join (Js.hex2 <$> bs)) = bs.
Proof.
  induction bs as [|b bs IH]; [reflexivity|].
  rewrite fmap_cons. cbn [Js.join]. by rewrite unhex_hex2, IH.
Qed.

(** X1: a verification token made from 16 random bytes has 32 characters,
    all of them digits or [a]..[f], and so passes the format check of
    the verify route, which then answers 200 or 404, never 400. *)
Theorem verification_token_well_formed
    (bytes : list byte) (now : Z) (db : Schema.D1Database) :
  length bytes = 16%nat ->
  let token := Token.generateVerificationToken bytes in
  Js.length token = 32 /\
  allChars isLowerHex token = true /\
  (html_status (Verify.get now (Some token) db).1 = 200
   \/ html_status (Verify.get now (Some token) db).1 = 404).
Proof.
  intros Hlen token.
  assert (Hl : Js.length token = 32).
  { unfold Js.length, token, Token.generateVerificationToken.
    rewrite length_join_hex2, Hlen. reflexivity. }
  split; [exact Hl|]. split; [apply join_hex2_lower|].
  rewrite verify_get_good_token by exact Hl.
  destruct (Schema.firstByToken token db) as [r|]; [|by right].
  destruct (Js.truthyNum (Schema.sub_verified r)); by left.
Qed.

(** X2: the hexadecimal rendering loses nothing: two byte arrays that
    give the same verification token are the same array. *)
Theorem verification_token_injective (bytes1 bytes2 : list byte) :
  Token.generateVerificationToken bytes1 = Token.generateVerificationToken bytes2 ->
  bytes1 = bytes2.
Proof.
  unfold Token.generateVerificationToken. intros H.
  by rewrite <- (unhex_join bytes1), <- (unhex_join bytes2), H.
Qed.

Variable hmacSha256 : list byte -> list byte -> list byte.
Hypothesis hmacSha256_length :
  forall key msg : list byte, length (hmacSha256 key msg) = 32%nat.

(** X3: under a secret that is not empty, [generateHmacToken] returns a
    token; it has 64 characters, all of them digits or [a]..[f], and does
    not depend on the case of the email: the token of an email is the
    token of its lower-cased form.  Under the empty secret it returns
    none. *)
Theorem hmac_token_format_and_case (secret email : string) :
  (secret <> "" ->
   exists token,
     Hmac.generateHmacToken hmacSha256 secret email = Some token /\
     Js.length token = 64 /\
     allChars isLowerHex token = true /\
     Hmac.generateHmacToken hmacSha256 secret (Js.toLowerCase email) = Some token) /\
  (secret = "" -> Hmac.generateHmacToken hmacSha256 secret email = None).
Proof.
  split.
  - intros Hs. exists (hmacHex hmacSha256 secret (Js.toLowerCase email)).
    split; [by apply generateHmacToken_Some|]. split; [|split].
    + unfold Js.length, hmacHex. by rewrite length_join_hex2, hmacSha256_length.
    + apply join_hex2_lower.
    + by rewrite generateHmacToken_Some, toLowerCase_idem.
  - intros ->. apply generateHmacToken_empty.
Qed.

End TokenFacts.

(** ** [encodeURIComponent] *)

Section UriFacts.

Lemma encodeUnit_safe (c : ascii) :
  allChars (fun c => Uri.isUnreserved c || Ascii.eqb c "%") (Uri.encodeUnit c) = true.
Proof. destruct c as [[] [] [] [] [] [] [] []]; vm_compute; reflexivity. Qed.

Lemma encodeUnit_unreserved (c : ascii) :
  Uri.isUnreserved c = true -> Uri.encodeUnit c = String c EmptyString.
Proof. intros H. unfold Uri.encodeUnit. by rewrite H. Qed.

(** X4: the result of [encodeURIComponent] holds only unreserved
    characters and [%]; in particular it holds none of the characters that
    structure a query string.  A string of unreserved characters is left as
    it is. *)
Theorem encodeURIComponent_safe (s : string) :
  allChars (fun c => Uri.isUnreserved c || Ascii.eqb c "%") (Uri.encodeURIComponent s) = true /\
  allChars (fun c => negb (Ascii.eqb c "&") && negb (Ascii.eqb c "=")
                     && negb (Ascii.eqb c "?") && negb (Ascii.eqb c "#")
                     && negb (Ascii.eqb c " ") && negb (Ascii.eqb c "+")
                     && negb (Ascii.eqb c "/"))
    (Uri.encodeURIComponent s) = true /\
  (allChars Uri.isUnreserved s = true -> Uri.encodeURIComponent s = s).
Proof.
  assert (Hsafe : allChars (fun c => Uri.isUnreserved c || Ascii.eqb c "%")
                    (Uri.encodeURIComponent s) = true).
  { induction s as [|c s IH]; [reflexivity|].
    cbn [Uri.encodeURIComponent]. by rewrite allChars_app, encodeUnit_safe, IH. }
  split; [exact Hsafe|]. split.
  - revert Hsafe. apply allChars_impl.
    intros c. destruct c as [[] [] [] [] [] [] [] []]; vm_compute; congruence.
  - induction s as [|c s IH]; [reflexivity|].
    cbn [allChars Uri.encodeURIComponent]. rewrite andb_true_iff. intros [Hc Hs].
    rewrite encodeUnit_unreserved by exact Hc.
    change (String c "" +:+ Uri.encodeURIComponent s)
      with (String c (Uri.encodeURIComponent s)).
    f_equal. apply IH; [|exact Hs].
    cbn [Uri.encodeURIComponent] in Hsafe. rewrite allChars_app in Hsafe.
    by apply andb_true_iff in Hsafe as [_ ?].
Qed.

End UriFacts.

(** ** lib/turnstile.ts and the checks of the subscribe route *)

Section SubscribeChecks.
Import Schema.

Lemma validateTurnstile_failure (reply : Turnstile.FetchOutcome) :
  Turnstile.ok (Turnstile.validateTurnstile reply) = false ->
  exists msg, Turnstile.err (Turnstile.validateTurnstile reply) = Some msg /\
              msg <> "" /\ msg <> "Captcha failed".
Proof.
  destruct reply as [| |[] codes]; simpl; intros H; try discriminate.
  - eexists. split; [reflexivity|]. split; discriminate.
  - eexists. split; [reflexivity|]. split; discriminate.
  - eexists. split; [reflexivity|].
    split; intros Heq; apply (f_equal (String.get 0)) in Heq; vm_compute in Heq;
      discriminate.
Qed.

Lemma null_or_not (b : Js.Json) : b = Js.JNull \/ b <> Js.JNull.
Proof. destruct b; [by left|by right..]. Qed.

(** A value other than [null] hands its three fields to the handler. *)
Lemma post_fields (now : Z) (reply : Turnstile.FetchOutcome) (b : Js.Json)
    (db : D1Database) :
  b <> Js.JNull ->
  Subscribe.post now reply (Some b) db
  = Subscribe.handle now reply (Js.prop "email" b) (Js.prop "name" b)
      (Js.prop "turnstileToken" b) db.
Proof. by destruct b. Qed.

(** [name?.trim()] throws exactly for a value that is there, is not
    [null] and is not a string. *)
Lemma name_throws (n : option Js.Json) :
  negb (Js.nullish n) && negb (Js.isString n) = true <->
  exists v, n = Some v /\ v <> Js.JNull /\ forall x, v <> Js.JString x.
Proof.
  split.
  - destruct n as [[| | |x| |]|]; simpl; try discriminate; intros _;
      eexists; (split; [reflexivity|]); split; discriminate.
  - intros (v & -> & Hnull & Hstr). destruct v; simpl; try reflexivity.
    + contradiction.
    + by destruct (Hstr s).
Qed.

Lemma handle_name_throws (now : Z) (reply : Turnstile.FetchOutcome)
    (email token : string) (n : option Js.Json) (db : D1Database) :
  validShape email -> token <> "" ->
  (exists v, n = Some v /\ v <> Js.JNull /\ forall x, v <> Js.JString x) ->
  Subscribe.handle now reply (Some (Js.JString email)) n (Some (Js.JString token)) db
  = (jsonError "An unexpected error occurred." 500, db).
Proof.
  intros Hs Ht Hn. unfold Subscribe.handle.
  rewrite (proj2 (field_present (Some (Js.JString email))))
    by (exists email; split; [reflexivity|by apply validShape_nonempty]).
  rewrite (proj2 (field_present (Some (Js.JString token)))) by (by exists token).
  cbn [Js.asString default from_option id]. fold (normalize email).
  unfold validShape in Hs. rewrite Hs. cbn [negb].
  by rewrite (proj2 (name_throws n) Hn).
Qed.

(** The handler on three fields: it fails a check, and answers 400 or 500
    with the table untouched, or it behaves as on a typed request that is
    well formed and has a passing captcha. *)
Lemma handle_cases (now : Z) (reply : Turnstile.FetchOutcome)
    (e n t : option Js.Json) (db : D1Database) :
  (exists msg status,
     Subscribe.handle now reply e n t db = (jsonError msg status, db)
     /\ (status = 400 \/
         status = 500 /\
         (exists email, e = Some (Js.JString email) /\ validShape email) /\
         (exists token, t = Some (Js.JString token) /\ token <> "") /\
         negb (Js.nullish n) && negb (Js.isString n) = true)
     /\ msg <> "Captcha failed") \/
  (exists email name token,
     Subscribe.handle now reply e n t db
     = Subscribe.handle now reply (Some (Js.JString email)) (Js.JString <$> name)
         (Some (Js.JString token)) db /\
     negb (Js.nullish n) && negb (Js.isString n) = false /\
     validShape email /\ token <> "" /\ captchaPasses reply).
Proof.
  unfold Subscribe.handle at 1 2.
  destruct (negb (Js.truthyValue e) || negb (Js.isString e)) eqn:He;
    [left; eexists _, _; split; [reflexivity|split; [by left|discriminate]]|].
  destruct (negb (Js.truthyValue t) || negb (Js.isString t)) eqn:Ht;
    [left; eexists _, _; split; [reflexivity|split; [by left|discriminate]]|].
  apply field_present in He as (email & -> & He).
  apply field_present in Ht as (token & -> & Ht).
  cbn [Js.asString default from_option id]. fold (normalize email).
  destruct (Js.test Subscribe.EMAIL_REGEX (normalize email)) eqn:Hshape; cbn [negb];
    [|left; eexists _, _; split; [reflexivity|split; [by left|discriminate]]].
  destruct (negb (Js.nullish n) && negb (Js.isString n)) eqn:Hn.
  { left. eexists _, _. split; [reflexivity|]. split; [|discriminate].
    right. split; [reflexivity|]. split; [by exists email|]. split; [by exists token|done]. }
  destruct (Turnstile.ok (Turnstile.validateTurnstile reply)) eqn:Hok; cbn [negb].
  - right. exists email, (Js.asString n), token.
    split; [|by repeat split].
    unfold Subscribe.handle.
    rewrite (proj2 (field_present (Some (Js.JString email)))) by (by exists email).
    rewrite (proj2 (field_present (Some (Js.JString token)))) by (by exists token).
    cbn [Js.asString default from_option id]. fold (normalize email).
    rewrite Hshape, Hok. cbn [negb].
    by destruct n as [[| | |x| |]|].
  - left. destruct (validateTurnstile_failure reply Hok) as (msg & Hmsg & Hne & Hnc).
    rewrite Hmsg. rewrite (proj2 (truthy_Some msg) Hne). cbn [default from_option id].
    eexists _, _. split; [reflexivity|]. split; [by left|exact Hnc].
Qed.

(** Every request either fails a check, and is answered 400 or 500 with
    the table untouched, or is answered as a well-formed typed request
    with a passing captcha is. *)
Lemma subscribe_post_cases (now : Z) (reply : Turnstile.FetchOutcome)
    (body : option Js.Json) (db : D1Database) :
  (exists msg status,
     Subscribe.post now reply body db = (jsonError msg status, db)
     /\ (status = 400 \/ status = 500) /\ msg <> "Captcha failed") \/
  (exists email name token,
     Subscribe.post now reply body db
     = Subscribe.post now reply
         (Some (Subscribe.mkRequest (Some email) name (Some token))) db /\
     validShape email /\ token <> "" /\ captchaPasses reply).
Proof.
  destruct body as [b|];
    [|left; eexists _, _; split; [reflexivity|split; [by left|discriminate]]].
  destruct (null_or_not b) as [->|Hb];
    [left; eexists _, _; split; [reflexivity|split; [by right|discriminate]]|].
  rewrite post_fields by exact Hb.
  destruct (handle_cases now reply (Js.prop "email" b) (Js.prop "name" b)
              (Js.prop "turnstileToken" b) db)
    as [(msg & status & -> & Hst & Hmsg)|(email & name & token & -> & _ & Hs & Ht & Hc)].
  - left. exists msg, status. split; [reflexivity|]. split; [|exact Hmsg].
    destruct Hst as [?|[? _]]; auto.
  - right. exists email, name, token. by rewrite post_typed.
Qed.

(** X5: the Turnstile check passes only on a reply that says success;
    every other outcome (a thrown fetch, a non-2xx reply, a reply without
    success) comes with a non-empty message, so the subscribe route never
    answers its fallback "Captcha failed". *)
Theorem turnstile_failures_carry_a_message
    (reply : Turnstile.FetchOutcome) (now : Z)
    (body : option Js.Json) (db : D1Database) :
  let result := Turnstile.validateTurnstile reply in
  (Turnstile.ok result = true <-> exists codes, reply = Turnstile.FetchJson true codes) /\
  (Turnstile.ok result = false ->
   exists msg, Turnstile.err result = Some msg /\ msg <> "") /\
  error (json_body (Subscribe.post now reply body db).1) <> Some "Captcha failed".
Proof.
  intros result. split; [|split].
  - subst result. destruct reply as [| |[] codes]; simpl; split;
      try discriminate; try (intros [c Hc]; discriminate).
    + intros _. by eexists.
    + reflexivity.
  - intros Hok. destruct (validateTurnstile_failure reply Hok) as (msg & ? & ? & _).
    by exists msg.
  - destruct (subscribe_post_cases now reply body db)
      as [(msg & status & -> & _ & Hmsg)|(email & name & token & -> & Hs & Ht & Hc)].
    + simpl. congruence.
    + pose proof (subscribe_post_outcome now reply email token name db Hs Ht Hc)
        as (_ & _ & Herr & _).
      rewrite Herr. discriminate.
Qed.

(** X6: the subscribe route answers 200, 400 or 500, and a request it
    answers with an error leaves the table exactly as it was.  It answers
    500 exactly when the body is the JSON value [null], or when the body
    carries an email of the accepted shape and a Turnstile token, both
    strings, together with a name that is neither a string nor [null]. *)
Theorem subscribe_errors_leave_table_unchanged
    (now : Z) (reply : Turnstile.FetchOutcome)
    (body : option Js.Json) (db : D1Database) :
  let out := Subscribe.post now reply body db in
  ((json_status out.1 = 200 /\ success (json_body out.1) = true) \/
   ((json_status out.1 = 400 \/ json_status out.1 = 500) /\
    success (json_body out.1) = false /\ out.2 = db)) /\
  (json_status out.1 = 500 <->
   body = Some Js.JNull \/
   exists b email token v,
     body = Some b /\
     Js.prop "email" b = Some (Js.JString email) /\ validShape email /\
     Js.prop "turnstileToken" b = Some (Js.JString token) /\ token <> "" /\
     Js.prop "name" b = Some v /\ v <> Js.JNull /\ (forall x, v <> Js.JString x)).
Proof.
  intros out. subst out. split.
  { destruct (subscribe_post_cases now reply body db)
      as [(msg & status & -> & Hst & _)|(email & name & token & -> & Hs & Ht & Hc)].
    - right. cbn [fst snd json_status json_body success jsonError]. by repeat split.
    - left.
      pose proof (subscribe_post_outcome now reply email token name db Hs Ht Hc)
        as (Hst & Hsucc & _). by split. }
  destruct body as [b|]; [|split; [discriminate|]].
  2:{ intros [?|(b & ? & ? & ? & ? & _)]; discriminate. }
  destruct (null_or_not b) as [->|Hb].
  { split; [by left|reflexivity]. }
  rewrite post_fields by exact Hb.
  destruct (handle_cases now reply (Js.prop "email" b) (Js.prop "name" b)
              (Js.prop "turnstileToken" b) db)
    as [(msg & status & Heq & Hst & _)|(email & name & token & -> & Hn & Hs & Ht & Hc)].
  - split.
    + rewrite Heq. cbn [fst json_status jsonError]. intros ->.
      destruct Hst as [?|(_ & (email & He & Hs) & (token & Ht & Hne) & Hn)];
        [discriminate|].
      apply name_throws in Hn as (v & Hv & Hnull & Hstr). right.
      by exists b, email, token, v.
    + intros [?|(b' & email & token & v & [= <-] & He & Hs & Ht & Hne & Hv & Hnull & Hstr)];
        [congruence|].
      rewrite He, Ht, Hv. by rewrite handle_name_throws by (assumption || by exists v).
  - change (Some (Js.JString email)) with (Js.JString <$> Some email).
    change (Some (Js.JString token)) with (Js.JString <$> Some token).
    rewrite <- post_typed.
    pose proof (subscribe_post_outcome now reply email token name db Hs Ht Hc)
      as (Hst & _). rewrite Hst. split; [discriminate|].
    intros [?|(b' & email' & token' & v & [= <-] & _ & _ & _ & _ & Hv & Hnull & Hstr)];
      [congruence|].
    rewrite (proj2 (name_throws (Js.prop "name" b))) in Hn; [discriminate|].
    by exists v.
Qed.

(** X7: a well-formed request for an email the table does not hold
    appends exactly one row: normalised email, sanitised name, verified
    and active, no verification token, an id above every id in the table
    and above the AUTOINCREMENT counter, which moves to it.  The rows
    already there are not touched. *)
Theorem subscribe_new_email_inserts_one_row
    (now : Z) (reply : Turnstile.FetchOutcome)
    (email token : string) (name : option string) (db : D1Database) :
  validShape email -> token <> "" -> captchaPasses reply ->
  firstByEmail (normalize email) db = None ->
  let out :=
    Subscribe.post now reply
      (Some (Subscribe.mkRequest (Some email) name (Some token))) db in
  out.1 = jsonMessage Subscribe.subscribed /\
  exists i,
    rows out.2
    = rows db ++ [mkSubscriber i (normalize email) (Subscribe.sanitizeName name)
                    None 1 1 (unixepoch now) (Some (CURRENT_TIMESTAMP now))] /\
    sqlite_sequence out.2 = i /\
    sqlite_sequence db < i /\
    Forall (fun r => sub_id r < i) (rows db).
Proof.
  intros Hs Ht Hc Hnone out. subst out.
  rewrite subscribe_post_valid, Hnone by assumption.
  unfold insertVerified. rewrite Hnone. cbn [fst snd rows sqlite_sequence].
  split; [reflexivity|]. eexists. split; [reflexivity|]. split; [reflexivity|].
  generalize (sqlite_sequence db). intros s.
  induction (rows db) as [|r l IH]; cbn [fmap list_fmap foldr].
  - split; [lia|constructor].
  - destruct IH as [IH1 IH2]. split; [lia|].
    constructor; [lia|]. eapply Forall_impl; [exact IH2|]. intros x Hx. simpl in Hx. lia.
Qed.

(** X8: once a subscribe request for an email has succeeded, every further
    well-formed request for it is answered "You are already subscribed!"
    and changes nothing in the table. *)
Theorem subscribe_again_changes_nothing
    (now1 now2 : Z) (reply1 reply2 : Turnstile.FetchOutcome)
    (email token1 token2 : string) (name1 name2 : option string)
    (db : D1Database) :
  validShape email ->
  token1 <> "" -> captchaPasses reply1 ->
  token2 <> "" -> captchaPasses reply2 ->
  let db1 :=
    (Subscribe.post now1 reply1
       (Some (Subscribe.mkRequest (Some email) name1 (Some token1))) db).2 in
  Subscribe.post now2 reply2
    (Some (Subscribe.mkRequest (Some email) name2 (Some token2))) db1
  = (jsonMessage "You are already subscribed!", db1).
Proof.
  intros Hs Ht1 Hc1 Ht2 Hc2 db1.
  pose proof (subscribe_post_outcome now1 reply1 email token1 name1 db Hs Ht1 Hc1)
    as (_ & _ & _ & r & Hfind & Hv & Ha).
  rewrite subscribe_post_valid by assumption.
  fold db1 in Hfind. by rewrite Hfind, Hv, Ha.
Qed.

End SubscribeChecks.

(** ** Normal forms of emails and names *)

Section NormalForms.

Lemma trimEnd_cons (c : ascii) (s : string) :
  Js.trimEnd (String c s)
  = match Js.trimEnd s with
    | EmptyString => if Js.isWhiteSpace c then EmptyString else String c EmptyString
    | t => String c t
    end.
Proof. reflexivity. Qed.

Lemma trimEnd_idem (s : string) : Js.trimEnd (Js.trimEnd s) = Js.trimEnd s.
Proof.
  induction s as [|c s IH]; [reflexivity|].
  rewrite trimEnd_cons. destruct (Js.trimEnd s) as [|d u] eqn:Hu.
  - destruct (Js.isWhiteSpace c) eqn:Hc; [reflexivity|].
    rewrite trimEnd_cons. cbn [Js.trimEnd]. by rewrite Hc.
  - rewrite trimEnd_cons. by rewrite IH.
Qed.

Lemma trimStart_fixed (s : string) :
  match s with
  | EmptyString => True
  | String c _ => Js.isWhiteSpace c = false
  end -> Js.trimStart s = s.
Proof. destruct s as [|c s]; [reflexivity|]. simpl. by intros ->. Qed.

Lemma trimStart_head (s : string) :
  match Js.trimStart s with
  | EmptyString => True
  | String c _ => Js.isWhiteSpace c = false
  end.
Proof.
  induction s as [|c s IH]; [exact I|].
  cbn [Js.trimStart]. by destruct (Js.isWhiteSpace c) eqn:Hc.
Qed.

Lemma trimEnd_head (s : string) :
  match s with
  | EmptyString => True
  | String c _ => Js.isWhiteSpace c = false
  end ->
  match Js.trimEnd s with
  | EmptyString => True
  | String c _ => Js.isWhiteSpace c = false
  end.
Proof.
  destruct s as [|c s]; [done|]. intros Hc. rewrite trimEnd_cons.
  destruct (Js.trimEnd s); [by rewrite Hc|exact Hc].
Qed.

(** [trim] is idempotent. *)
Lemma trim_idem (s : string) : Js.trim (Js.trim s) = Js.trim s.
Proof.
  unfold Js.trim.
  rewrite (trimStart_fixed (Js.trimEnd (Js.trimStart s)))
    by apply trimEnd_head, trimStart_head.
  apply trimEnd_idem.
Qed.

(** Normalising an email twice is normalising it once. *)
Lemma normalize_idem (email : string) : normalize (normalize email) = normalize email.
Proof.
  unfold normalize at 1. rewrite toLowerCase_normalize. apply trim_idem.
Qed.

Lemma length_slice0 (n : nat) (s : string) : (String.length (Js.slice0 n s) <= n)%nat.
Proof.
  revert s. induction n as [|n IH]; intros [|c s]; simpl; try lia.
  specialize (IH s). lia.
Qed.

Lemma sanitizeName_ok (name : option string) : nameOk (Subscribe.sanitizeName name).
Proof.
  unfold Subscribe.sanitizeName. destruct name as [n|]; [|exact I].
  destruct (Js.truthy (Some (Js.slice0 100 (Js.trim n)))) eqn:Ht; [|exact I].
  split; [by apply truthy_Some|apply length_slice0].
Qed.

End NormalForms.

(** ** The invariant of the subscribers table *)

Section TableInvariant.
Import Schema.

Variable hmacSha256 : list byte -> list byte -> list byte.
Variable HMAC_SECRET : string.

Lemma ids_updateWhere (cond : Subscriber -> bool) (set : Subscriber -> Subscriber)
    (db : D1Database) :
  (forall r, sub_id (set r) = sub_id r) ->
  sub_id <$> rows (updateWhere cond set db) = sub_id <$> rows db.
Proof.
  intros Hset. unfold updateWhere. cbn [rows]. rewrite <- list_fmap_compose.
  apply list_fmap_ext. intros _ r _. simpl. destruct (cond r); [apply Hset|reflexivity].
Qed.

(** An update that keeps id and email, and maps good rows to good rows,
    keeps the invariant. *)
Lemma dbOk_updateWhere (cond : Subscriber -> bool) (set : Subscriber -> Subscriber)
    (db : D1Database) :
  (forall r, sub_id (set r) = sub_id r) ->
  (forall r, sub_email (set r) = sub_email r) ->
  (forall r, rowOk r -> rowOk (set r)) ->
  dbOk db -> dbOk (updateWhere cond set db).
Proof.
  intros Hid Hemail Hrow (Hids & Hemails & Hseq & Hrows).
  unfold dbOk, uniqueEmails. rewrite ids_updateWhere, emails_updateWhere by assumption.
  split; [exact Hids|]. split; [exact Hemails|].
  unfold updateWhere. cbn [rows sqlite_sequence]. split.
  - apply Forall_fmap. eapply Forall_impl; [exact Hseq|].
    intros r Hr. simpl. destruct (cond r); [by rewrite Hid|exact Hr].
  - apply Forall_fmap. eapply Forall_impl; [exact Hrows|].
    intros r Hr. simpl. destruct (cond r); [by apply Hrow|exact Hr].
Qed.

Lemma foldr_max_bound (s : Z) (l : list Z) :
  s <= foldr Z.max s l /\ Forall (fun x => x <= foldr Z.max s l) l.
Proof.
  induction l as [|x l [IH1 IH2]]; cbn [foldr]; [split; [lia|constructor]|].
  split; [lia|]. constructor; [lia|].
  eapply Forall_impl; [exact IH2|]. intros y Hy. simpl in Hy. lia.
Qed.

Lemma dbOk_insertVerified (now : Z) (email : string) (name : option string)
    (db db' : D1Database) :
  validShape email ->
  insertVerified now (normalize email) (Subscribe.sanitizeName name) db = Some db' ->
  dbOk db -> dbOk db'.
Proof.
  intros Hshape Hins (Hids & Hemails & Hseq & Hrows).
  unfold insertVerified in Hins.
  destruct (firstByEmail (normalize email) db) eqn:Hfind; [discriminate|].
  injection Hins as <-.
  destruct (foldr_max_bound (sqlite_sequence db) (sub_id <$> rows db)) as [Hb1 Hb2].
  set (i := foldr Z.max (sqlite_sequence db) (sub_id <$> rows db) + 1) in *.
  unfold dbOk, uniqueEmails. cbn [rows sqlite_sequence].
  rewrite !fmap_app. cbn [fmap list_fmap sub_id sub_email].
  split; [|split; [|split]].
  - apply NoDup_app. split; [exact Hids|]. split; [|apply NoDup_singleton].
    intros x Hx [->|Hin%elem_of_nil]%elem_of_cons; [|done].
    rewrite Forall_forall in Hb2. specialize (Hb2 _ Hx). simpl in Hb2. lia.
  - apply NoDup_app. split; [exact Hemails|]. split; [|apply NoDup_singleton].
    intros e He [->|Hin%elem_of_nil]%elem_of_cons; [|done].
    apply list_elem_of_fmap in He as (r & Hr & Hin).
    unfold firstByEmail in Hfind. rewrite find_None_iff in Hfind.
    specialize (Hfind r Hin). apply String.eqb_neq in Hfind. cbn in Hr. congruence.
  - apply Forall_app. split.
    + rewrite Forall_fmap in Hb2. eapply Forall_impl; [exact Hb2|].
      intros r Hr. simpl in Hr. lia.
    + constructor; [simpl; lia|constructor].
  - apply Forall_app. split; [exact Hrows|].
    constructor; [|constructor].
    unfold rowOk. cbn [sub_verified sub_active sub_email sub_name].
    repeat split; auto using normalize_idem, sanitizeName_ok.
Qed.

Lemma dbOk_subscribe (now : Z) (reply : Turnstile.FetchOutcome)
    (body : option Js.Json) (db : D1Database) :
  dbOk db -> dbOk (Subscribe.post now reply body db).2.
Proof.
  intros Hok.
  destruct (subscribe_post_cases now reply body db)
    as [(msg & status & -> & _)|(email & name & token & -> & Hs & Ht & Hc)];
    [exact Hok|].
  rewrite subscribe_post_valid by assumption.
  destruct (firstByEmail (normalize email) db) as [existing|] eqn:Hfind.
  - destruct (Js.truthyNum (sub_verified existing)), (Js.truthyNum (sub_active existing));
      cbn [andb negb snd]; try exact Hok.
    + apply dbOk_updateWhere; try reflexivity; [|exact Hok].
      intros r (Hv & _ & He & Hre & Hn). unfold rowOk. simpl. auto 10.
    + apply dbOk_updateWhere; try reflexivity; [|exact Hok].
      intros r (_ & _ & He & Hre & Hn). unfold rowOk. simpl.
      repeat split; auto.
      unfold COALESCE. pose proof (sanitizeName_ok name) as Hs'.
      by destruct (Subscribe.sanitizeName name).
    + apply dbOk_updateWhere; try reflexivity; [|exact Hok].
      intros r (_ & _ & He & Hre & Hn). unfold rowOk. simpl.
      repeat split; auto.
      unfold COALESCE. pose proof (sanitizeName_ok name) as Hs'.
      by destruct (Subscribe.sanitizeName name).
  - destruct (insertVerified now (normalize email) (Subscribe.sanitizeName name) db)
      as [db'|] eqn:Hins; [|exact Hok].
    cbn [snd]. by eapply dbOk_insertVerified.
Qed.

Lemma verify_get_db (now : Z) (token : option string) (db : D1Database) :
  (Verify.get now token db).2 = db \/
  exists i, (Verify.get now token db).2 = markVerified now i db.
Proof.
  unfold Verify.get. destruct (_ || _); [by left|].
  destruct (firstByToken _ db) as [r|]; [|by left].
  destruct (Js.truthyNum (sub_verified r)); [by left|]. right. by eexists.
Qed.

Lemma unsubscribe_get_db (email token : option string) (db : D1Database) :
  (Unsubscribe.get hmacSha256 HMAC_SECRET email token db).2 = db \/
  exists e, (Unsubscribe.get hmacSha256 HMAC_SECRET email token db).2 = deactivate e db.
Proof.
  unfold Unsubscribe.get. destruct (_ || _); [by left|].
  destruct (Hmac.validateHmacToken _ _ _ _) as [[]|]; cbn [negb snd]; [|by left..].
  right. by eexists.
Qed.

Lemma dbOk_runCall (db : D1Database) (call : SubscriberCall) :
  dbOk db -> dbOk (runCall hmacSha256 HMAC_SECRET db call).
Proof.
  intros Hok. destruct call as [now reply body|now token|email token]; cbn [runCall].
  - by apply dbOk_subscribe.
  - destruct (verify_get_db now token db) as [->|[i ->]]; [exact Hok|].
    apply dbOk_updateWhere; try reflexivity; [|exact Hok].
    intros r (_ & Ha & He & Hre & Hn). unfold rowOk. simpl. auto 10.
  - destruct (unsubscribe_get_db email token db) as [->|[e ->]]; [exact Hok|].
    apply dbOk_updateWhere; try reflexivity; [|exact Hok].
    intros r (Hv & _ & He & Hre & Hn). unfold rowOk. simpl. auto 10.
Qed.

(** X9: whatever requests reach the three subscription routes, in
    whatever order and with whatever content, a table that is well formed
    stays well formed: ids and emails stay pairwise distinct, no id
    exceeds the AUTOINCREMENT counter, the flags stay 0 or 1, every email
    stays in normal form and of the accepted shape, and every name is
    absent or non-empty and at most 100 code units long. *)
Theorem subscription_routes_keep_table_well_formed
    (db : D1Database) (calls : list SubscriberCall) :
  dbOk db -> dbOk (runCalls hmacSha256 HMAC_SECRET db calls).
Proof.
  revert db. induction calls as [|call calls IH]; intros db Hok; [exact Hok|].
  cbn [runCalls foldl]. apply IH. by apply dbOk_runCall.
Qed.

End TableInvariant.

(** ** The verify and unsubscribe routes *)

Section VerifyUnsubscribe.
Import Schema.

(** X10: the verify route answers 200, 400 or 404; only a 200 can change
    the table, and then it touches nothing but [verified],
    [verification_token] and [verified_at]: ids, emails, names and the
    [active] flag of every row are as before, so verifying never
    re-activates an unsubscribed row. *)
Theorem verify_touches_only_verification_columns
    (now : Z) (token : option string) (db : D1Database) :
  let out := Verify.get now token db in
  (html_status out.1 = 200 \/ html_status out.1 = 400 \/ html_status out.1 = 404) /\
  (html_status out.1 <> 200 -> out.2 = db) /\
  sqlite_sequence out.2 = sqlite_sequence db /\
  Forall2 (sameButVerification now) (rows db) (rows out.2).
Proof.
  intros out.
  assert (Hframe : forall i,
    Forall2 (sameButVerification now) (rows db) (rows (markVerified now i db))).
  { intros i. unfold markVerified, updateWhere. cbn [rows].
    apply Forall2_fmap_r, Forall_Forall2_diag, Forall_forall. intros r _.
    unfold compose, sameButVerification. destruct (idIs i r); simpl; auto 10. }
  assert (Hsame : Forall2 (sameButVerification now) (rows db) (rows db)).
  { apply Forall_Forall2_diag, Forall_forall. intros r _.
    unfold sameButVerification. auto 10. }
  subst out. unfold Verify.get.
  destruct (_ || _); [cbn [fst snd html_status]; by auto 10|].
  destruct (firstByToken _ db) as [r|]; [|cbn [fst snd html_status]; by auto 10].
  destruct (Js.truthyNum (sub_verified r)); cbn [fst snd html_status].
  - by auto 10.
  - repeat split; auto. done.
Qed.

(** X11: Subscribe verifies a pending row without clearing its token, so
    the confirmation link keeps working afterwards: Verify with the row's
    token answers the success page and changes nothing, as often as it is
    called. *)
Theorem verify_succeeds_after_auto_verification
    (now now' : Z) (reply : Turnstile.FetchOutcome)
    (email token t : string) (name : option string)
    (pending : Subscriber) (db : D1Database) :
  validShape email -> token <> "" -> captchaPasses reply ->
  firstByEmail (normalize email) db = Some pending ->
  sub_verified pending = 0 ->
  firstByToken t db = Some pending ->
  Js.length t = 32 ->
  let db1 :=
    (Subscribe.post now reply
       (Some (Subscribe.mkRequest (Some email) name (Some token))) db).2 in
  Verify.get now' (Some t) db1 = (mkHtmlResponse 200 Verify.successHtml, db1).
Proof.
  intros Hs Ht Hc Hfind Hunv Htok Hlen db1.
  assert (Hdb1 : db1 = autoVerify now (Subscribe.sanitizeName name) (sub_id pending) db).
  { subst db1. rewrite subscribe_post_valid, Hfind by assumption.
    unfold Js.truthyNum. rewrite Hunv. reflexivity. }
  rewrite verify_get_good_token by assumption.
  assert (Hft : firstByToken t db1
                = (fun r => if idIs (sub_id pending) r
                            then mkSubscriber (sub_id r) (sub_email r)
                                   (COALESCE (Subscribe.sanitizeName name) (sub_name r))
                                   (sub_verification_token r) 1 1 (sub_created_at r)
                                   (Some (CURRENT_TIMESTAMP now))
                            else r) <$> firstByToken t db).
  { rewrite Hdb1. unfold firstByToken, autoVerify, updateWhere. cbn [rows].
    apply (find_fmap_stable (tokenIs t)).
    intros r. by destruct (idIs (sub_id pending) r). }
  rewrite Hft, Htok. cbn [fmap option_fmap option_map].
  unfold idIs. rewrite Z.eqb_refl. reflexivity.
Qed.

(** Rows without a token that are verified stay so under every route. *)
Lemma no_tokens_runCall (hmacSha256 : list byte -> list byte -> list byte)
    (secret : string) (db : D1Database) (call : SubscriberCall) :
  Forall (fun r => sub_verification_token r = None /\ sub_verified r = 1) (rows db) ->
  Forall (fun r => sub_verification_token r = None /\ sub_verified r = 1)
    (rows (runCall hmacSha256 secret db call)).
Proof.
  intros Hall.
  assert (Hupd : forall cond set,
    (forall r, sub_verification_token r = None /\ sub_verified r = 1 ->
               sub_verification_token (set r) = None /\ sub_verified (set r) = 1) ->
    Forall (fun r => sub_verification_token r = None /\ sub_verified r = 1)
      (rows (updateWhere cond set db))).
  { intros cond set Hset. unfold updateWhere. cbn [rows]. apply Forall_fmap.
    eapply Forall_impl; [exact Hall|]. intros r Hr. simpl.
    destruct (cond r); [by apply Hset|exact Hr]. }
  destruct call as [now reply body|now token|email token]; cbn [runCall].
  - destruct (subscribe_post_cases now reply body db)
      as [(msg & status & -> & _)|(e & name & tok & -> & Hs & Ht & Hc)]; [exact Hall|].
    rewrite subscribe_post_valid by assumption.
    destruct (firstByEmail (normalize e) db) as [existing|] eqn:Hfind.
    + destruct (Js.truthyNum (sub_verified existing)),
               (Js.truthyNum (sub_active existing)); cbn [andb negb snd];
        try exact Hall; apply Hupd; intros r [? ?]; by split.
    + unfold insertVerified. rewrite Hfind. cbn [snd rows].
      apply Forall_app. split; [exact Hall|]. by repeat constructor.
  - destruct (verify_get_db now token db) as [->|[i ->]]; [exact Hall|].
    apply Hupd. intros r [? ?]. by split.
  - destruct (unsubscribe_get_db hmacSha256 secret email token db) as [->|[e ->]];
      [exact Hall|].
    apply Hupd. intros r [? ?]. by split.
Qed.

Lemma no_tokens_runCalls (hmacSha256 : list byte -> list byte -> list byte)
    (secret : string) (calls : list SubscriberCall) (db : D1Database) :
  Forall (fun r => sub_verification_token r = None /\ sub_verified r = 1) (rows db) ->
  Forall (fun r => sub_verification_token r = None /\ sub_verified r = 1)
    (rows (runCalls hmacSha256 secret db calls)).
Proof.
  revert db. induction calls as [|call calls IH]; intros db Hall; [exact Hall|].
  cbn [runCalls foldl]. apply IH. by apply no_tokens_runCall.
Qed.

(** X12: no route ever stores a verification token.  In a table that
    started empty every row is verified and has no token, whatever
    requests came in, so there the verify route never answers success. *)
Theorem no_route_issues_verification_tokens
    (hmacSha256 : list byte -> list byte -> list byte) (secret : string)
    (calls : list SubscriberCall) (now : Z) (token : option string) :
  let db := runCalls hmacSha256 secret emptyDb calls in
  Forall (fun r => sub_verification_token r = None /\ sub_verified r = 1) (rows db) /\
  html_status (Verify.get now token db).1 <> 200.
Proof.
  intros db.
  assert (Hall : Forall (fun r => sub_verification_token r = None /\ sub_verified r = 1)
                   (rows db)).
  { subst db. apply no_tokens_runCalls. constructor. }
  split; [exact Hall|].
  unfold Verify.get. destruct (_ || _); [discriminate|].
  assert (firstByToken (default "" token) db = None) as ->; [|discriminate].
  apply find_None_iff. intros r Hr. rewrite Forall_forall in Hall.
  destruct (Hall r Hr) as [Hnone _]. unfold tokenIs. by rewrite Hnone.
Qed.

End VerifyUnsubscribe.

(** ** Unsubscribing and coming back *)

Section UnsubscribeAgain.
Import Schema.

Variable hmacSha256 : list byte -> list byte -> list byte.

Lemma deactivate_idem (e : string) (db : D1Database) :
  deactivate e (deactivate e db) = deactivate e db.
Proof.
  unfold deactivate, updateWhere. cbn [rows sqlite_sequence]. f_equal.
  rewrite <- list_fmap_compose. apply list_fmap_ext. intros _ r _. simpl.
  unfold emailIs. destruct (String.eqb (sub_email r) e) eqn:He; simpl; by rewrite He.
Qed.

(** The reply does not depend on the table, and the table is either
    kept or has one email deactivated. *)
Lemma unsubscribe_get_shape (secret : string) (email token : option string) :
  exists resp,
    (forall db, Unsubscribe.get hmacSha256 secret email token db = (resp, db)) \/
    (exists e, forall db,
       Unsubscribe.get hmacSha256 secret email token db = (resp, deactivate e db)).
Proof.
  unfold Unsubscribe.get. destruct (_ || _); [eexists; by left|].
  destruct (Hmac.validateHmacToken _ _ _ _) as [[]|]; cbn [negb];
    [|eexists; by left..].
  eexists. right. eexists. reflexivity.
Qed.

(** X13: the unsubscribe route is idempotent, and it only ever clears
    [active]: repeating a request gives the same reply and the same table
    as sending it once, and every row of the table afterwards is the row
    it was or that row with [active = 0]. *)
Theorem unsubscribe_is_idempotent
    (secret : string) (email token : option string) (db : D1Database) :
  let out1 := Unsubscribe.get hmacSha256 secret email token db in
  let out2 := Unsubscribe.get hmacSha256 secret email token out1.2 in
  out2 = out1 /\
  sqlite_sequence out1.2 = sqlite_sequence db /\
  Forall2 (fun r r' => r' = r \/ r' = withActive 0 r) (rows db) (rows out1.2).
Proof.
  intros out1 out2. subst out1 out2.
  destruct (unsubscribe_get_shape secret email token) as [resp [Hkeep|[e Hoff]]].
  - rewrite !Hkeep. cbn [snd]. repeat split.
    apply Forall_Forall2_diag, Forall_forall. intros r _. by left.
  - rewrite !Hoff. cbn [snd]. rewrite deactivate_idem. repeat split.
    unfold deactivate, updateWhere. cbn [rows].
    apply Forall2_fmap_r, Forall_Forall2_diag, Forall_forall. intros r _.
    unfold compose. destruct (emailIs _ r); auto.
Qed.

Hypothesis hmacSha256_length :
  forall key msg : list byte, length (hmacSha256 key msg) = 32%nat.

Lemma unsubscribe_get_valid (secret email : string) (db : D1Database) :
  secret <> "" -> email <> "" ->
  Unsubscribe.get hmacSha256 secret (Some email)
    (Some (hmacHex hmacSha256 secret (normalize email))) db
  = (mkHtmlResponse 200 Unsubscribe.successHtml, deactivate (normalize email) db).
Proof.
  intros Hs He.
  rewrite unsubscribe_get_present
    by (assumption || apply hmacHex_nonempty, hmacSha256_length).
  by rewrite bool_decide_eq_true_2.
Qed.

(** X14: subscribe, unsubscribe through a validly signed link, subscribe
    again: the unsubscribe leaves the email's row verified and inactive,
    and the second subscribe answers "Welcome back! Subscription
    reactivated." and leaves that row verified and active.  The link is
    signed under a secret that is not empty: [generateHmacToken] then
    returns its token, the hexadecimal HMAC of the normalised email. *)
Theorem resubscribe_after_unsubscribe_reactivates
    (now1 now2 : Z) (reply1 reply2 : Turnstile.FetchOutcome)
    (secret email token1 token2 : string) (name1 name2 : option string)
    (db : D1Database) :
  secret <> "" ->
  validShape email ->
  token1 <> "" -> captchaPasses reply1 ->
  token2 <> "" -> captchaPasses reply2 ->
  let db1 :=
    (Subscribe.post now1 reply1
       (Some (Subscribe.mkRequest (Some email) name1 (Some token1))) db).2 in
  let out2 :=
    Unsubscribe.get hmacSha256 secret (Some email)
      (Some (hmacHex hmacSha256 secret (normalize email))) db1 in
  let out3 :=
    Subscribe.post now2 reply2
      (Some (Subscribe.mkRequest (Some email) name2 (Some token2))) out2.2 in
  Hmac.generateHmacToken hmacSha256 secret (normalize email)
  = Some (hmacHex hmacSha256 secret (normalize email)) /\
  out2.1 = mkHtmlResponse 200 Unsubscribe.successHtml /\
  (exists r, firstByEmail (normalize email) out2.2 = Some r /\
             Js.truthyNum (sub_verified r) = true /\ sub_active r = 0) /\
  out3.1 = jsonMessage "Welcome back! Subscription reactivated." /\
  (exists r, firstByEmail (normalize email) out3.2 = Some r /\
             Js.truthyNum (sub_verified r) = true /\ sub_active r = 1).
Proof.
  intros Hsec Hs Ht1 Hc1 Ht2 Hc2 db1 out2 out3.
  split; [by apply generateHmacToken_normalize|].
  pose proof (subscribe_post_outcome now1 reply1 email token1 name1 db Hs Ht1 Hc1)
    as (_ & _ & _ & r & Hfind & Hv & Ha).
  fold db1 in Hfind.
  assert (Hout2 : out2 = (mkHtmlResponse 200 Unsubscribe.successHtml,
                          deactivate (normalize email) db1)).
  { subst out2. apply unsubscribe_get_valid; [exact Hsec|].
    by apply validShape_nonempty. }
  assert (Hfind2 : firstByEmail (normalize email) out2.2 = Some (withActive 0 r)).
  { rewrite Hout2. cbn [snd]. unfold deactivate.
    rewrite firstByEmail_updateWhere, Hfind by reflexivity.
    cbn [fmap option_fmap option_map]. unfold emailIs.
    apply find_Some_elem in Hfind as [_ ->]. reflexivity. }
  split; [by rewrite Hout2|]. split; [by exists (withActive 0 r)|].
  assert (Hout3 : out3 = (jsonMessage "Welcome back! Subscription reactivated.",
                          reactivate (sub_id r) out2.2)).
  { subst out3. rewrite subscribe_post_valid, Hfind2 by assumption.
    cbn [withActive sub_verified sub_active sub_id]. rewrite Hv. reflexivity. }
  split; [by rewrite Hout3|].
  rewrite Hout3. cbn [snd]. unfold reactivate.
  rewrite firstByEmail_updateWhere, Hfind2 by reflexivity.
  cbn [fmap option_fmap option_map withActive sub_id]. unfold idIs.
  rewrite Z.eqb_refl. eexists. split; [reflexivity|]. by split.
Qed.

End UnsubscribeAgain.

(** ** routes/admin.ts *)

Section AdminFacts.
Import Schema.

Variable hmacSha256 : list byte -> list byte -> list byte.

Lemma compareCreated_total (a b : SqlTime) :
  Admin.compareCreated a b <= 0 \/ Admin.compareCreated b a <= 0.
Proof. destruct a, b; simpl; lia. Qed.

Lemma compareCreated_trans (a b c : SqlTime) :
  Admin.compareCreated a b <= 0 -> Admin.compareCreated b c <= 0 ->
  Admin.compareCreated a c <= 0.
Proof. destruct a, b, c; simpl; lia. Qed.

Lemma unauthorized_false (secret : option string) (env : Admin.Env) :
  Admin.unauthorized secret env = false <->
  exists s, secret = Some s /\ s <> "" /\ s = Admin.ADMIN_API_SECRET env.
Proof.
  unfold Admin.unauthorized. rewrite orb_false_iff, !negb_false_iff. split.
  - intros [(s & -> & Hs)%truthy_inv Heq]. exists s. repeat split; [exact Hs|].
    by apply String.eqb_eq in Heq.
  - intros (s & -> & Hs & Heq). split; [by apply truthy_Some|].
    by apply String.eqb_eq.
Qed.

Lemma filter_elem {A} (p : A -> bool) (l : list A) (x : A) :
  x ∈ List.filter p l <-> x ∈ l /\ p x = true.
Proof. rewrite !list_elem_of_In. apply filter_In. Qed.

Lemma length_filter_and {A} (p q : A -> bool) (l : list A) :
  (length (List.filter (fun x => p x && q x) l) <= length (List.filter p l))%nat.
Proof.
  induction l as [|x l IH]; [done|]. simpl.
  destruct (p x), (q x); simpl; lia.
Qed.

(** The rows the query selects are the rows with both flags at 1. *)
Lemma selectListed_elem (db : D1Database) (r : Subscriber) :
  r ∈ Admin.selectListed db <-> r ∈ rows db /\ sub_verified r = 1 /\ sub_active r = 1.
Proof.
  unfold Admin.selectListed. rewrite sort_perm, filter_elem. unfold Admin.isListed.
  by rewrite andb_true_iff, !Z.eqb_eq.
Qed.

(** What an entry says of the row it was made from. *)
Lemma toEntry_inv (env : Admin.Env) (r : Subscriber)
    (en : Admin.SubscriberWithUnsubscribe) :
  Admin.toEntry hmacSha256 env r = Some en ->
  Admin.HMAC_SECRET env <> "" /\
  en = Admin.mkEntry (sub_name r) (sub_email r) true
         (Admin.WORKER_URL env +:+ "/unsubscribe?email="
          +:+ Uri.encodeURIComponent (sub_email r) +:+ "&token="
          +:+ hmacHex hmacSha256 (Admin.HMAC_SECRET env) (Js.toLowerCase (sub_email r))).
Proof.
  unfold Admin.toEntry. intros H.
  destruct (decide (Admin.HMAC_SECRET env = "")) as [He|Hne].
  - rewrite He in H. discriminate.
  - split; [exact Hne|]. rewrite generateHmacToken_Some in H by exact Hne.
    by injection H as <-.
Qed.

(** The entries are made one per selected row, unless signing fails. *)
Lemma mapM_toEntry (env : Admin.Env) (l : list Subscriber) :
  Admin.HMAC_SECRET env <> "" \/ l = [] ->
  exists entries, mapM (Admin.toEntry hmacSha256 env) l = Some entries.
Proof.
  intros [Hne| ->]; [|by exists []].
  apply (mapM_is_Some_2 (Admin.toEntry hmacSha256 env)), Forall_forall.
  intros r _. unfold compose, Admin.toEntry.
  by rewrite generateHmacToken_Some by exact Hne.
Qed.

(** X15: the admin routes answer only a caller whose [secret] parameter
    is present, non-empty and equal to [ADMIN_API_SECRET]; everyone else
    gets 401 and no data.  With an empty [ADMIN_API_SECRET] nobody is let
    in.  A caller who is let in gets 200 from the stats route, and from the
    subscribers route 200 or, when signing a link fails, 500; under an
    [HMAC_SECRET] that is not empty it is 200. *)
Theorem admin_routes_require_the_secret (secret : option string) (env : Admin.Env) :
  let allowed :=
    exists s, secret = Some s /\ s <> "" /\ s = Admin.ADMIN_API_SECRET env in
  (allowed ->
   json_status (Admin.getStats secret env) = 200 /\
   (json_status (Admin.getSubscribers hmacSha256 secret env) = 200 \/
    Admin.getSubscribers hmacSha256 secret env
    = jsonError "Failed to fetch subscribers" 500) /\
   (Admin.HMAC_SECRET env <> "" ->
    json_status (Admin.getSubscribers hmacSha256 secret env) = 200)) /\
  (~ allowed ->
   Admin.getSubscribers hmacSha256 secret env = jsonError "Unauthorized" 401 /\
   Admin.getStats secret env = jsonError "Unauthorized" 401) /\
  (Admin.ADMIN_API_SECRET env = "" -> ~ allowed).
Proof.
  intros allowed. split; [|split].
  - intros Hal. apply unauthorized_false in Hal.
    unfold Admin.getSubscribers, Admin.getStats. rewrite Hal.
    split; [reflexivity|]. split.
    + destruct (mapM _ _); [by left|by right].
    + intros Hne.
      destruct (mapM_toEntry env (Admin.selectListed (Admin.DB env))) as [entries ->];
        [by left|reflexivity].
  - intros Hno. unfold Admin.getSubscribers, Admin.getStats.
    destruct (Admin.unauthorized secret env) eqn:Hu; [done|].
    apply unauthorized_false in Hu. contradiction.
  - intros Hempty (s & _ & Hs & Heq). congruence.
Qed.

(** X16: for an authorized caller the subscribers route lists the rows
    with [verified = 1] and [active = 1] and no others: an entry carries
    the name and the email of such a row and [active: true], every such
    row has its entry, and their number is what the stats route counts as
    active.  This is so when [HMAC_SECRET] is not empty or no row is to be
    listed; under the empty [HMAC_SECRET] a table with a row to list is
    answered 500. *)
Theorem admin_lists_verified_active_subscribers
    (secret : option string) (env : Admin.Env) :
  Admin.unauthorized secret env = false ->
  let reply := Admin.getSubscribers hmacSha256 secret env in
  let listed (r : Subscriber) :=
    r ∈ rows (Admin.DB env) /\ sub_verified r = 1 /\ sub_active r = 1 in
  (Admin.HMAC_SECRET env = "" -> (exists r, listed r) ->
   reply = jsonError "Failed to fetch subscribers" 500) /\
  (Admin.HMAC_SECRET env <> "" \/ (forall r, ~ listed r) ->
   exists entries,
     reply = mkJson 200 (mkApi true None (Some entries) None) /\
     (forall e n,
        (exists en, en ∈ entries /\ Admin.email en = e /\ Admin.name en = n)
        <-> (exists r, listed r /\ sub_email r = e /\ sub_name r = n)) /\
     Forall (fun en => Admin.active en = true) entries /\
     Admin.stat_active <$> data (json_body (Admin.getStats secret env))
     = Some (Z.of_nat (length entries))).
Proof.
  intros Hauth reply listed. subst reply.
  unfold Admin.getSubscribers, Admin.getStats. rewrite Hauth.
  set (l := Admin.selectListed (Admin.DB env)). split.
  - intros Hempty [r Hr].
    assert (mapM (Admin.toEntry hmacSha256 env) l = None) as ->; [|reflexivity].
    apply mapM_None_2, Exists_exists. exists r.
    split; [by apply selectListed_elem|].
    unfold Admin.toEntry. by rewrite Hempty.
  - intros Hcase.
    destruct (mapM_toEntry env l) as [entries Hentries].
    { destruct Hcase as [Hne|Hnone]; [by left|right].
      destruct l as [|r l'] eqn:Hl; [reflexivity|].
      destruct (Hnone r). apply selectListed_elem. fold l. rewrite Hl. by left. }
    rewrite Hentries. exists entries. split; [reflexivity|].
    pose proof (mapM_Some_1 _ _ _ Hentries) as Hall. split; [|split].
    + intros e n. split.
      * intros (en & [i Hi]%list_elem_of_lookup & He & Hn).
        destruct (Forall2_lookup_r _ _ _ _ _ Hall Hi) as (r & Hr & Hen).
        apply toEntry_inv in Hen as [_ ->]. exists r.
        split; [by eapply selectListed_elem, list_elem_of_lookup_2|]. by split.
      * intros (r & Hr%selectListed_elem & He & Hn).
        apply list_elem_of_lookup in Hr as [i Hi].
        destruct (Forall2_lookup_l _ _ _ _ _ Hall Hi) as (en & Hen & Hmade).
        apply toEntry_inv in Hmade as [_ ->]. eexists.
        split; [by eapply list_elem_of_lookup_2|]. by split.
    + apply Forall_forall. intros en [i Hi]%list_elem_of_lookup.
      destruct (Forall2_lookup_r _ _ _ _ _ Hall Hi) as (r & _ & Hen).
      by apply toEntry_inv in Hen as [_ ->].
    + cbn [json_body data fmap option_fmap option_map Admin.stat_active].
      f_equal. unfold Admin.countWhere. f_equal.
      rewrite <- (Forall2_length _ _ _ Hall). unfold l, Admin.selectListed.
      symmetry. apply Permutation_length, sort_perm.
Qed.

Lemma filter_all {A} (l : list A) : List.filter (fun _ => true) l = l.
Proof. induction l as [|x l IH]; [reflexivity|]. simpl. by rewrite IH. Qed.

(** X17: the numbers of the stats route are ordered: active is at most
    verified, verified at most total, and total is the number of rows. *)
Theorem admin_stats_are_ordered (secret : option string) (env : Admin.Env) :
  Admin.unauthorized secret env = false ->
  exists st,
    data (json_body (Admin.getStats secret env)) = Some st /\
    0 <= Admin.stat_active st <= Admin.stat_verified st /\
    Admin.stat_verified st <= Admin.stat_total st /\
    Admin.stat_total st = Z.of_nat (length (rows (Admin.DB env))).
Proof.
  intros Hauth. unfold Admin.getStats. rewrite Hauth.
  eexists. split; [reflexivity|].
  cbn [Admin.stat_active Admin.stat_verified Admin.stat_total]. unfold Admin.countWhere.
  pose proof (length_filter_and (fun r => sub_verified r =? 1) (fun r => sub_active r =? 1)
                (rows (Admin.DB env))) as H1.
  pose proof (filter_length_le (fun r => sub_verified r =? 1) (rows (Admin.DB env))) as H2.
  cbv beta in H1. change (fun x => (sub_verified x =? 1) && (sub_active x =? 1))
    with Admin.isListed in H1.
  rewrite filter_all. lia.
Qed.

Hypothesis hmacSha256_length :
  forall key msg : list byte, length (hmacSha256 key msg) = 32%nat.

(** X18: the unsubscribe link the subscribers route hands out works.  For
    a table whose rows are well formed, the link of every listed
    subscriber is [WORKER_URL/unsubscribe?email=...&token=...] with the
    encoded email and a token that the unsubscribe route accepts for that
    email; after that request the email is listed no more. *)
Theorem admin_unsubscribe_links_work
    (secret : option string) (env : Admin.Env) (entry : Admin.SubscriberWithUnsubscribe)
    (entries : list Admin.SubscriberWithUnsubscribe) :
  Admin.unauthorized secret env = false ->
  Forall rowOk (rows (Admin.DB env)) ->
  data (json_body (Admin.getSubscribers hmacSha256 secret env)) = Some entries ->
  entry ∈ entries ->
  exists token,
    Admin.unsubscribeUrl entry
    = Admin.WORKER_URL env +:+ "/unsubscribe?email="
      +:+ Uri.encodeURIComponent (Admin.email entry) +:+ "&token=" +:+ token /\
    let out :=
      Unsubscribe.get hmacSha256 (Admin.HMAC_SECRET env)
        (Some (Admin.email entry)) (Some token) (Admin.DB env) in
    out.1 = mkHtmlResponse 200 Unsubscribe.successHtml /\
    forall entries',
      data (json_body
              (Admin.getSubscribers hmacSha256 secret
                 (Admin.mkEnv out.2 (Admin.ADMIN_API_SECRET env)
                    (Admin.HMAC_SECRET env) (Admin.WORKER_URL env))))
      = Some entries' ->
      Admin.email entry ∉ Admin.email <$> entries'.
Proof.
  intros Hauth Hrows Hdata Hin.
  unfold Admin.getSubscribers in Hdata. rewrite Hauth in Hdata.
  destruct (mapM _ _) as [made|] eqn:Hmade; [|discriminate].
  cbn [json_body data] in Hdata. injection Hdata as ->.
  apply mapM_Some_1 in Hmade. apply list_elem_of_lookup in Hin as [i Hi].
  destruct (Forall2_lookup_r _ _ _ _ _ Hmade Hi) as (r & Hr & Hen).
  apply list_elem_of_lookup_2, selectListed_elem in Hr as (Hr & _ & _).
  apply toEntry_inv in Hen as [Hsec ->].
  rewrite Forall_forall in Hrows. destruct (Hrows r Hr) as (_ & _ & Hnorm & Hshape & _).
  assert (Hne : sub_email r <> "") by (intros Heq; rewrite Heq in Hshape; discriminate).
  exists (hmacHex hmacSha256 (Admin.HMAC_SECRET env) (normalize (sub_email r))).
  cbn [Admin.unsubscribeUrl Admin.email]. split.
  { by rewrite <- (toLowerCase_normalize (sub_email r)), Hnorm. }
  rewrite unsubscribe_get_valid by assumption. cbn [fst snd]. split; [reflexivity|].
  intros entries' Hdata'.
  assert (Hauth' : Admin.unauthorized secret
                     (Admin.mkEnv (deactivate (normalize (sub_email r)) (Admin.DB env))
                        (Admin.ADMIN_API_SECRET env) (Admin.HMAC_SECRET env)
                        (Admin.WORKER_URL env)) = false) by exact Hauth.
  unfold Admin.getSubscribers in Hdata'. rewrite Hauth' in Hdata'.
  destruct (mapM _ _) as [made'|] eqn:Hmade'; [|discriminate].
  cbn [json_body data Admin.DB] in Hdata'. injection Hdata' as ->.
  apply mapM_Some_1 in Hmade'.
  intros (en & Heq & [j Hj]%list_elem_of_lookup)%list_elem_of_fmap.
  destruct (Forall2_lookup_r _ _ _ _ _ Hmade' Hj) as (r' & Hr' & Hen').
  apply list_elem_of_lookup_2, selectListed_elem in Hr' as (Hr' & _ & Hactive).
  apply toEntry_inv in Hen' as [_ ->]. cbn [Admin.email] in Heq.
  cbn [Admin.DB] in Hr'. unfold deactivate, updateWhere in Hr'. cbn [rows] in Hr'.
  apply list_elem_of_fmap in Hr' as (r0 & -> & _).
  unfold emailIs in *. rewrite Hnorm in *.
  destruct (String.eqb (sub_email r0) (sub_email r)) eqn:He.
  - cbn [sub_active] in Hactive. discriminate.
  - apply String.eqb_neq in He. congruence.
Qed.

End AdminFacts.

(** ** archive.ts: authorization *)

Section ArchiveAuth.
Import Archive.

Lemma prefix_split (p s : string) :
  String.prefix p s = true -> s = p +:+ Js.sliceFrom (String.length p) s.
Proof.
  revert s. induction p as [|a p IH]; intros s; [by destruct s|].
  destruct s as [|b s]; [discriminate|]. cbn [String.prefix].
  destruct (ascii_dec a b) as [->|]; [|discriminate].
  intros H. cbn [String.length Js.sliceFrom].
  change (String b p +:+ Js.sliceFrom (String.length p) s)
    with (String b (p +:+ Js.sliceFrom (String.length p) s)).
  f_equal. by apply IH.
Qed.

Lemma prefix_app (p t : string) : String.prefix p (p +:+ t) = true.
Proof.
  induction p as [|a p IH]; [by destruct t|].
  change (String a p +:+ t) with (String a (p +:+ t)). cbn [String.prefix].
  by destruct (ascii_dec a a).
Qed.

Lemma sliceFrom_app (p t : string) : Js.sliceFrom (String.length p) (p +:+ t) = t.
Proof.
  induction p as [|a p IH]; [by destruct t|].
  change (String a p +:+ t) with (String a (p +:+ t)). exact IH.
Qed.

(** X19: the archive's admin check accepts exactly the header
    [Bearer <ADMIN_API_SECRET>]: any other header, a different scheme or
    case, or no header at all is refused.  (With an empty secret the
    header [Bearer ] with nothing after it is accepted.) *)
Theorem archive_authorization_is_exact_bearer_match
    (authHeader : option string) (env : Env) :
  isAuthorized authHeader env = true <->
  authHeader = Some ("Bearer " +:+ ADMIN_API_SECRET env).
Proof.
  unfold isAuthorized, Js.startsWith. split.
  - destruct authHeader as [h|]; [|discriminate].
    destruct (String.prefix "Bearer " h) eqn:Hp; cbn [negb]; [|discriminate].
    intros Heq%String.eqb_eq. f_equal.
    rewrite (prefix_split _ _ Hp). by rewrite <- Heq.
  - intros ->. rewrite prefix_app. cbn [negb].
    pose proof (sliceFrom_app "Bearer " (ADMIN_API_SECRET env)) as Hs.
    cbn [String.length] in Hs. rewrite Hs. apply String.eqb_refl.
Qed.

Variable localeCompare : string -> string -> Z.

(** X20: without the right header, the upload, patch and delete routes
    answer 401 and leave the index and the content store exactly as they
    were. *)
Theorem archive_writes_need_authorization
    (now : string) (req : PostRequest) (authHeader : option string)
    (id_ : string) (body : option PatchBody) (env : Env) :
  (isAuthorized (Authorization req) env = false ->
   post localeCompare now req env = (jsonError "Unauthorized" 401, env)) /\
  (isAuthorized authHeader env = false ->
   patch now authHeader id_ body env = (jsonError "Unauthorized" 401, env) /\
   Archive.delete now authHeader id_ env = (jsonError "Unauthorized" 401, env)).
Proof.
  split.
  - intros H. unfold post. by rewrite H.
  - intros H. split; [by apply patch_unauthorized|].
    unfold Archive.delete. by rewrite H.
Qed.

End ArchiveAuth.

(** ** archive.ts: deleting a report *)

Section DeleteFacts.
Import Archive.

Lemma string_length_app (a b : string) :
  String.length (a +:+ b) = (String.length a + String.length b)%nat.
Proof.
  induction a as [|c a IH]; [reflexivity|].
  change (String c a +:+ b) with (String c (a +:+ b)). cbn [String.length]. by rewrite IH.
Qed.

Lemma append_inj_r (a b s : string) : a +:+ s = b +:+ s -> a = b.
Proof.
  revert b. induction a as [|c a IH]; intros [|d b] H.
  - reflexivity.
  - apply (f_equal String.length) in H. rewrite !string_length_app in H.
    cbn [String.length] in H. lia.
  - apply (f_equal String.length) in H. rewrite !string_length_app in H.
    cbn [String.length] in H. lia.
  - change (String c a +:+ s) with (String c (a +:+ s)) in H.
    change (String d b +:+ s) with (String d (b +:+ s)) in H.
    injection H as -> H. f_equal. by apply IH.
Qed.

(** Different ids have different keys. *)
Lemma r2KeyOf_inj (a b : string) : r2KeyOf a = r2KeyOf b -> a = b.
Proof.
  unfold r2KeyOf. intros H. apply String.app_inj in H. by apply append_inj_r in H.
Qed.

Lemma delete_absent (now : string) (authHeader : option string) (id_ : string) (env : Env) :
  isAuthorized authHeader env = true ->
  (forall r, r ∈ storedReports env -> id r <> id_) ->
  Archive.delete now authHeader id_ env = (jsonError "Report not found" 404, env).
Proof.
  intros Hauth Habsent. unfold Archive.delete. rewrite Hauth. cbn [negb].
  rewrite getArchiveIndex_reports.
  rewrite (findIndex_fmap _ (fun r => String.eqb (id r) id_) (mapMeta parseNumber))
    by reflexivity.
  assert (Js.findIndex (fun r => String.eqb (id r) id_) (storedReports env) = -1) as ->;
    [|reflexivity].
  destruct (findIndex_range (fun r : ReportMetaJson => String.eqb (id r) id_)
              (storedReports env)) as [?|Hge]; [assumption|].
  destruct (findIndex_found _ _ Hge) as (x & Hx & Hid).
  apply String.eqb_eq in Hid. exfalso. eapply Habsent; [|exact Hid].
  by eapply list_elem_of_lookup_2.
Qed.

Lemma delete_present (now : string) (authHeader : option string) (id_ : string)
    (env : Env) (i : nat) (r : ReportMetaJson) :
  isAuthorized authHeader env = true ->
  storedReports env !! i = Some r -> id r = id_ ->
  (forall j y, (j < i)%nat -> storedReports env !! j = Some y -> id y <> id_) ->
  Archive.delete now authHeader id_ env
  = (jsonMessage "Report deleted",
     mkEnv (ADMIN_API_SECRET env)
       (<[ARCHIVE_INDEX_KEY := mkIndex (base.delete i (storedReports env)) now]>
          (ARCHIVE_KV env))
       (base.delete (r2_key r) (ARCHIVE_R2 env))).
Proof.
  intros Hauth Hi Hid Hfirst. unfold Archive.delete. rewrite Hauth. cbn [negb].
  rewrite getArchiveIndex_reports.
  rewrite (findIndex_fmap _ (fun r => String.eqb (id r) id_) (mapMeta parseNumber))
    by reflexivity.
  rewrite (findIndex_is _ _ i r Hi); cycle 1.
  { by apply String.eqb_eq. }
  { intros j y Hlt Hj. apply String.eqb_neq. by eapply Hfirst. }
  assert ((Z.of_nat i <? 0) = false) as -> by (apply Z.ltb_ge; lia).
  rewrite Nat2Z.id, list_lookup_fmap, Hi. cbn [fmap option_fmap option_map mapMeta r2_key].
  f_equal. f_equal. unfold saveArchiveIndex, stringify, mapIndex. cbn [reports updated_at].
  by rewrite list_fmap_delete, stringify_parse_reports.
Qed.

(** In a list with distinct ids, what is left after deleting one entry
    has other ids than the entry deleted. *)
Lemma delete_other_ids (l : list ReportMetaJson) (i : nat) (r y : ReportMetaJson) :
  distinctIds l -> l !! i = Some r -> y ∈ base.delete i l -> id y <> id r.
Proof.
  intros Hnd Hi [j Hj]%list_elem_of_lookup Heq.
  rewrite list_lookup_delete in Hj.
  set (k := if decide (j < i)%nat then j else S j) in *.
  assert (Hk : k <> i) by (subst k; case_decide; lia).
  assert (Hlk : l !! k = Some y) by (subst k; case_decide; exact Hj).
  apply Hk. eapply (NoDup_lookup (id <$> l) k i (id r)); [exact Hnd| |].
  - rewrite list_lookup_fmap, Hlk. simpl. by rewrite Heq.
  - by rewrite list_lookup_fmap, Hi.
Qed.

(** X21: DeleteReport.  For an authorized caller, an id the index does
    not hold is answered 404 and nothing changes.  An id it holds is
    answered "Report deleted": the body under the entry's key is removed
    from the content store and the entry from the index, every other
    entry staying where it was; with distinct ids GetReport then answers
    404 "Report not found" for that id and GetIndex lists it no more. *)
Theorem delete_report_removes_entry_and_body
    (now now' : string) (authHeader : option string) (id_ : string) (env : Env) :
  isAuthorized authHeader env = true ->
  let out := Archive.delete now authHeader id_ env in
  ((forall r, r ∈ storedReports env -> id r <> id_) ->
   out = (jsonError "Report not found" 404, env)) /\
  (forall (i : nat) (r : ReportMetaJson),
     storedReports env !! i = Some r -> id r = id_ ->
     (forall j y, (j < i)%nat -> storedReports env !! j = Some y -> id y <> id_) ->
     out.1 = jsonMessage "Report deleted" /\
     storedReports out.2 = base.delete i (storedReports env) /\
     ARCHIVE_R2 out.2 = base.delete (r2_key r) (ARCHIVE_R2 env) /\
     (distinctIds (storedReports env) ->
      getReport now' id_ out.2 = ReportJson (jsonError "Report not found" 404) /\
      id_ ∉ id <$> storedReports out.2)).
Proof.
  intros Hauth out. subst out. split; [by apply delete_absent|].
  intros i r Hi Hid Hfirst.
  rewrite (delete_present now authHeader id_ env i r) by assumption.
  cbn [fst snd ARCHIVE_R2].
  assert (Hstored : storedReports
            (mkEnv (ADMIN_API_SECRET env)
               (<[ARCHIVE_INDEX_KEY := mkIndex (base.delete i (storedReports env)) now]>
                  (ARCHIVE_KV env))
               (base.delete (r2_key r) (ARCHIVE_R2 env)))
          = base.delete i (storedReports env)).
  { unfold storedReports at 1, storedIndex. cbn [ARCHIVE_KV]. by rewrite lookup_insert_eq. }
  split; [reflexivity|]. split; [exact Hstored|]. split; [reflexivity|].
  intros Hnd.
  assert (Hgone : forall y, y ∈ base.delete i (storedReports env) -> id y <> id_).
  { intros y Hy. rewrite <- Hid. by eapply delete_other_ids. }
  split.
  - rewrite getReport_stored, Hstored.
    assert (Js.find (fun r0 => String.eqb (id r0) id_) (base.delete i (storedReports env))
            = None) as ->; [|reflexivity].
    apply find_None. intros y Hy. apply String.eqb_neq. by apply Hgone.
  - rewrite Hstored. intros (y & Hy & Hin)%list_elem_of_fmap.
    by apply (Hgone y Hin).
Qed.

End DeleteFacts.

(** ** archive.ts: the invariant of the stores *)

Section ArchiveStores.
Import Archive.

Lemma StronglySorted_fmap_iff {A B} (R : B -> B -> Prop) (f : A -> B) (l : list A) :
  StronglySorted R (f <$> l) <-> StronglySorted (fun a b => R (f a) (f b)) l.
Proof.
  induction l as [|x l IH]; [split; intros _; constructor|].
  rewrite fmap_cons. split; intros H; apply StronglySorted_inv in H as [Hs Hall].
  - constructor; [by apply (proj1 IH)|].
    apply Forall_forall. intros y Hy. rewrite Forall_forall in Hall.
    apply Hall. apply list_elem_of_fmap. by exists y.
  - constructor; [by apply (proj2 IH)|].
    apply Forall_forall. intros y (z & -> & Hz)%list_elem_of_fmap.
    rewrite Forall_forall in Hall. by apply Hall.
Qed.

Lemma StronglySorted_delete {A} (R : A -> A -> Prop) (l : list A) (i : nat) :
  StronglySorted R l -> StronglySorted R (base.delete i l).
Proof.
  intros H. revert i. induction H as [|x l Hs IH Hall]; intros [|i]; simpl;
    [constructor|constructor|exact Hs|].
  constructor; [apply IH|by apply Forall_delete].
Qed.

(** A sorted list is left as it is by the sort. *)
Lemma sort_sorted_id {A} (cmp : A -> A -> Z) (l : list A) :
  StronglySorted (mayPrecede cmp) l -> Js.sort cmp l = l.
Proof.
  induction 1 as [|x l Hs IH Hall]; [reflexivity|].
  cbn [Js.sort foldr]. fold (Js.sort cmp l). rewrite IH.
  destruct l as [|y l]; [reflexivity|]. cbn [Js.insertSorted].
  apply Forall_cons in Hall as [Hxy _]. unfold mayPrecede in Hxy.
  by rewrite (proj2 (Z.leb_le _ _) Hxy).
Qed.

Lemma storedReports_put (secret : string) (kv : gmap string ArchiveIndexJson)
    (r2 : gmap string string) (ix : ArchiveIndexJson) :
  storedReports (mkEnv secret (<[ARCHIVE_INDEX_KEY := ix]> kv) r2) = reports ix.
Proof.
  unfold storedReports, storedIndex. cbn [ARCHIVE_KV]. by rewrite lookup_insert_eq.
Qed.

(** What a patch leaves in the stores, for every request. *)
Lemma patch_cases (now : string) (authHeader : option string) (id_ : string)
    (body : option PatchBody) (env : Env) :
  ARCHIVE_R2 (patch now authHeader id_ body env).2 = ARCHIVE_R2 env /\
  (storedReports (patch now authHeader id_ body env).2 = storedReports env \/
   exists i r b,
     storedReports env !! i = Some r /\
     storedReports (patch now authHeader id_ body env).2
     = <[i := patched b r]> (storedReports env)).
Proof.
  destruct (isAuthorized authHeader env) eqn:Hauth;
    [|rewrite patch_unauthorized by assumption; by auto].
  destruct body as [body|]; [|unfold patch; rewrite Hauth; by auto].
  destruct (Js.truthy (patch_title body)) eqn:Ht, (Js.truthy (patch_summary body)) eqn:Hs;
    try (rewrite patch_nothing_given by assumption; by auto).
  all: assert (Hgiven : Js.truthy (patch_title body) = true
                        \/ Js.truthy (patch_summary body) = true) by auto.
  all: destruct (findIndex_range (fun r : ReportMetaJson => String.eqb (id r) id_)
                   (storedReports env)) as [Hneg|Hge].
  all: try (rewrite patch_absent; [by auto|assumption|assumption|];
            intros r Hr; apply String.eqb_neq;
            by apply (findIndex_absent (fun r : ReportMetaJson => String.eqb (id r) id_)
                        (storedReports env)); [lia|]).
  all: destruct (findIndex_found _ _ Hge) as (x & Hx & Hid);
       apply String.eqb_eq in Hid;
       rewrite (patch_present now authHeader id_ body env _ x Hauth Hgiven Hx Hid)
         by (intros j y Hlt Hj; apply String.eqb_neq;
             by apply (findIndex_first (fun r : ReportMetaJson => String.eqb (id r) id_)
                         (storedReports env) j y Hge Hj));
       split; [reflexivity|]; right; eexists _, x, body; split; [exact Hx|];
       unfold storedReports at 1, storedIndex; cbn [snd ARCHIVE_KV];
       by rewrite lookup_insert_eq.
Qed.

Variable localeCompare : string -> string -> Z.
Hypothesis localeCompare_total :
  forall s t, localeCompare s t <= 0 \/ localeCompare t s <= 0.
Hypothesis localeCompare_trans :
  forall s t u, localeCompare s t <= 0 -> localeCompare t u <= 0 -> localeCompare s u <= 0.

Lemma post_sorted (now : string) (req : PostRequest) (env : Env) :
  postAccepted req env = true ->
  StronglySorted (mayPrecede (newestFirst localeCompare))
    (storedReports (post localeCompare now req env).2).
Proof.
  intros Hacc. rewrite storedReports_post by assumption.
  apply sort_sorted; unfold newestFirst; intros; eauto.
Qed.

Lemma archiveOk_post (now : string) (req : PostRequest) (env : Env) :
  archiveOk localeCompare env -> archiveOk localeCompare (post localeCompare now req env).2.
Proof.
  intros (Hnd & Hs & Hk).
  destruct (postAccepted req env) eqn:Hacc;
    [|by rewrite (proj2 (proj2 (post_rejected localeCompare now req env Hacc)))].
  split; [by apply post_distinct|]. split; [by apply post_sorted|].
  rewrite storedReports_post, post_r2 by assumption.
  rewrite sort_perm. unfold placed.
  assert (Hold : Forall (fun r => r2_key r = r2KeyOf (id r) /\
                           is_Some (<[r2KeyOf (default "" (X_Report_Id req)) := text req]>
                                      (ARCHIVE_R2 env) !! r2_key r))
                   (storedReports env)).
  { eapply Forall_impl; [exact Hk|]. intros r [Hkey Hbody]. split; [exact Hkey|].
    apply lookup_insert_is_Some. destruct (decide (r2KeyOf (default "" (X_Report_Id req))
                                                   = r2_key r)); auto. }
  assert (Hnew : r2_key (submittedJson req) = r2KeyOf (id (submittedJson req)) /\
                 is_Some (<[r2KeyOf (default "" (X_Report_Id req)) := text req]>
                            (ARCHIVE_R2 env) !! r2_key (submittedJson req))).
  { split; [reflexivity|]. cbn [submittedJson submittedMeta mapMeta r2_key].
    rewrite lookup_insert_eq. by eexists. }
  destruct (0 <=? _).
  - by apply Forall_insert.
  - apply Forall_app. split; [exact Hold|]. by constructor.
Qed.

Lemma archiveOk_patch (now : string) (authHeader : option string) (id_ : string)
    (body : option PatchBody) (env : Env) :
  archiveOk localeCompare env -> archiveOk localeCompare (patch now authHeader id_ body env).2.
Proof.
  intros (Hnd & Hs & Hk).
  destruct (patch_cases now authHeader id_ body env) as [Hr2 Hst].
  unfold archiveOk. rewrite Hr2. split; [unfold distinctIds; by rewrite patch_ids|].
  destruct Hst as [->|(i & r & b & Hi & ->)]; [by split|].
  split.
  - unfold mayPrecede, newestFirst in *.
    apply (StronglySorted_fmap_iff (fun s t => localeCompare t s <= 0) date_range_end).
    rewrite list_fmap_insert.
    rewrite list_insert_id by (by rewrite list_lookup_fmap, Hi).
    by apply (StronglySorted_fmap_iff (fun s t => localeCompare t s <= 0) date_range_end).
  - apply Forall_insert; [exact Hk|].
    rewrite Forall_forall in Hk. apply (Hk r). by eapply list_elem_of_lookup_2.
Qed.

Lemma archiveOk_delete (now : string) (authHeader : option string) (id_ : string)
    (env : Env) :
  archiveOk localeCompare env ->
  archiveOk localeCompare (Archive.delete now authHeader id_ env).2.
Proof.
  intros (Hnd & Hs & Hk).
  destruct (isAuthorized authHeader env) eqn:Hauth;
    [|unfold Archive.delete; rewrite Hauth; by repeat split].
  destruct (findIndex_range (fun r : ReportMetaJson => String.eqb (id r) id_)
              (storedReports env)) as [Hneg|Hge].
  { rewrite delete_absent; [by repeat split|assumption|].
    intros r Hr. apply String.eqb_neq.
    by apply (findIndex_absent (fun r : ReportMetaJson => String.eqb (id r) id_)
                (storedReports env)); [lia|]. }
  destruct (findIndex_found _ _ Hge) as (x & Hx & Hid). apply String.eqb_eq in Hid.
  rewrite (delete_present now authHeader id_ env _ x Hauth Hx Hid)
    by (intros j y Hlt Hj; apply String.eqb_neq;
        by apply (findIndex_first (fun r : ReportMetaJson => String.eqb (id r) id_)
                    (storedReports env) j y Hge Hj)).
  set (i := Z.to_nat _) in *. unfold archiveOk. cbn [snd].
  rewrite storedReports_put. cbn [ARCHIVE_R2].
  split; [|split].
  - unfold distinctIds. eapply sublist_NoDup; [exact Hnd|].
    apply fmap_sublist, sublist_delete.
  - by apply StronglySorted_delete.
  - apply Forall_forall. intros y Hy.
    assert (Hyin : y ∈ storedReports env).
    { by eapply list_elem_of_delete_inv. }
    rewrite Forall_forall in Hk. destruct (Hk y Hyin) as [Hkey Hbody].
    split; [exact Hkey|]. rewrite lookup_delete_ne; [exact Hbody|].
    destruct (Hk x) as [Hkx _]; [by eapply list_elem_of_lookup_2|].
    rewrite Hkx, Hkey. intros Heq%r2KeyOf_inj.
    by apply (delete_other_ids _ _ _ _ Hnd Hx Hy).
Qed.

Lemma reachable_ok (env : Env) :
  Reachable localeCompare env -> archiveOk localeCompare env.
Proof.
  induction 1 as [secret r2|now req env _ IH|now auth id_ body env _ IH|now auth id_ env _ IH].
  - unfold archiveOk, storedReports, storedIndex. cbn [ARCHIVE_KV].
    rewrite lookup_empty. repeat split; constructor.
  - by apply archiveOk_post.
  - by apply archiveOk_patch.
  - by apply archiveOk_delete.
Qed.

(** X22: whatever uploads, patches and deletions were made on an archive
    that started with nothing saved, the index has pairwise-distinct ids,
    is sorted newest first, every entry's key is [reports/{id}.html], and
    no entry dangles: GetReport returns a body for every id the index
    lists. *)
Theorem reachable_archive_is_consistent (now : string) (env : Env) :
  Reachable localeCompare env ->
  archiveOk localeCompare env /\
  forall r, r ∈ storedReports env ->
            exists html, getReport now (id r) env = ReportHtml 200 html.
Proof.
  intros Hreach. pose proof (reachable_ok env Hreach) as Hok.
  split; [exact Hok|]. destruct Hok as (Hnd & _ & Hk).
  intros r Hr. rewrite getReport_stored.
  assert (Js.find (fun r0 => String.eqb (id r0) (id r)) (storedReports env) = Some r) as ->.
  { apply find_only; [exact Hr|apply String.eqb_refl|].
    intros y Hy Hp%String.eqb_eq. by apply (fmap_eq_of_NoDup id (storedReports env)). }
  rewrite Forall_forall in Hk. destruct (Hk r Hr) as [_ [html Hhtml]].
  rewrite Hhtml. by exists html.
Qed.

End ArchiveStores.

(** ** archive.ts: uploading again, and patching, seen through the reads *)

Section ArchiveUploads.
Import Archive.
Variable localeCompare : string -> string -> Z.

Lemma findIndex_listed (id_ : string) (l : list ReportMetaJson) :
  0 <= Js.findIndex (fun r => String.eqb (id r) id_) l <-> id_ ∈ id <$> l.
Proof.
  split.
  - intros Hge. destruct (findIndex_found _ _ Hge) as (x & Hx & Hid).
    apply String.eqb_eq in Hid. apply list_elem_of_fmap. exists x.
    split; [done|]. by eapply list_elem_of_lookup_2.
  - intros (x & -> & Hx)%list_elem_of_fmap.
    destruct (findIndex_range (fun r => String.eqb (id r) (id x)) l) as [Hneg|Hge];
      [|exact Hge].
    assert (Hlt : Js.findIndex (fun r => String.eqb (id r) (id x)) l < 0) by lia.
    pose proof (findIndex_absent _ _ Hlt x Hx) as Hp. simpl in Hp.
    by rewrite String.eqb_refl in Hp.
Qed.

(** X23: an accepted upload answers 200 "Report updated" and keeps the
    number of index entries when its id is already listed; otherwise it
    answers 201 "Report uploaded" and the index has one entry more. *)
Theorem put_report_updates_or_creates (now : string) (req : PostRequest) (env : Env) :
  postAccepted req env = true ->
  let out := post localeCompare now req env in
  let listed := bool_decide (id (submittedJson req) ∈ id <$> storedReports env) in
  json_status out.1 = (if listed then 200 else 201) /\
  message (json_body out.1)
  = Some (if listed then "Report updated" else "Report uploaded") /\
  length (storedReports out.2)
  = (if listed then length (storedReports env) else S (length (storedReports env))).
Proof.
  intros Hacc out listed.
  assert (Hlen : length (storedReports out.2)
                 = length (placed (submittedJson req) (storedReports env))).
  { subst out. rewrite storedReports_post by assumption.
    apply Permutation_length, sort_perm. }
  rewrite Hlen. subst out. rewrite post_accepted by assumption.
  cbn [fst json_status json_body message]. unfold placed.
  pose proof (findIndex_listed (id (submittedJson req)) (storedReports env)) as Hiff.
  subst listed.
  destruct (Z.leb_spec 0 (Js.findIndex (fun r => String.eqb (id r) (id (submittedJson req)))
                            (storedReports env))) as [Hge|Hlt].
  - rewrite bool_decide_eq_true_2 by (by apply Hiff).
    by rewrite length_insert.
  - rewrite bool_decide_eq_false_2 by (intros Hin%Hiff; lia).
    rewrite length_app. simpl. repeat split; lia.
Qed.

Lemma find_insert_key {A B} (p : A -> bool) (k : A -> B) (l : list A) (i : nat)
    (r r' : A) :
  l !! i = Some r -> p r' = p r -> k r' = k r ->
  k <$> Js.find p (<[i := r']> l) = k <$> Js.find p l.
Proof.
  intros Hi Hp Hk. revert i Hi.
  induction l as [|x l IH]; intros [|i] Hi; try discriminate; simpl in Hi.
  - injection Hi as ->. cbn [insert list_insert]. rewrite !find_cons, Hp.
    destruct (p r); [simpl; by rewrite Hk|reflexivity].
  - cbn [insert list_insert]. rewrite !find_cons. destruct (p x); [reflexivity|].
    by apply IH.
Qed.

(** X24: a metadata patch, whatever its outcome, changes no answer of
    GetReport: every id is served the same body, or the same error, as
    before. *)
Theorem patch_keeps_every_report_body (now now' : string) (authHeader : option string)
    (id_ : string) (body : option PatchBody) (env : Env) (id' : string) :
  getReport now' id' (patch now authHeader id_ body env).2 = getReport now' id' env.
Proof.
  rewrite !getReport_stored.
  destruct (patch_cases now authHeader id_ body env) as [-> Hst].
  destruct Hst as [->|(i & r & b & Hi & ->)]; [reflexivity|].
  pose proof (find_insert_key (fun r0 => String.eqb (id r0) id') r2_key
                (storedReports env) i r (patched b r) Hi eq_refl eq_refl) as Hfind.
  destruct (Js.find _ (<[i := patched b r]> (storedReports env))) as [x|],
           (Js.find _ (storedReports env)) as [y|];
    simpl in Hfind; try discriminate; [|reflexivity].
  injection Hfind as ->. reflexivity.
Qed.

Hypothesis localeCompare_total :
  forall s t, localeCompare s t <= 0 \/ localeCompare t s <= 0.
Hypothesis localeCompare_trans :
  forall s t u, localeCompare s t <= 0 -> localeCompare t u <= 0 -> localeCompare s u <= 0.

(** X25: uploading is idempotent on the stores.  When the ids of the
    index are distinct, repeating an accepted upload answers 200 and
    leaves the entries of the index and the bodies in R2 as the first
    upload left them. *)
Theorem put_report_twice_changes_nothing (now1 now2 : string) (req : PostRequest)
    (env : Env) :
  postAccepted req env = true ->
  distinctIds (storedReports env) ->
  let env1 := (post localeCompare now1 req env).2 in
  let out2 := post localeCompare now2 req env1 in
  json_status out2.1 = 200 /\
  storedReports out2.2 = storedReports env1 /\
  ARCHIVE_R2 out2.2 = ARCHIVE_R2 env1.
Proof.
  intros Hacc Hnd env1 out2.
  assert (Hacc1 : postAccepted req env1 = true).
  { rewrite <- Hacc. apply postAccepted_secret, post_secret. }
  assert (Hin : submittedJson req ∈ storedReports env1) by (by apply post_entry_stored).
  assert (Hge : 0 <= Js.findIndex (fun r => String.eqb (id r) (id (submittedJson req)))
                       (storedReports env1)).
  { apply findIndex_listed, list_elem_of_fmap. by exists (submittedJson req). }
  destruct (findIndex_found _ _ Hge) as (x & Hx & Hid). apply String.eqb_eq in Hid.
  assert (x = submittedJson req) as ->.
  { apply (post_entry_only localeCompare now1 req env); [done..| |done].
    by eapply list_elem_of_lookup_2. }
  assert (Hsorted : StronglySorted (mayPrecede (newestFirst localeCompare))
                      (storedReports env1)).
  { subst env1. rewrite storedReports_post by assumption.
    apply sort_sorted; unfold newestFirst; intros; eauto. }
  split; [|split].
  - subst out2. rewrite post_accepted by assumption. cbn [fst json_status].
    by rewrite (proj2 (Z.leb_le _ _) Hge).
  - subst out2. rewrite storedReports_post by assumption.
    unfold placed. rewrite (proj2 (Z.leb_le _ _) Hge).
    rewrite list_insert_id by exact Hx. by apply sort_sorted_id.
  - subst out2. rewrite post_r2 by assumption.
    subst env1. rewrite post_r2 by assumption. apply insert_insert_eq.
Qed.

End ArchiveUploads.

(** ** run.sh: what the arguments can set *)

Section RunShFacts.
Import RunSh.

Lemma isNumber_hasDigit (s : string) : isNumber s = true -> hasDigit s = true.
Proof.
  destruct s as [|c s]; [discriminate|]. simpl.
  by intros [-> _]%andb_true_iff.
Qed.

Lemma step_number (o : Options) (arg : string) :
  isNumber arg = true -> step o arg = mkOptions arg (SEND_NEWSLETTER o).
Proof.
  intros Hn. unfold step.
  destruct (String.eqb_spec arg "--send") as [->|_]; [discriminate|].
  by rewrite (isNumber_hasDigit _ Hn), Hn.
Qed.

Lemma step_other (o : Options) (arg : string) :
  isNumber arg = false -> DAYS (step o arg) = DAYS o.
Proof.
  intros Hn. unfold step. destruct (String.eqb arg "--send"); [reflexivity|].
  rewrite Hn. by destruct (hasDigit arg).
Qed.

Lemma days_foldl (o : Options) (args : list string) :
  DAYS (foldl step o args)
  = default (DAYS o) (last (filter (fun a => isNumber a = true) args)).
Proof.
  revert o. induction args as [|a args IH]; intros o; [reflexivity|].
  cbn [foldl]. rewrite IH. rewrite filter_cons.
  destruct (decide (isNumber a = true)) as [Hn|Hn].
  - rewrite step_number by assumption. cbn [DAYS].
    rewrite last_cons. by destruct (last _).
  - apply not_true_is_false in Hn. by rewrite step_other.
Qed.

Lemma send_foldl (o : Options) (args : list string) :
  SEND_NEWSLETTER (foldl step o args)
  = SEND_NEWSLETTER o || bool_decide ("--send" ∈ args).
Proof.
  revert o. induction args as [|a args IH]; intros o.
  - cbn [foldl]. rewrite bool_decide_eq_false_2 by apply not_elem_of_nil.
    by rewrite orb_false_r.
  - cbn [foldl]. rewrite IH. unfold step.
    destruct (String.eqb_spec a "--send") as [->|Hne].
    + cbn [SEND_NEWSLETTER]. rewrite (bool_decide_eq_true_2 ("--send" ∈ "--send" :: args))
        by left.
      by rewrite orb_true_r.
    + assert (bool_decide ("--send" ∈ a :: args) = bool_decide ("--send" ∈ args)) as ->.
      { apply bool_decide_ext. split; [|by right].
        intros [Heq|Hin]%elem_of_cons; [by destruct Hne|exact Hin]. }
      by destruct (hasDigit a), (isNumber a).
Qed.

(** X26: whatever the arguments, the number of days handed to the report
    generator is a non-empty string of decimal digits: the last argument
    of that form, or the default [2] when there is none. *)
Theorem run_sh_days_is_the_last_number (args : list string) :
  DAYS (parseArgs args)
  = default "2" (last (filter (fun a => isNumber a = true) args)) /\
  isNumber (DAYS (parseArgs args)) = true.
Proof.
  assert (Heq : DAYS (parseArgs args)
                = default "2" (last (filter (fun a => isNumber a = true) args)))
    by apply days_foldl.
  split; [exact Heq|]. rewrite Heq.
  destruct (last _) as [d|] eqn:Hlast; [|reflexivity]. simpl.
  apply last_Some_elem_of in Hlast.
  by apply list_elem_of_filter in Hlast as [Hd _].
Qed.

(** X27: a run starts the newsletter script exactly when [--send] is
    among the arguments and both [cd] and the report generator returned
    status zero; no other argument, and no position of the flag, matters.
    It is started once, after the generator, with the API secret when
    [AI_NEWS_API_SECRET] is set and not empty and without it otherwise.
    The generator is started exactly when [cd] succeeded, with the number
    of days the arguments give. *)
Theorem run_sh_sends_only_on_flag (status : Command -> Z)
    (AI_NEWS_API_SECRET : option string) (args : list string) :
  let days := default "2" (last (filter (fun a => isNumber a = true) args)) in
  let commands := run status AI_NEWS_API_SECRET args in
  (forall s, SendNewsletter s ∈ commands <->
     status Cd = 0 /\ status (Claude days) = 0 /\ "--send" ∈ args /\
     s = (if decide (default "" AI_NEWS_API_SECRET = "") then None
          else AI_NEWS_API_SECRET)) /\
  (forall d, Claude d ∈ commands <-> status Cd = 0 /\ d = days) /\
  (sendsNewsletter status AI_NEWS_API_SECRET args = true <->
     status Cd = 0 /\ status (Claude days) = 0 /\ "--send" ∈ args) /\
  (sendsNewsletter status AI_NEWS_API_SECRET args = true ->
     commands = [Cd; Claude days;
                 SendNewsletter (apiSecretArg AI_NEWS_API_SECRET)]).
Proof.
  intros days commands.
  assert (Hdays : DAYS (parseArgs args) = days) by apply days_foldl.
  assert (Hflag : SEND_NEWSLETTER (parseArgs args) = true <-> "--send" ∈ args).
  { unfold parseArgs. rewrite send_foldl. cbn [SEND_NEWSLETTER orb].
    apply bool_decide_eq_true. }
  assert (Harg : apiSecretArg AI_NEWS_API_SECRET
                 = if decide (default "" AI_NEWS_API_SECRET = "") then None
                   else AI_NEWS_API_SECRET).
  { destruct AI_NEWS_API_SECRET as [[|c x]|]; reflexivity. }
  assert (Hsend : forall s, SendNewsletter s ∈ commands <->
            status Cd = 0 /\ status (Claude days) = 0 /\ "--send" ∈ args /\
            s = apiSecretArg AI_NEWS_API_SECRET).
  { intros s. subst commands. unfold run. rewrite Hdays.
    destruct (Z.eqb_spec (status Cd) 0) as [Hcd|Hcd]; cbn [negb].
    2:{ split; [|by intros [? _]].
        intros [Heq|Hin%elem_of_nil]%elem_of_cons; [discriminate|done]. }
    destruct (Z.eqb_spec (status (Claude days)) 0) as [Hcl|Hcl]; cbn [negb].
    2:{ split; [|by intros (_ & ? & _)].
        rewrite !elem_of_cons, elem_of_nil. by intros [|[|]]. }
    destruct (SEND_NEWSLETTER (parseArgs args)) eqn:Hs.
    - rewrite !elem_of_cons, elem_of_nil. split.
      + intros [|[|[[= ->]|]]]; try done.
        split; [exact Hcd|]. split; [exact Hcl|]. split; [by apply Hflag|done].
      + intros (_ & _ & _ & ->). by right; right; left.
    - split.
      + rewrite !elem_of_cons, elem_of_nil. by intros [|[|]].
      + intros (_ & _ & Hin%Hflag & _). discriminate. }
  split; [|split; [|split]].
  - intros s. rewrite Hsend, Harg. reflexivity.
  - intros d. subst commands. unfold run. rewrite Hdays.
    destruct (Z.eqb_spec (status Cd) 0) as [Hcd|Hcd]; cbn [negb].
    2:{ split; [|by intros [? _]].
        intros [Heq|Hin%elem_of_nil]%elem_of_cons; [discriminate|done]. }
    destruct (negb _), (SEND_NEWSLETTER _);
      rewrite !elem_of_cons, elem_of_nil;
      (split; [intros Hin; split; [exact Hcd|];
               by destruct Hin as [|[[= ->]|Hin]]; try done; destruct Hin
              |intros [_ ->]; by right; left]).
  - unfold sendsNewsletter. rewrite bool_decide_eq_true. fold commands.
    rewrite Hsend. split; [by intros (? & ? & ? & _)|by intros (? & ? & ?)].
  - unfold sendsNewsletter. rewrite bool_decide_eq_true. fold commands.
    intros (Hcd & Hcl & Hin%Hflag & _)%Hsend. subst commands. unfold run.
    rewrite Hdays, Hcd, Hcl, Hin. reflexivity.
Qed.

End RunShFacts.

(** ** The further properties on sample data *)

Section MoreSamples.
Import Schema Archive.

Lemma exDb_ok : dbOk exDb.
Proof.
  split; [|split; [|split]].
  - apply NoDup_singleton.
  - apply NoDup_singleton.
  - by repeat constructor.
  - constructor; [|constructor]. unfold rowOk. simpl.
    split; [by left|]. split; [by right|]. split; [reflexivity|].
    split; [reflexivity|]. split; [discriminate|lia].
Qed.

Lemma verification_token_well_formed_witness :
  let token := Token.generateVerificationToken exBytes in
  Js.length token = 32 /\
  allChars isLowerHex token = true /\
  (html_status (Verify.get 2000 (Some token) exDb).1 = 200
   \/ html_status (Verify.get 2000 (Some token) exDb).1 = 404).
Proof. apply (verification_token_well_formed exBytes 2000 exDb). reflexivity. Defined.

Lemma verification_token_injective_witness :
  Token.generateVerificationToken exBytes = "001fa307ff109c425be00177d43a88c6" /\
  rev (rev exBytes) = exBytes.
Proof.
  split; [reflexivity|].
  apply (verification_token_injective (rev (rev exBytes)) exBytes). reflexivity.
Defined.

Lemma hmac_token_format_and_case_witness :
  exists token,
    Hmac.generateHmacToken Crypto.hmacSha256 exSecret "A@X.com" = Some token /\
    Js.length token = 64 /\
    allChars isLowerHex token = true /\
    Hmac.generateHmacToken Crypto.hmacSha256 exSecret (Js.toLowerCase "A@X.com")
    = Some token.
Proof.
  apply (hmac_token_format_and_case Crypto.hmacSha256 hmacSha256_length exSecret "A@X.com").
  discriminate.
Defined.

Lemma subscribe_new_email_inserts_one_row_witness :
  let out := Subscribe.post 2000 exPass (exSubscribe " New@Reader.org " (Some " Nina ")) exDb in
  out.1 = jsonMessage Subscribe.subscribed /\
  exists i,
    rows out.2
    = rows exDb ++ [mkSubscriber i (normalize " New@Reader.org ")
                      (Subscribe.sanitizeName (Some " Nina "))
                      None 1 1 (unixepoch 2000) (Some (CURRENT_TIMESTAMP 2000))] /\
    sqlite_sequence out.2 = i /\
    sqlite_sequence exDb < i /\
    Forall (fun r => sub_id r < i) (rows exDb).
Proof.
  apply (subscribe_new_email_inserts_one_row 2000 exPass " New@Reader.org "
           "turnstile-response" (Some " Nina ") exDb).
  - reflexivity.
  - discriminate.
  - reflexivity.
  - reflexivity.
Defined.

Lemma subscribe_again_changes_nothing_witness :
  let db1 := (Subscribe.post 2000 exPass (exSubscribe "New@Reader.org" None) exDb).2 in
  Subscribe.post 3000 exPass
    (Some (Subscribe.mkRequest (Some "New@Reader.org") (Some "Nina") (Some "again"))) db1
  = (jsonMessage "You are already subscribed!", db1).
Proof.
  apply (subscribe_again_changes_nothing 2000 3000 exPass exPass "New@Reader.org"
           "turnstile-response" "again" None (Some "Nina") exDb).
  - reflexivity.
  - discriminate.
  - reflexivity.
  - discriminate.
  - reflexivity.
Defined.

Lemma subscription_routes_keep_table_well_formed_witness :
  dbOk (runCalls Crypto.hmacSha256 exSecret exDb exCalls).
Proof.
  apply (subscription_routes_keep_table_well_formed Crypto.hmacSha256 exSecret exDb exCalls).
  exact exDb_ok.
Defined.

Lemma verify_succeeds_after_auto_verification_witness :
  let db1 := (Subscribe.post 2000 exPass (exSubscribe "a@x.com" None) exDb).2 in
  Verify.get 3000 (Some exToken) db1 = (mkHtmlResponse 200 Verify.successHtml, db1).
Proof.
  apply (verify_succeeds_after_auto_verification 2000 3000 exPass "a@x.com"
           "turnstile-response" exToken None exPending exDb); reflexivity || discriminate.
Defined.

Lemma resubscribe_after_unsubscribe_reactivates_witness :
  let db1 := (Subscribe.post 2000 exPass (exSubscribe "New@Reader.org" None) exDb).2 in
  let out2 :=
    Unsubscribe.get Crypto.hmacSha256 exSecret (Some "New@Reader.org")
      (Some (hmacHex Crypto.hmacSha256 exSecret (normalize "New@Reader.org"))) db1 in
  let out3 := Subscribe.post 3000 exPass (exSubscribe "New@Reader.org" None) out2.2 in
  Hmac.generateHmacToken Crypto.hmacSha256 exSecret (normalize "New@Reader.org")
  = Some (hmacHex Crypto.hmacSha256 exSecret (normalize "New@Reader.org")) /\
  out2.1 = mkHtmlResponse 200 Unsubscribe.successHtml /\
  (exists r, firstByEmail (normalize "New@Reader.org") out2.2 = Some r /\
             Js.truthyNum (sub_verified r) = true /\ sub_active r = 0) /\
  out3.1 = jsonMessage "Welcome back! Subscription reactivated." /\
  (exists r, firstByEmail (normalize "New@Reader.org") out3.2 = Some r /\
             Js.truthyNum (sub_verified r) = true /\ sub_active r = 1).
Proof.
  apply (resubscribe_after_unsubscribe_reactivates Crypto.hmacSha256 hmacSha256_length
           2000 3000 exPass exPass exSecret "New@Reader.org"
           "turnstile-response" "turnstile-response" None None exDb).
  - discriminate.
  - reflexivity.
  - discriminate.
  - reflexivity.
  - discriminate.
  - reflexivity.
Defined.

Lemma admin_lists_verified_active_subscribers_witness :
  let reply := Admin.getSubscribers Crypto.hmacSha256 (Some "admin-secret") exAdminEnv in
  let listed (r : Subscriber) :=
    r ∈ rows (Admin.DB exAdminEnv) /\ sub_verified r = 1 /\ sub_active r = 1 in
  exists entries,
    reply = mkJson 200 (mkApi true None (Some entries) None) /\
    (forall e n,
       (exists en, en ∈ entries /\ Admin.email en = e /\ Admin.name en = n)
       <-> (exists r, listed r /\ sub_email r = e /\ sub_name r = n)) /\
    Forall (fun en => Admin.active en = true) entries /\
    Admin.stat_active <$> data (json_body (Admin.getStats (Some "admin-secret") exAdminEnv))
    = Some (Z.of_nat (length entries)).
Proof.
  apply (admin_lists_verified_active_subscribers Crypto.hmacSha256 (Some "admin-secret")
           exAdminEnv).
  - reflexivity.
  - left. discriminate.
Defined.

Lemma admin_stats_are_ordered_witness :
  exists st,
    data (json_body (Admin.getStats (Some "admin-secret") exAdminEnv)) = Some st /\
    0 <= Admin.stat_active st <= Admin.stat_verified st /\
    Admin.stat_verified st <= Admin.stat_total st /\
    Admin.stat_total st = Z.of_nat (length (rows (Admin.DB exAdminEnv))).
Proof.
  apply (admin_stats_are_ordered (Some "admin-secret") exAdminEnv). reflexivity.
Defined.

Lemma exAdminEnv_rows : Forall rowOk (rows (Admin.DB exAdminEnv)).
Proof.
  constructor; [|constructor; [|constructor]]; unfold rowOk; simpl.
  - split; [by left|]. split; [by right|]. split; [reflexivity|].
    split; [reflexivity|]. split; [discriminate|lia].
  - split; [by right|]. split; [by right|]. split; [reflexivity|].
    split; [reflexivity|exact I].
Qed.

Lemma admin_unsubscribe_links_work_witness :
  let entry :=
    Admin.mkEntry None "b@y.org" true
      ("https://signup.example/unsubscribe?email=b%40y.org&token="
       +:+ hmacHex Crypto.hmacSha256 exSecret "b@y.org") in
  exists token,
    Admin.unsubscribeUrl entry
    = Admin.WORKER_URL exAdminEnv +:+ "/unsubscribe?email="
      +:+ Uri.encodeURIComponent (Admin.email entry) +:+ "&token=" +:+ token /\
    let out :=
      Unsubscribe.get Crypto.hmacSha256 (Admin.HMAC_SECRET exAdminEnv)
        (Some (Admin.email entry)) (Some token) (Admin.DB exAdminEnv) in
    out.1 = mkHtmlResponse 200 Unsubscribe.successHtml /\
    forall entries',
      data (json_body
              (Admin.getSubscribers Crypto.hmacSha256 (Some "admin-secret")
                 (Admin.mkEnv out.2 (Admin.ADMIN_API_SECRET exAdminEnv)
                    (Admin.HMAC_SECRET exAdminEnv) (Admin.WORKER_URL exAdminEnv))))
      = Some entries' ->
      Admin.email entry ∉ Admin.email <$> entries'.
Proof.
  apply (admin_unsubscribe_links_work Crypto.hmacSha256 hmacSha256_length
           (Some "admin-secret") exAdminEnv
           (Admin.mkEntry None "b@y.org" true
              ("https://signup.example/unsubscribe?email=b%40y.org&token="
               +:+ hmacHex Crypto.hmacSha256 exSecret "b@y.org"))
           [Admin.mkEntry None "b@y.org" true
              ("https://signup.example/unsubscribe?email=b%40y.org&token="
               +:+ hmacHex Crypto.hmacSha256 exSecret "b@y.org")]).
  - reflexivity.
  - exact exAdminEnv_rows.
  - vm_compute. reflexivity.
  - by left.
Defined.

Lemma delete_report_removes_entry_and_body_witness :
  let out := Archive.delete "2025-12-06T00:00:00Z" exAuth "r1" exEnv1 in
  ((forall r, r ∈ storedReports exEnv1 -> id r <> "r1") ->
   out = (jsonError "Report not found" 404, exEnv1)) /\
  (forall (i : nat) (r : ReportMetaJson),
     storedReports exEnv1 !! i = Some r -> id r = "r1" ->
     (forall j y, (j < i)%nat -> storedReports exEnv1 !! j = Some y -> id y <> "r1") ->
     out.1 = jsonMessage "Report deleted" /\
     storedReports out.2 = base.delete i (storedReports exEnv1) /\
     ARCHIVE_R2 out.2 = base.delete (r2_key r) (ARCHIVE_R2 exEnv1) /\
     (distinctIds (storedReports exEnv1) ->
      getReport "2025-12-07T00:00:00Z" "r1" out.2
      = ReportJson (jsonError "Report not found" 404) /\
      "r1" ∉ id <$> storedReports out.2)).
Proof.
  apply (delete_report_removes_entry_and_body "2025-12-06T00:00:00Z"
           "2025-12-07T00:00:00Z" exAuth "r1" exEnv1).
  reflexivity.
Defined.

Lemma exEnv1_reachable : Reachable codeUnitCompare exEnv1.
Proof. unfold exEnv1, exEnv. apply reach_post, reach_fresh. Qed.

Lemma reachable_archive_is_consistent_witness :
  archiveOk codeUnitCompare exEnv1 /\
  forall r, r ∈ storedReports exEnv1 ->
            exists html, getReport "2025-12-07T00:00:00Z" (id r) exEnv1 = ReportHtml 200 html.
Proof.
  apply (reachable_archive_is_consistent codeUnitCompare codeUnitCompare_total
           codeUnitCompare_trans "2025-12-07T00:00:00Z" exEnv1).
  exact exEnv1_reachable.
Defined.

Lemma put_report_updates_or_creates_witness :
  let req := exPut "r1" "2025-12-05" "7" in
  let out := post codeUnitCompare "2025-12-06T00:00:00Z" req exEnv1 in
  let listed := bool_decide (id (submittedJson req) ∈ id <$> storedReports exEnv1) in
  json_status out.1 = (if listed then 200 else 201) /\
  message (json_body out.1)
  = Some (if listed then "Report updated" else "Report uploaded") /\
  length (storedReports out.2)
  = (if listed then length (storedReports exEnv1) else S (length (storedReports exEnv1))).
Proof.
  apply (put_report_updates_or_creates codeUnitCompare "2025-12-06T00:00:00Z"
           (exPut "r1" "2025-12-05" "7") exEnv1).
  reflexivity.
Defined.

Lemma put_report_twice_changes_nothing_witness :
  let req := exPut "r1" "2025-12-05" "7" in
  let env1 := (post codeUnitCompare "2025-12-06T00:00:00Z" req exEnv).2 in
  let out2 := post codeUnitCompare "2025-12-07T00:00:00Z" req env1 in
  json_status out2.1 = 200 /\
  storedReports out2.2 = storedReports env1 /\
  ARCHIVE_R2 out2.2 = ARCHIVE_R2 env1.
Proof.
  apply (put_report_twice_changes_nothing codeUnitCompare codeUnitCompare_total
           codeUnitCompare_trans "2025-12-06T00:00:00Z" "2025-12-07T00:00:00Z"
           (exPut "r1" "2025-12-05" "7") exEnv).
  - reflexivity.
  - constructor.
Defined.

End MoreSamples.
